(** * OLOPA escrow backend: a shallow embedding of the escrow service,
    its request validators and its routes, with the properties of the
    specification proved (or refuted) on it.

  Source files embedded here:
  - services/escrow.service   (class [EscrowService])
  - config/xrpl.config        ([getXRPLClient], [NETWORKS])
  - validators/escrow.validators (the Joi schemas)
  - middleware/validation.middleware ([validateRequest])
  - routes/escrow.routes      (the router in front of the service)
  [server.js] is a self-contained variant of the same application: the
  same schemas and route handlers in one file, with the descriptors
  built in the handlers and no [isValidAddress] check.

  The [xrpl] client library, the ledger behind it and the process
  environment are outside the repository: they are the fields of the
  records [XrplLib] and [ProcessEnv], over which every statement is
  quantified.  What the runtime and the libraries compute in the
  process itself is written out: the arithmetic of doubles, the UTF-8
  of [Buffer], the rules of Joi and the check the [Client] constructor
  makes of its URL. *)

From Stdlib Require Import ZArith NArith List Bool String Ascii DecimalString Lia.
Import ListNotations.

Set Implicit Arguments.
Set Warnings "-register-all".

(* ================================================================= *)
(** * JavaScript data *)
(* ================================================================= *)

Module Js.

Local Open Scope N_scope.

(** A JavaScript string is a sequence of UTF-16 code units. *)
Definition jsstring := list N.

(** String literals of the source (all of them ASCII). *)
Definition lit (s : string) : jsstring :=
  map N_of_ascii (list_ascii_of_string s).

Fixpoint jsstring_eqb (a b : jsstring) : bool :=
  match a, b with
  | [], [] => true
  | x :: a', y :: b' => N.eqb x y && jsstring_eqb a' b'
  | _, _ => false
  end.

(** Values: what a JSON body or a ledger object can hold.  The numbers
    of the program are timestamps, sequence numbers and counts: a number
    is the integer it holds.  JavaScript computes on them as IEEE 754
    doubles, see [to_double] below. *)
Inductive jsval : Type :=
| JUndef
| JNull
| JBool (b : bool)
| JNum (z : Z)
| JStr (s : jsstring)
| JArr (l : list jsval)
| JObj (fields : list (jsstring * jsval)).

(** An object is its own properties in insertion order. *)
Definition jsobj := list (jsstring * jsval).

(** [o[k]] *)
Fixpoint obj_get (o : jsobj) (k : jsstring) : option jsval :=
  match o with
  | [] => None
  | (k', v) :: o' => if jsstring_eqb k' k then Some v else obj_get o' k
  end.

(** [o[k] = v]: an existing property keeps its place, a new one goes
    last. *)
Fixpoint obj_set (o : jsobj) (k : jsstring) (v : jsval) : jsobj :=
  match o with
  | [] => [(k, v)]
  | (k', v') :: o' =>
      if jsstring_eqb k' k then (k, v) :: o' else (k', v') :: obj_set o' k v
  end.

(** [{...o}]: the properties of [o] defined one after the other on a
    fresh object. *)
Definition obj_spread (o : jsobj) : jsobj :=
  fold_left (fun acc kv => obj_set acc (fst kv) (snd kv)) o [].

(** Truthiness of the values the source tests with [if (x)] and
    [x || d]: [undefined], [0] and [''] are falsy. *)
Definition truthy_num (x : option Z) : bool :=
  match x with
  | Some z => negb (Z.eqb z 0)
  | None => false
  end.

Definition truthy_str (x : option jsstring) : bool :=
  match x with
  | Some (_ :: _) => true
  | _ => false
  end.

(** [x || d] on an optional string. *)
Definition str_or (x : option jsstring) (d : jsstring) : jsstring :=
  match x with
  | Some (c :: s) => c :: s
  | _ => d
  end.

(** [x || false] on an optional boolean. *)
Definition bool_or_false (x : option bool) : bool :=
  match x with
  | Some b => b
  | None => false
  end.

(** A possibly [undefined] string or number as a value. *)
Definition of_opt_str (x : option jsstring) : jsval :=
  match x with Some s => JStr s | None => JUndef end.

Definition of_opt_num (x : option Z) : jsval :=
  match x with Some z => JNum z | None => JUndef end.

(** Numbers are IEEE 754 doubles.  An integer is one of them when it
    has at most 53 significant bits, which every integer up to 2^53 in
    absolute value has; the result of [+] and [-] is the exact result
    rounded to the nearest double, to the one with the even significand
    on a tie.  [to_double z] is that rounding: [e] is the number of low
    bits that do not fit, [q] the significand that is left and [r] what
    was cut off.  (The sums of this program stay far from the largest
    double, so no result is infinite.) *)
Definition to_double (z : Z) : Z :=
  let a := Z.abs z in
  let e := Z.max 0 (Z.log2 a - 52) in
  let q := Z.shiftr a e in
  let r := (a - Z.shiftl q e)%Z in
  let half := Z.shiftl 1 (e - 1) in
  let up := (half <? r)%Z || ((r =? half)%Z && Z.odd q && (0 <? e)%Z) in
  (Z.sgn z * Z.shiftl (if up then q + 1 else q) e)%Z.

(** [Number.MAX_SAFE_INTEGER], 2^53 - 1. *)
Definition MAX_SAFE_INTEGER : Z := 9007199254740991.

(** [Number.MIN_SAFE_INTEGER <= z && z <= Number.MAX_SAFE_INTEGER] *)
Definition is_safe_integer (z : Z) : bool :=
  (- MAX_SAFE_INTEGER <=? z)%Z && (z <=? MAX_SAFE_INTEGER)%Z.

(** An [Error] object: its [message] and, for the errors the ledger
    client raises, [data.error]. *)
Record JsError : Type := mkError {
  message : jsstring;
  data_error : option jsstring
}.

(** [new Error(msg)] *)
Definition Error (msg : jsstring) : JsError :=
  {| message := msg; data_error := None |}.

End Js.

Import Js.

(* ================================================================= *)
(** * The codecs of the service *)
(* ================================================================= *)

Module Codec.

Local Open Scope N_scope.

Definition is_high_surrogate (c : N) : bool := (0xD800 <=? c) && (c <=? 0xDBFF).
Definition is_low_surrogate (c : N) : bool := (0xDC00 <=? c) && (c <=? 0xDFFF).

(** U+FFFD, which [Buffer.from] writes for a lone surrogate. *)
Definition replacement : list N := [0xEF; 0xBF; 0xBD].

Definition utf8_2 (c : N) : list N :=
  [0xC0 + c / 64; 0x80 + c mod 64].
Definition utf8_3 (c : N) : list N :=
  [0xE0 + c / 4096; 0x80 + (c / 64) mod 64; 0x80 + c mod 64].
Definition utf8_4 (c : N) : list N :=
  [0xF0 + c / 262144; 0x80 + (c / 4096) mod 64;
   0x80 + (c / 64) mod 64; 0x80 + c mod 64].

(** [Buffer.from(str, 'utf8')]: the bytes of the UTF-8 encoding. *)
Fixpoint utf8_encode (s : jsstring) : list N :=
  match s with
  | [] => []
  | c :: rest =>
      if c <? 0x80 then c :: utf8_encode rest
      else if c <? 0x800 then utf8_2 c ++ utf8_encode rest
      else if is_high_surrogate c then
        match rest with
        | d :: rest' =>
            if is_low_surrogate d
            then utf8_4 (0x10000 + (c - 0xD800) * 1024 + (d - 0xDC00))
                   ++ utf8_encode rest'
            else replacement ++ utf8_encode rest
        | [] => replacement
        end
      else if is_low_surrogate c then replacement ++ utf8_encode rest
      else utf8_3 c ++ utf8_encode rest
  end.

(** One hexadecimal digit, lower case, as a code unit. *)
Definition hex_digit (n : N) : N :=
  if n <? 10 then 48 + n else 97 + (n - 10).

(** [buf.toString('hex')] *)
Definition hex_of_bytes (bs : list N) : jsstring :=
  flat_map (fun b => [hex_digit (b / 16); hex_digit (b mod 16)]) bs.

(** [s.toUpperCase()], on the ASCII letters (all that [toString('hex')]
    produces). *)
Definition toUpperCase (s : jsstring) : jsstring :=
  map (fun c => if (97 <=? c) && (c <=? 122) then c - 32 else c) s.

(** [_toHex(str)] *)
Definition _toHex (str : jsstring) : jsstring :=
  toUpperCase (hex_of_bytes (utf8_encode str)).

Local Open Scope Z_scope.

(** [_toRippleTime(unixTimestamp)]: a subtraction of doubles. *)
Definition _toRippleTime (unixTimestamp : Z) : Z :=
  to_double (unixTimestamp - 946684800).

(** [_fromRippleTime(rippleTime)]: an addition of doubles. *)
Definition _fromRippleTime (rippleTime : Z) : Z :=
  to_double (rippleTime + 946684800).

End Codec.

Import Codec.

(* ================================================================= *)
(** * The ledger client library and the process environment *)
(* ================================================================= *)

(** The commands the service sends with [client.request]. *)
Inductive Request : Type :=
| ReqServerInfo
| ReqAccountInfo (account : option jsstring)
| ReqLedgerEntry (owner : option jsstring) (seq : Z)
| ReqTx (transaction : jsstring).

(** What the service asks of the [xrpl] library, in the order it asks.
    [EvEncode] is the only one that stays in the process. *)
Inductive Event : Type :=
| EvConnect (serverUrl : jsstring)
| EvRequest (r : Request)
| EvAutofill (tx : jsobj)
| EvEncode (tx : jsobj)
| EvSubmit (blob : jsstring).

(** [result.account_data] of an [account_info] response. *)
Record AccountInfo : Type := {
  signer_lists : option (list jsval)
}.

(** [result.node] of a [ledger_entry] response for an escrow. *)
Record EscrowNode : Type := {
  Account : jsval;
  Destination : jsval;
  Amount : jsval;
  FinishAfter : option Z;
  CancelAfter : option Z;
  Condition : option jsstring;
  SourceTag : option Z;
  DestinationTag : option Z;
  PreviousTxnID : jsval
}.

(** [result] of a [submit] response. *)
Record SubmitResponse : Type := {
  engine_result : jsstring;
  engine_result_message : jsstring;
  tx_json_hash : jsval;
  validated : option bool
}.

(** The [xrpl] library and the ledger behind the connection.  A call
    either resolves ([inr]) or throws ([inl]); every operation of the
    service makes each call at most once, so one answer per call is
    enough. *)
Record XrplLib : Type := {
  xrpl_isValidAddress : option jsstring -> bool;
  xrpl_encode : jsobj -> JsError + jsstring;
  client_connect : jsstring -> option JsError;
  (* [server_info], together with the reads of [result.info] that
     [getXRPLClient] logs *)
  client_server_info : option JsError;
  client_account_info : option jsstring -> JsError + AccountInfo;
  client_ledger_entry : option jsstring -> Z -> JsError + EscrowNode;
  client_tx : jsstring -> JsError + jsobj;
  client_autofill : jsobj -> JsError + jsobj;
  client_submit : jsstring -> JsError + SubmitResponse
}.

(** [process.env] *)
Record ProcessEnv : Type := {
  XRPL_NETWORK : option jsstring;
  XRPL_SERVER_URL : option jsstring
}.

(** The service object: [this.client] ([None] for [null], otherwise
    what [isConnected()] answers) and the calls made so far. *)
Record ServiceState : Type := {
  client : option bool;
  trace : list Event
}.

(* ================================================================= *)
(** * Async functions: state and exceptions *)
(* ================================================================= *)

Definition M (A : Type) : Type := ServiceState -> (JsError + A) * ServiceState.

Definition ret {A} (a : A) : M A := fun st => (inr a, st).

Definition throw {A} (e : JsError) : M A := fun st => (inl e, st).

Definition bind {A B} (m : M A) (f : A -> M B) : M B :=
  fun st =>
    match m st with
    | (inr a, st') => f a st'
    | (inl e, st') => (inl e, st')
    end.

(** [try { m } catch (error) { h error }] *)
Definition try_catch {A} (m : M A) (h : JsError -> M A) : M A :=
  fun st =>
    match m st with
    | (inr a, st') => (inr a, st')
    | (inl e, st') => h e st'
    end.

Notation "x <- c1 ;; c2" := (bind c1 (fun x => c2))
  (at level 61, c1 at next level, right associativity).
Notation "c1 ;; c2" := (bind c1 (fun _ => c2))
  (at level 61, right associativity).

Definition emit (ev : Event) : M unit :=
  fun st => (inr tt, {| client := client st; trace := trace st ++ [ev] |}).

(** A call into the library: it is recorded, then it resolves or throws. *)
Definition call {A} (ev : Event) (answer : JsError + A) : M A :=
  emit ev ;;
  match answer with
  | inr a => ret a
  | inl e => throw e
  end.

Definition call_void (ev : Event) (answer : option JsError) : M unit :=
  emit ev ;;
  match answer with
  | None => ret tt
  | Some e => throw e
  end.

Definition set_client (c : option bool) : M unit :=
  fun st => (inr tt, {| client := c; trace := trace st |}).

(* ================================================================= *)
(** * config/xrpl.config *)
(* ================================================================= *)

Definition NETWORKS : list (jsstring * jsstring) :=
  [ (lit "testnet", lit "wss://s.altnet.rippletest.net:51233");
    (lit "mainnet", lit "wss://xrplcluster.com");
    (lit "devnet", lit "wss://s.devnet.rippletest.net:51233") ].

Fixpoint networks_get (l : list (jsstring * jsstring)) (k : jsstring)
  : option jsstring :=
  match l with
  | [] => None
  | (k', v) :: l' => if jsstring_eqb k' k then Some v else networks_get l' k
  end.

(* ================================================================= *)
(** * Parameters and results of the service *)
(* ================================================================= *)

(** A property the caller may leave out is an [option]: [None] is
    [undefined]. *)

(** [params.amount]: drops of XRP as a string, or an issued currency. *)
Inductive AmountParam : Type :=
| Drops (s : jsstring)
| Issued (currency value : option jsstring) (issuer : option jsstring).

Definition amount_value (a : option AmountParam) : jsval :=
  match a with
  | None => JUndef
  | Some (Drops s) => JStr s
  | Some (Issued c v i) =>
      JObj [ (lit "currency", of_opt_str c);
             (lit "value", of_opt_str v);
             (lit "issuer", of_opt_str i) ]
  end.

Module Memo.
Record t : Type := mk {
  type : option jsstring;
  data : option jsstring
}.
End Memo.

Module CreateParams.
Record t : Type := mk {
  sourceAddress : option jsstring;
  destinationAddress : option jsstring;
  amount : option AmountParam;
  finishAfter : option Z;
  cancelAfter : option Z;
  condition : option jsstring;
  memo : option Memo.t
}.
End CreateParams.

Module FinishParams.
Record t : Type := mk {
  finisherAddress : option jsstring;
  ownerAddress : option jsstring;
  offerSequence : option Z;
  fulfillment : option jsstring
}.
End FinishParams.

Module CancelParams.
Record t : Type := mk {
  cancellerAddress : option jsstring;
  ownerAddress : option jsstring;
  offerSequence : option Z
}.
End CancelParams.

Module Signature.
Record t : Type := mk {
  signer : option jsstring;
  signature : option jsstring;
  publicKey : option jsstring
}.
End Signature.

Module MultisigParams.
Record t : Type := mk {
  transaction : option jsobj;
  signatures : option (list Signature.t)
}.
End MultisigParams.

Module Instructions.
Record t : Type := mk {
  message : jsstring;
  signingRequired : bool;
  (* [None]: the property is not there *)
  multisigRequired : option bool
}.
End Instructions.

(** What [prepareEscrowCreate] and [prepareEscrowCancel] return. *)
Module Prepared.
Record t : Type := mk {
  success : bool;
  transaction : jsobj;
  instructions : Instructions.t
}.
End Prepared.

(** What [prepareEscrowFinish] returns. *)
Module PreparedFinish.
Record t : Type := mk {
  success : bool;
  transaction : jsobj;
  requiresMultisig : bool;
  (* [None]: the property is not there *)
  signerList : option jsval;
  instructions : Instructions.t
}.
End PreparedFinish.

(** What [submitTransaction] returns. *)
Module Submitted.
Record t : Type := mk {
  success : bool;
  txHash : jsval;
  resultCode : jsstring;
  resultMessage : jsstring;
  validated : bool
}.
End Submitted.

(** What [submitMultisigTransaction] returns. *)
Module MultisigSubmitted.
Record t : Type := mk {
  success : bool;
  txHash : jsval;
  resultCode : jsstring;
  resultMessage : jsstring;
  signerCount : Z;
  signers : list jsval;
  validated : bool
}.
End MultisigSubmitted.

(** What [getEscrowStatus] returns. *)
Module EscrowDetails.
Record t : Type := mk {
  owner : jsval;
  destination : jsval;
  amount : jsval;
  (* [None]: [NaN], the sum of [undefined] and a number *)
  finishAfter : option Z;
  (* [None]: [null] *)
  cancelAfter : option Z;
  condition : option jsstring;
  sourceTag : option Z;
  destinationTag : option Z;
  previousTxnID : jsval
}.
End EscrowDetails.

Module Status.
Record t : Type := mk {
  success : bool;
  escrow : option EscrowDetails.t;
  status : jsstring;
  message : option jsstring
}.
End Status.

(** What [getTransactionDetails] returns. *)
Module TxDetails.
Record t : Type := mk {
  success : bool;
  transaction : jsobj;
  validated : option jsval
}.
End TxDetails.

(** The names every object inherits from [Object.prototype]; looked up
    in [NETWORKS] they are found on the prototype, not missing. *)
Definition object_prototype_names : list jsstring :=
  [ lit "constructor"; lit "__proto__"; lit "hasOwnProperty";
    lit "isPrototypeOf"; lit "propertyIsEnumerable"; lit "toString";
    lit "toLocaleString"; lit "valueOf"; lit "__defineGetter__";
    lit "__defineSetter__"; lit "__lookupGetter__"; lit "__lookupSetter__" ].

(** [NETWORKS[network]] for a name that is not one of the three is
    [undefined], unless the name is an inherited one: then it is a
    function or an object of [Object.prototype], truthy and not a
    string. *)
Definition inherited (network : jsstring) : bool :=
  match networks_get NETWORKS network with
  | Some _ => false
  | None => existsb (jsstring_eqb network) object_prototype_names
  end.

Fixpoint starts_with (prefix s : jsstring) : bool :=
  match prefix, s with
  | [], _ => true
  | p :: prefix', c :: s' => N.eqb p c && starts_with prefix' s'
  | _ :: _, [] => false
  end.

(** [new xrpl.Client(server, options)] opens no connection.  It checks
    [server] first, and throws a [ValidationError], an error with a
    message and no [data], unless [server] is a string that matches
    [/^(wss?|wss?\+unix):\/\//]. *)
Definition Client_accepts (server : jsstring) : bool :=
  starts_with (lit "ws://") server || starts_with (lit "wss://") server ||
  starts_with (lit "ws+unix://") server ||
  starts_with (lit "wss+unix://") server.

Definition Client_refusal : JsError :=
  Error (lit "server URI must start with `wss://`, `ws://`, `wss+unix://`, or `ws+unix://`.").

Section Service.

Variable X : XrplLib.
Variable env : ProcessEnv.

(** [getXRPLClient()]: a new client, connected and probed with
    [server_info]; any failure of the two is rethrown as
    "XRPL connection failed: ...".  The client is constructed before
    the [try]: what the constructor throws, for an inherited value of
    [NETWORKS] or for a URL it does not accept, is thrown as it is. *)
Definition getXRPLClient : M unit :=
  let network := str_or (XRPL_NETWORK env) (lit "testnet") in
  let serverUrl :=
    if truthy_str (XRPL_SERVER_URL env) then XRPL_SERVER_URL env
    else networks_get NETWORKS network in
  if negb (truthy_str (XRPL_SERVER_URL env)) && inherited network
  then (* [serverUrl] is truthy, and no string *)
    throw Client_refusal
  else if negb (truthy_str serverUrl)
  then throw (Error (lit "Invalid network: " ++ network))
  else
    let url := str_or serverUrl [] in
    if negb (Client_accepts url) then throw Client_refusal
    else
      try_catch
        (call_void (EvConnect url) (client_connect X url) ;;
         call_void (EvRequest ReqServerInfo) (client_server_info X) ;;
         ret tt)
        (fun error =>
           throw (Error (lit "XRPL connection failed: " ++ message error))).

(* ================================================================= *)
(** * services/escrow.service *)
(* ================================================================= *)

(** [initialize()] *)
Definition initialize : M unit :=
  fun st =>
    match client st with
    | Some true => ret tt st
    | _ => (getXRPLClient ;; set_client (Some true)) st
    end.

(** The object [escrowTx] that [prepareEscrowCreate] builds before it
    asks for autofill. *)
Definition escrowCreateTx (params : CreateParams.t) : jsobj :=
  let sourceAddress := CreateParams.sourceAddress params in
  let destinationAddress := CreateParams.destinationAddress params in
  let amount := CreateParams.amount params in
  let finishAfter := CreateParams.finishAfter params in
  let cancelAfter := CreateParams.cancelAfter params in
  let condition := CreateParams.condition params in
  let memo := CreateParams.memo params in
  let escrowTx : jsobj :=
    [ (lit "TransactionType", JStr (lit "EscrowCreate"));
      (lit "Account", of_opt_str sourceAddress);
      (lit "Destination", of_opt_str destinationAddress);
      (lit "Amount", amount_value amount) ] in
  (* [if (finishAfter)] *)
  let escrowTx :=
    match finishAfter with
    | Some t =>
        if truthy_num finishAfter
        then obj_set escrowTx (lit "FinishAfter") (JNum (_toRippleTime t))
        else escrowTx
    | None => escrowTx
    end in
  (* [if (cancelAfter)] *)
  let escrowTx :=
    match cancelAfter with
    | Some t =>
        if truthy_num cancelAfter
        then obj_set escrowTx (lit "CancelAfter") (JNum (_toRippleTime t))
        else escrowTx
    | None => escrowTx
    end in
  (* [if (condition)] *)
  let escrowTx :=
    match condition with
    | Some c =>
        if truthy_str condition
        then obj_set escrowTx (lit "Condition") (JStr c)
        else escrowTx
    | None => escrowTx
    end in
  (* [if (memo)]: an object is truthy *)
  match memo with
  | Some memo =>
      obj_set escrowTx (lit "Memos")
        (JArr [ JObj [ (lit "Memo",
           JObj [ (lit "MemoType",
                    JStr (_toHex (str_or (Memo.type memo) (lit "escrow"))));
                  (lit "MemoData",
                    JStr (_toHex (str_or (Memo.data memo) []))) ]) ] ])
  | None => escrowTx
  end.

(** [prepareEscrowCreate(params)] *)
Definition prepareEscrowCreate (params : CreateParams.t) : M Prepared.t :=
  try_catch
    (initialize ;;
     if negb (xrpl_isValidAddress X (CreateParams.sourceAddress params))
     then throw (Error (lit "Invalid source address"))
     else
     if negb (xrpl_isValidAddress X (CreateParams.destinationAddress params))
     then throw (Error (lit "Invalid destination address"))
     else
     let escrowTx := escrowCreateTx params in
     prepared <- call (EvAutofill escrowTx) (client_autofill X escrowTx) ;;
     ret {| Prepared.success := true;
            Prepared.transaction := prepared;
            Prepared.instructions :=
              {| Instructions.message :=
                   lit "Transaction prepared. Sign this transaction with your private key and submit via /api/escrow/submit";
                 Instructions.signingRequired := true;
                 Instructions.multisigRequired := None |} |})
    (fun error => throw error).

(** The object [finishTx] that [prepareEscrowFinish] builds. *)
Definition escrowFinishTx (params : FinishParams.t) : jsobj :=
  let finishTx : jsobj :=
    [ (lit "TransactionType", JStr (lit "EscrowFinish"));
      (lit "Account", of_opt_str (FinishParams.finisherAddress params));
      (lit "Owner", of_opt_str (FinishParams.ownerAddress params));
      (lit "OfferSequence", of_opt_num (FinishParams.offerSequence params)) ] in
  (* [if (fulfillment)] *)
  match FinishParams.fulfillment params with
  | Some f =>
      if truthy_str (FinishParams.fulfillment params)
      then obj_set finishTx (lit "Fulfillment") (JStr f)
      else finishTx
  | None => finishTx
  end.

(** [prepareEscrowFinish(params)] *)
Definition prepareEscrowFinish (params : FinishParams.t) : M PreparedFinish.t :=
  try_catch
    (initialize ;;
     let finisherAddress := FinishParams.finisherAddress params in
     let ownerAddress := FinishParams.ownerAddress params in
     if negb (xrpl_isValidAddress X finisherAddress)
     then throw (Error (lit "Invalid finisher address"))
     else
     if negb (xrpl_isValidAddress X ownerAddress)
     then throw (Error (lit "Invalid owner address"))
     else
     let finishTx := escrowFinishTx params in
     accountInfo <- call (EvRequest (ReqAccountInfo finisherAddress))
                         (client_account_info X finisherAddress) ;;
     let signerList := signer_lists accountInfo in
     prepared <- call (EvAutofill finishTx) (client_autofill X finishTx) ;;
     match signerList with
     | Some (first :: _) =>
         (* [signerList && signerList.length > 0] *)
         ret {| PreparedFinish.success := true;
                PreparedFinish.transaction := prepared;
                PreparedFinish.requiresMultisig := true;
                PreparedFinish.signerList := Some first;
                PreparedFinish.instructions :=
                  {| Instructions.message :=
                       lit "This account requires multisignature. Collect signatures from required signers and submit via /api/escrow/submit-multisig";
                     Instructions.signingRequired := true;
                     Instructions.multisigRequired := Some true |} |}
     | _ =>
         ret {| PreparedFinish.success := true;
                PreparedFinish.transaction := prepared;
                PreparedFinish.requiresMultisig := false;
                PreparedFinish.signerList := None;
                PreparedFinish.instructions :=
                  {| Instructions.message :=
                       lit "Transaction prepared. Sign and submit via /api/escrow/submit";
                     Instructions.signingRequired := true;
                     Instructions.multisigRequired := None |} |}
     end)
    (fun error => throw error).

(** The object [cancelTx] that [prepareEscrowCancel] builds. *)
Definition escrowCancelTx (params : CancelParams.t) : jsobj :=
  [ (lit "TransactionType", JStr (lit "EscrowCancel"));
    (lit "Account", of_opt_str (CancelParams.cancellerAddress params));
    (lit "Owner", of_opt_str (CancelParams.ownerAddress params));
    (lit "OfferSequence", of_opt_num (CancelParams.offerSequence params)) ].

(** [prepareEscrowCancel(params)] *)
Definition prepareEscrowCancel (params : CancelParams.t) : M Prepared.t :=
  try_catch
    (initialize ;;
     if negb (xrpl_isValidAddress X (CancelParams.cancellerAddress params))
     then throw (Error (lit "Invalid canceller address"))
     else
     if negb (xrpl_isValidAddress X (CancelParams.ownerAddress params))
     then throw (Error (lit "Invalid owner address"))
     else
     let cancelTx := escrowCancelTx params in
     prepared <- call (EvAutofill cancelTx) (client_autofill X cancelTx) ;;
     ret {| Prepared.success := true;
            Prepared.transaction := prepared;
            Prepared.instructions :=
              {| Instructions.message :=
                   lit "Transaction prepared. Sign and submit via /api/escrow/submit";
                 Instructions.signingRequired := true;
                 Instructions.multisigRequired := None |} |})
    (fun error => throw error).

(** [submitTransaction(signedTxBlob)] *)
Definition submitTransaction (signedTxBlob : jsstring) : M Submitted.t :=
  try_catch
    (initialize ;;
     result <- call (EvSubmit signedTxBlob) (client_submit X signedTxBlob) ;;
     ret {| Submitted.success :=
              jsstring_eqb (engine_result result) (lit "tesSUCCESS");
            Submitted.txHash := tx_json_hash result;
            Submitted.resultCode := engine_result result;
            Submitted.resultMessage := engine_result_message result;
            Submitted.validated := bool_or_false (validated result) |})
    (fun error => throw error).

(** The entry [signatures.map] builds for one signature. *)
Definition signer_entry (sig : Signature.t) : jsval :=
  JObj [ (lit "Signer",
    JObj [ (lit "Account", of_opt_str (Signature.signer sig));
           (lit "TxnSignature", of_opt_str (Signature.signature sig));
           (lit "SigningPubKey",
              JStr (str_or (Signature.publicKey sig) [])) ]) ].

(** [{ ...transaction, Signers: signers, SigningPubKey: '' }] *)
Definition multisigned (transaction : option jsobj) (signers : list jsval)
  : jsobj :=
  let spread := match transaction with
                | Some t => obj_spread t
                | None => []
                end in
  obj_set (obj_set spread (lit "Signers") (JArr signers))
          (lit "SigningPubKey") (JStr []).

(** [submitMultisigTransaction(params)] *)
Definition submitMultisigTransaction (params : MultisigParams.t)
  : M MultisigSubmitted.t :=
  try_catch
    (initialize ;;
     let transaction := MultisigParams.transaction params in
     match MultisigParams.signatures params with
     | None =>
         (* [undefined.map] *)
         throw (Error (lit "Cannot read properties of undefined (reading 'map')"))
     | Some signatures =>
         let signers := map signer_entry signatures in
         let multisignedTx := multisigned transaction signers in
         encoded <- call (EvEncode multisignedTx) (xrpl_encode X multisignedTx) ;;
         result <- call (EvSubmit encoded) (client_submit X encoded) ;;
         ret {| MultisigSubmitted.success :=
                  jsstring_eqb (engine_result result) (lit "tesSUCCESS");
                MultisigSubmitted.txHash := tx_json_hash result;
                MultisigSubmitted.resultCode := engine_result result;
                MultisigSubmitted.resultMessage := engine_result_message result;
                MultisigSubmitted.signerCount := Z.of_nat (List.length signatures);
                MultisigSubmitted.signers :=
                  map (fun s => of_opt_str (Signature.signer s)) signatures;
                MultisigSubmitted.validated :=
                  bool_or_false (validated result) |}
     end)
    (fun error => throw error).

(** [getEscrowStatus(ownerAddress, offerSequence)] *)
Definition getEscrowStatus (ownerAddress : option jsstring) (offerSequence : Z)
  : M Status.t :=
  try_catch
    (initialize ;;
     escrow <- call (EvRequest (ReqLedgerEntry ownerAddress offerSequence))
                    (client_ledger_entry X ownerAddress offerSequence) ;;
     ret {| Status.success := true;
            Status.escrow := Some
              {| EscrowDetails.owner := Account escrow;
                 EscrowDetails.destination := Destination escrow;
                 EscrowDetails.amount := Amount escrow;
                 EscrowDetails.finishAfter :=
                   option_map _fromRippleTime (FinishAfter escrow);
                 EscrowDetails.cancelAfter :=
                   if truthy_num (CancelAfter escrow)
                   then option_map _fromRippleTime (CancelAfter escrow)
                   else None;
                 EscrowDetails.condition :=
                   if truthy_str (Condition escrow) then Condition escrow
                   else None;
                 EscrowDetails.sourceTag :=
                   if truthy_num (SourceTag escrow) then SourceTag escrow
                   else None;
                 EscrowDetails.destinationTag :=
                   if truthy_num (DestinationTag escrow)
                   then DestinationTag escrow else None;
                 EscrowDetails.previousTxnID := PreviousTxnID escrow |};
            Status.status := lit "active";
            Status.message := None |})
    (fun error =>
       match data_error error with
       | Some code =>
           if jsstring_eqb code (lit "entryNotFound")
           then ret {| Status.success := true;
                       Status.escrow := None;
                       Status.status := lit "not_found";
                       Status.message := Some
                         (lit "Escrow not found. It may have been finished or cancelled.") |}
           else throw error
       | None => throw error
       end).

(** [getTransactionDetails(txHash)] *)
Definition getTransactionDetails (txHash : jsstring) : M TxDetails.t :=
  try_catch
    (initialize ;;
     response <- call (EvRequest (ReqTx txHash)) (client_tx X txHash) ;;
     ret {| TxDetails.success := true;
            TxDetails.transaction := response;
            TxDetails.validated := obj_get response (lit "validated") |})
    (fun error => throw error).

End Service.

(* ================================================================= *)
(** * validators/escrow.validators *)
(* ================================================================= *)

(** The Joi rules the schemas use, on bodies whose properties already
    have the JavaScript type the schema asks for (a string where it says
    [Joi.string()], an integer where it says [Joi.number().integer()]).
    A failed rule is reported by its Joi error code and the path of the
    value. *)

Inductive JoiCode : Type :=
| any_required
| any_ref
| string_empty
| string_pattern_base
| string_max
| string_length
| number_unsafe
| number_min
| number_positive
| array_min
| alternatives_match.

Inductive PathSeg : Type :=
| Key (k : string)
| Index (i : nat).

Record Detail : Type := {
  path : list PathSeg;
  code : JoiCode
}.

Definition in_range (lo hi c : N) : bool := N.leb lo c && N.leb c hi.

(** The class [[1-9A-HJ-NP-Za-km-z]]. *)
Definition base58_char (c : N) : bool :=
  in_range 49 57 c || in_range 65 72 c || in_range 74 78 c ||
  in_range 80 90 c || in_range 97 107 c || in_range 109 122 c.

(** [/^r[1-9A-HJ-NP-Za-km-z]{25,34}$/] *)
Definition xrplAddress_pattern (s : jsstring) : bool :=
  match s with
  | c :: rest =>
      N.eqb c 114 && forallb base58_char rest &&
      Nat.leb 25 (List.length rest) && Nat.leb (List.length rest) 34
  | [] => false
  end.

(** [/^\d+$/] *)
Definition digits_pattern (s : jsstring) : bool :=
  match s with
  | _ :: _ => forallb (in_range 48 57) s
  | [] => false
  end.

(** [Joi.string()...required()]: present and not empty, then the rule. *)
Definition string_required (p : list PathSeg) (rule : jsstring -> list JoiCode)
  (v : option jsstring) : list Detail :=
  match v with
  | None => [ {| path := p; code := any_required |} ]
  | Some [] => [ {| path := p; code := string_empty |} ]
  | Some s => map (fun c => {| path := p; code := c |}) (rule s)
  end.

(** [Joi.string()...optional()] *)
Definition string_optional (p : list PathSeg) (rule : jsstring -> list JoiCode)
  (v : option jsstring) : list Detail :=
  match v with
  | None => []
  | Some [] => [ {| path := p; code := string_empty |} ]
  | Some s => map (fun c => {| path := p; code := c |}) (rule s)
  end.

Definition no_rule (s : jsstring) : list JoiCode := [].

Definition pattern_rule (pat : jsstring -> bool) (s : jsstring) : list JoiCode :=
  if pat s then [] else [string_pattern_base].

Definition max_rule (n : nat) (s : jsstring) : list JoiCode :=
  if Nat.leb (List.length s) n then [] else [string_max].

Definition length_rule (n : nat) (s : jsstring) : list JoiCode :=
  if Nat.eqb (List.length s) n then [] else [string_length].

(** [const xrplAddress = Joi.string().pattern(...).required()] *)
Definition xrplAddress (p : list PathSeg) (v : option jsstring) : list Detail :=
  string_required p (pattern_rule xrplAddress_pattern) v.

(** [Joi.number()] on a number that is there.  The check of the type
    comes first and ends the validation of the value: a number outside
    the safe integers is reported as [number.unsafe], and the rules of
    the schema ([min], [positive]) run on a safe one only. *)
Definition number_rules (p : list PathSeg) (rules : Z -> list JoiCode) (z : Z)
  : list Detail :=
  if is_safe_integer z
  then map (fun c => {| path := p; code := c |}) (rules z)
  else [ {| path := p; code := number_unsafe |} ].

Definition min_rule (limit : Z) (z : Z) : list JoiCode :=
  if Z.leb limit z then [] else [number_min].

Definition positive_rule (z : Z) : list JoiCode :=
  if Z.ltb 0 z then [] else [number_positive].

(** [Joi.number().integer().positive().required()] *)
Definition positive_required (p : list PathSeg) (v : option Z) : list Detail :=
  match v with
  | None => [ {| path := p; code := any_required |} ]
  | Some z => number_rules p positive_rule z
  end.

(** The [amount] alternatives: a string of digits, or an issued
    currency with its three required properties.  When no alternative
    matches, Joi looks at why.  A string fails the object alternative by
    its type and the string alternative by one rule, and that error is
    the one reported.  An object fails the string alternative by its
    type; a single error inside it is reported as it is, at its own
    path, and several are reported as one [alternatives.match]. *)
Definition amount_rule (p : list PathSeg) (v : option AmountParam) : list Detail :=
  match v with
  | None => [ {| path := p; code := any_required |} ]
  | Some (Drops s) => string_required p (pattern_rule digits_pattern) (Some s)
  | Some (Issued c v i) =>
      match string_required (p ++ [Key "currency"]) (length_rule 3) c ++
            string_required (p ++ [Key "value"]) no_rule v ++
            xrplAddress (p ++ [Key "issuer"]) i with
      | [] => []
      | [d] => [d]
      | _ :: _ :: _ => [ {| path := p; code := alternatives_match |} ]
      end
  end.

Section Validators.

(** [Math.floor(Date.now() / 1000)], read once, when the module is
    loaded. *)
Variable loadTime : Z.

(** [escrowCreateSchema] *)
Definition escrowCreateSchema (body : CreateParams.t) : list Detail :=
  xrplAddress [Key "sourceAddress"] (CreateParams.sourceAddress body) ++
  xrplAddress [Key "destinationAddress"] (CreateParams.destinationAddress body) ++
  amount_rule [Key "amount"] (CreateParams.amount body) ++
  match CreateParams.finishAfter body with
  | None => [ {| path := [Key "finishAfter"]; code := any_required |} ]
  | Some f => number_rules [Key "finishAfter"] (min_rule loadTime) f
  end ++
  match CreateParams.cancelAfter body with
  | None => []
  | Some c =>
      (* [.min(Joi.ref('finishAfter'))]: the limit is what the body has
         under [finishAfter], and must be a number *)
      number_rules [Key "cancelAfter"]
        (fun c => match CreateParams.finishAfter body with
                  | Some f => min_rule f c
                  | None => [any_ref]
                  end) c
  end ++
  string_optional [Key "condition"] no_rule (CreateParams.condition body) ++
  match CreateParams.memo body with
  | None => []
  | Some m =>
      string_optional [Key "memo"; Key "type"] (max_rule 100) (Memo.type m) ++
      string_optional [Key "memo"; Key "data"] (max_rule 1000) (Memo.data m)
  end.

End Validators.

(** [escrowFinishSchema] *)
Definition escrowFinishSchema (body : FinishParams.t) : list Detail :=
  xrplAddress [Key "finisherAddress"] (FinishParams.finisherAddress body) ++
  xrplAddress [Key "ownerAddress"] (FinishParams.ownerAddress body) ++
  positive_required [Key "offerSequence"] (FinishParams.offerSequence body) ++
  string_optional [Key "fulfillment"] no_rule (FinishParams.fulfillment body).

(** [escrowCancelSchema] *)
Definition escrowCancelSchema (body : CancelParams.t) : list Detail :=
  xrplAddress [Key "cancellerAddress"] (CancelParams.cancellerAddress body) ++
  xrplAddress [Key "ownerAddress"] (CancelParams.ownerAddress body) ++
  positive_required [Key "offerSequence"] (CancelParams.offerSequence body).

(** One item of [signatures], at index [i]. *)
Definition signature_item (i : nat) (sig : Signature.t) : list Detail :=
  xrplAddress [Key "signatures"; Index i; Key "signer"] (Signature.signer sig) ++
  string_required [Key "signatures"; Index i; Key "signature"] no_rule
    (Signature.signature sig) ++
  string_optional [Key "signatures"; Index i; Key "publicKey"] no_rule
    (Signature.publicKey sig).

Fixpoint signature_items (i : nat) (sigs : list Signature.t) : list Detail :=
  match sigs with
  | [] => []
  | sig :: sigs' => signature_item i sig ++ signature_items (S i) sigs'
  end.

(** [multisigSubmitSchema] *)
Definition multisigSubmitSchema (body : MultisigParams.t) : list Detail :=
  match MultisigParams.transaction body with
  | None => [ {| path := [Key "transaction"]; code := any_required |} ]
  | Some _ => []
  end ++
  match MultisigParams.signatures body with
  | None => [ {| path := [Key "signatures"]; code := any_required |} ]
  | Some sigs =>
      signature_items 0 sigs ++
      (* [.min(1)] *)
      if Nat.leb 1 (List.length sigs) then []
      else [ {| path := [Key "signatures"]; code := array_min |} ]
  end.

(* ================================================================= *)
(** * middleware/validation.middleware and routes/escrow.routes *)
(* ================================================================= *)

(** One entry of [details]: [detail.path.join('.')] and the rule that
    produced [detail.message]. *)
Record FieldError : Type := {
  field : string;
  rule : JoiCode
}.

Definition seg_to_string (s : PathSeg) : string :=
  match s with
  | Key k => k
  | Index i => DecimalString.NilEmpty.string_of_uint (Nat.to_uint i)
  end.

(** [path.join('.')] *)
Definition path_join (p : list PathSeg) : string :=
  String.concat "." (map seg_to_string p).

(** The body of a response, without its [timestamp]. *)
Record Response (A : Type) : Type := {
  http_status : Z;
  success : bool;
  data : option A;
  error : option jsstring;
  details : option (list FieldError)
}.

Definition Handler (B A : Type) : Type :=
  B -> ServiceState -> Response A * ServiceState.

(** [validateRequest(schema)]: answer 400 "Validation failed" with the
    details, or hand the body to the next handler. *)
Definition validateRequest {B A} (schema : B -> list Detail)
  (next : Handler B A) : Handler B A :=
  fun body st =>
    match schema body with
    | [] => next body st
    | errs =>
        ({| http_status := 400;
            success := false;
            data := None;
            error := Some (lit "Validation failed");
            details := Some
              (map (fun d => {| field := path_join (path d);
                                rule := code d |}) errs) |}, st)
    end.

(** The body every route has: the result of the service under [data],
    or status 400 with the message of what it threw. *)
Definition respond {B A} (service : B -> M A) : Handler B A :=
  fun body st =>
    match service body st with
    | (inr result, st') =>
        ({| http_status := 200;
            success := true;
            data := Some result;
            error := None;
            details := None |}, st')
    | (inl err, st') =>
        ({| http_status := 400;
            success := false;
            data := None;
            error := Some (message err);
            details := None |}, st')
    end.

Section Routes.

Variable X : XrplLib.
Variable env : ProcessEnv.
Variable loadTime : Z.

(** [router.post('/create', ...)] *)
Definition post_create : Handler CreateParams.t Prepared.t :=
  validateRequest (escrowCreateSchema loadTime)
    (respond (prepareEscrowCreate X env)).

(** [router.post('/finish', ...)] *)
Definition post_finish : Handler FinishParams.t PreparedFinish.t :=
  validateRequest escrowFinishSchema (respond (prepareEscrowFinish X env)).

(** [router.post('/cancel', ...)] *)
Definition post_cancel : Handler CancelParams.t Prepared.t :=
  validateRequest escrowCancelSchema (respond (prepareEscrowCancel X env)).

(** [router.post('/submit-multisig', ...)] *)
Definition post_submit_multisig
  : Handler MultisigParams.t MultisigSubmitted.t :=
  validateRequest multisigSubmitSchema
    (respond (submitMultisigTransaction X env)).

End Routes.

(* ================================================================= *)
(** * Vocabulary of the specification *)
(* ================================================================= *)

(** The calls that establish the connection: [connect] and the
    [server_info] probe of [getXRPLClient]. *)
Definition is_connection_event (ev : Event) : bool :=
  match ev with
  | EvConnect _ => true
  | EvRequest ReqServerInfo => true
  | _ => false
  end.

(** The errors the three address checks throw. *)
Definition InvalidAddress (e : JsError) : Prop :=
  In e [ Error (lit "Invalid source address");
         Error (lit "Invalid destination address");
         Error (lit "Invalid finisher address");
         Error (lit "Invalid owner address");
         Error (lit "Invalid canceller address") ].

(** The contract of autofill the service relies on (its comment:
    "adds Fee, Sequence, LastLedgerSequence"): no other property of the
    descriptor is touched. *)
Definition autofill_fields : list jsstring :=
  [ lit "Fee"; lit "Sequence"; lit "LastLedgerSequence" ].

Definition autofill_adds_only (X : XrplLib) : Prop :=
  forall tx tx', client_autofill X tx = inr tx' ->
  forall k, existsb (jsstring_eqb k) autofill_fields = false ->
            obj_get tx' k = obj_get tx k.

(** An operation that stops at its address check: it throws, in the
    state [st1] that [initialize] left, the error of the check when
    [initialize] returned and the error of [initialize] otherwise. *)
Definition stops_at_address_check {A} (op : M A) (st : ServiceState)
  (r0 : JsError + unit) (st1 : ServiceState) : Prop :=
  exists e, op st = (inl e, st1) /\
            (r0 = inr tt -> InvalidAddress e) /\
            (forall e0, r0 = inl e0 -> e = e0).

(** The Unix times the time codec translates without rounding: [t] and
    [t - 946684800] are both within 2^53 of zero, where every integer is
    a double. *)
Definition exact_time (t : Z) : Prop :=
  (946684800 - 9007199254740992 <= t <= 9007199254740992)%Z.

(** The digits of upper-case hexadecimal, [0-9A-F]. *)
Definition is_upper_hex (c : N) : bool :=
  in_range 48 57 c || in_range 65 70 c.

(** A code unit is below 2^16. *)
Definition code_units (s : jsstring) : Prop :=
  Forall (fun c => (c < 65536)%N) s.

(** The Memo Codec in the words of the specification: it "encodes a
    UTF-8 string to its uppercase hexadecimal byte representation".
    This is written from these words and from the definition of UTF-8
    (RFC 3629), not from [_toHex].  The string is read as its Unicode
    scalar values: a surrogate pair is one value, and a lone surrogate,
    which has none, reads as U+FFFD.  Each value is laid out in one to
    four bytes by its range, and each byte is written as two digits of
    "0123456789ABCDEF". *)
Fixpoint scalar_values (s : jsstring) : list N :=
  match s with
  | [] => []
  | c :: rest =>
      if is_high_surrogate c then
        match rest with
        | d :: rest' =>
            if is_low_surrogate d
            then (65536 + (c - 55296) * 1024 + (d - 56320))%N
                   :: scalar_values rest'
            else 65533%N :: scalar_values rest
        | [] => [65533%N]
        end
      else if is_low_surrogate c then 65533%N :: scalar_values rest
      else c :: scalar_values rest
  end.

(** The continuation byte [10xxxxxx] that holds the [k]-th group of six
    bits of [u]. *)
Definition continuation (u : N) (k : N) : N :=
  N.lor 128 (N.land (N.shiftr u (6 * k)) 63).

(** [0xxxxxxx], [110xxxxx 10xxxxxx], [1110xxxx 10xxxxxx 10xxxxxx] or
    [11110xxx 10xxxxxx 10xxxxxx 10xxxxxx]. *)
Definition utf8_of_scalar (u : N) : list N :=
  if N.ltb u 128 then [u]
  else if N.ltb u 2048 then
    [N.lor 192 (N.shiftr u 6); continuation u 0]
  else if N.ltb u 65536 then
    [N.lor 224 (N.shiftr u 12); continuation u 1; continuation u 0]
  else
    [N.lor 240 (N.shiftr u 18); continuation u 2; continuation u 1;
     continuation u 0].

Definition upper_hex_digit (n : N) : N :=
  nth (N.to_nat n) (lit "0123456789ABCDEF") 0%N.

Definition upper_hex_of_byte (b : N) : jsstring :=
  [upper_hex_digit (N.shiftr b 4); upper_hex_digit (N.land b 15)].

Definition uppercase_hex_of_utf8 (s : jsstring) : jsstring :=
  flat_map upper_hex_of_byte (flat_map utf8_of_scalar (scalar_values s)).

(** [Signer.Account] of an entry of [Signers]. *)
Definition entry_account (entry : jsval) : option jsval :=
  match entry with
  | JObj o =>
      match obj_get o (lit "Signer") with
      | Some (JObj signer) => obj_get signer (lit "Account")
      | _ => None
      end
  | _ => None
  end.

(* ================================================================= *)
(** * A sample ledger, for running the service *)
(* ================================================================= *)

Definition sample_source : jsstring := lit "rN7n7otQDd6FczFgLdSqtcsAUxDkw6fzRH".
Definition sample_destination : jsstring := lit "rf1BiGeXwwQoi8Z2ueFYTEXSwuJYfV2Jpn".
Definition sample_malformed : jsstring := lit "not-an-address".

(** Autofill as the comment in the service describes it: it adds [Fee],
    [Sequence] and [LastLedgerSequence]. *)
Definition sample_autofill (tx : jsobj) : jsobj :=
  obj_set (obj_set (obj_set tx (lit "Fee") (JStr (lit "12")))
                   (lit "Sequence") (JNum 7))
          (lit "LastLedgerSequence") (JNum 100).

Definition sample_rejection : SubmitResponse :=
  {| engine_result := lit "tecNO_PERMISSION";
     engine_result_message := lit "No permission to perform requested operation.";
     tx_json_hash := JStr (lit "E3FE6EA3D48F0C2B");
     validated := None |}.

Definition sample_entryNotFound : JsError :=
  {| message := lit "Entry not found.";
     data_error := Some (lit "entryNotFound") |}.

Definition sample_signer_list : jsval :=
  JObj [ (lit "SignerQuorum", JNum 2);
         (lit "SignerEntries", JArr []) ].

(** A reachable ledger on which the account has the signer lists [sl],
    no escrow is found and submissions are rejected by the engine. *)
Definition sample_lib (sl : option (list jsval)) : XrplLib :=
  {| xrpl_isValidAddress := fun a =>
       match a with
       | Some s => xrplAddress_pattern s
       | None => false
       end;
     xrpl_encode := fun _ => inr (lit "1200002280000000");
     client_connect := fun _ => None;
     client_server_info := None;
     client_account_info := fun _ => inr {| signer_lists := sl |};
     client_ledger_entry := fun _ _ => inl sample_entryNotFound;
     client_tx := fun _ => inr [];
     client_autofill := fun tx => inr (sample_autofill tx);
     client_submit := fun _ => inr sample_rejection |}.

(** The same library when the server cannot be reached. *)
Definition unreachable_lib : XrplLib :=
  {| xrpl_isValidAddress := xrpl_isValidAddress (sample_lib None);
     xrpl_encode := xrpl_encode (sample_lib None);
     client_connect := fun _ => Some (Error (lit "connect ETIMEDOUT"));
     client_server_info := None;
     client_account_info := client_account_info (sample_lib None);
     client_ledger_entry := client_ledger_entry (sample_lib None);
     client_tx := client_tx (sample_lib None);
     client_autofill := client_autofill (sample_lib None);
     client_submit := client_submit (sample_lib None) |}.

Definition sample_env : ProcessEnv :=
  {| XRPL_NETWORK := None; XRPL_SERVER_URL := None |}.

(** The service before its first call, and once it is connected. *)
Definition fresh : ServiceState := {| client := None; trace := [] |}.
Definition connected : ServiceState := {| client := Some true; trace := [] |}.

Definition sample_create (finishAfter cancelAfter : option Z)
  (memo : option Memo.t) : CreateParams.t :=
  {| CreateParams.sourceAddress := Some sample_source;
     CreateParams.destinationAddress := Some sample_destination;
     CreateParams.amount := Some (Drops (lit "1000000"));
     CreateParams.finishAfter := finishAfter;
     CreateParams.cancelAfter := cancelAfter;
     CreateParams.condition := None;
     CreateParams.memo := memo |}.

(** A create request whose source address is malformed. *)
Definition sample_create_malformed : CreateParams.t :=
  {| CreateParams.sourceAddress := Some sample_malformed;
     CreateParams.destinationAddress := Some sample_destination;
     CreateParams.amount := Some (Drops (lit "1000000"));
     CreateParams.finishAfter := Some 2000000000%Z;
     CreateParams.cancelAfter := None;
     CreateParams.condition := None;
     CreateParams.memo := None |}.

(** The state [initialize] leaves after it connected [fresh]. *)
Definition just_connected : ServiceState :=
  {| client := Some true;
     trace := [ EvConnect (lit "wss://s.altnet.rippletest.net:51233");
                EvRequest ReqServerInfo ] |}.

(** A prepared payment-like descriptor that already names a signing key. *)
Definition sample_transaction : jsobj :=
  [ (lit "TransactionType", JStr (lit "EscrowFinish"));
    (lit "Account", JStr sample_destination);
    (lit "SigningPubKey", JStr (lit "ED5F5AC8B98974A3CA843326D9B88CEBD0560177B973EE0B149F782CFAA06DC66A"));
    (lit "Sequence", JNum 7) ].

(** The answer of [validateRequest] when the schema reports [errs]. *)
Definition validation_failed (A : Type) (errs : list Detail) : Response A :=
  {| http_status := 400;
     success := false;
     data := None;
     error := Some (lit "Validation failed");
     details := Some (map (fun d => {| field := path_join (path d);
                                       rule := code d |}) errs) |}.

Definition sample_finish : FinishParams.t :=
  {| FinishParams.finisherAddress := Some sample_destination;
     FinishParams.ownerAddress := Some sample_source;
     FinishParams.offerSequence := Some 7%Z;
     FinishParams.fulfillment := None |}.

Definition sample_signature (signer : jsstring) : Signature.t :=
  {| Signature.signer := Some signer;
     Signature.signature := Some (lit "3045022100");
     Signature.publicKey := None |}.

(* ================================================================= *)
(** * Vocabulary for the further properties *)
(* ================================================================= *)

(** The property names of an object, in order. *)
Definition keys (o : jsobj) : list jsstring := map fst o.

(** The kinds of call an operation can make. *)
Definition is_autofill (ev : Event) : bool :=
  match ev with EvAutofill _ => true | _ => false end.

Definition is_account_query (ev : Event) : bool :=
  match ev with EvRequest (ReqAccountInfo _) => true | _ => false end.

Definition is_ledger_read (ev : Event) : bool :=
  match ev with
  | EvRequest (ReqLedgerEntry _ _) => true
  | EvRequest (ReqTx _) => true
  | _ => false
  end.

Definition is_submission (ev : Event) : bool :=
  match ev with
  | EvEncode _ => true
  | EvSubmit _ => true
  | _ => false
  end.

(** The network [getXRPLClient] looks up in [NETWORKS] when
    [XRPL_SERVER_URL] is not set. *)
Definition network_name (env : ProcessEnv) : jsstring :=
  str_or (XRPL_NETWORK env) (lit "testnet").

(** A string of ASCII characters. *)
Definition ascii_string (s : jsstring) : Prop :=
  Forall (fun c => (c < 128)%N) s.


(** No name occurs twice in a list of property names. *)
Fixpoint distinct (l : list jsstring) : bool :=
  match l with
  | [] => true
  | k :: l' => negb (existsb (jsstring_eqb k) l') && distinct l'
  end.

(** The eight properties [prepareEscrowCreate] can give a descriptor. *)
Definition create_fields : list jsstring :=
  [ lit "TransactionType"; lit "Account"; lit "Destination"; lit "Amount";
    lit "FinishAfter"; lit "CancelAfter"; lit "Condition"; lit "Memos" ].

(** The [Memos] array built for a memo object. *)
Definition memos_value (memo : Memo.t) : jsval :=
  JArr [ JObj [ (lit "Memo",
    JObj [ (lit "MemoType",
              JStr (_toHex (str_or (Memo.type memo) (lit "escrow"))));
           (lit "MemoData", JStr (_toHex (str_or (Memo.data memo) []))) ]) ] ].


(** The safe integers, [Number.MIN_SAFE_INTEGER] to
    [Number.MAX_SAFE_INTEGER]: the numbers [Joi.number()] lets through. *)
Definition safe_integer (z : Z) : Prop :=
  (- 9007199254740991 <= z <= 9007199254740991)%Z.

(** What the schemas ask of an address and of an optional string. *)
Definition matches_address (a : option jsstring) : Prop :=
  exists s, a = Some s /\ xrplAddress_pattern s = true.

Definition absent_or_filled (x : option jsstring) : Prop := x <> Some [].

(** The amounts [escrowCreateSchema] accepts. *)
Definition accepted_amount (a : option AmountParam) : Prop :=
  (exists s, a = Some (Drops s) /\ digits_pattern s = true) \/
  (exists c v i,
     a = Some (Issued (Some c) (Some v) (Some i)) /\
     List.length c = 3%nat /\ v <> [] /\ xrplAddress_pattern i = true).

(** A string with no lone surrogate, every code unit below 2^16. *)
Fixpoint well_formed (s : jsstring) : bool :=
  match s with
  | [] => true
  | c :: rest =>
      if is_high_surrogate c then
        match rest with
        | d :: rest' => is_low_surrogate d && well_formed rest'
        | [] => false
        end
      else negb (is_low_surrogate c) && N.ltb c 65536 && well_formed rest
  end.

(** The inverses of the two steps of [_toHex], used to show that it
    loses nothing: upper-case hexadecimal back to bytes, and UTF-8 bytes
    back to UTF-16 code units. *)
Definition hex_value (c : N) : N :=
  if N.leb c 57 then (c - 48)%N else (c - 55)%N.

Fixpoint hex_decode (s : jsstring) : list N :=
  match s with
  | hi :: lo :: s' => (16 * hex_value hi + hex_value lo)%N :: hex_decode s'
  | _ => []
  end.

Fixpoint utf8_decode (bs : list N) : jsstring :=
  match bs with
  | [] => []
  | b0 :: r0 =>
      if N.ltb b0 128 then b0 :: utf8_decode r0
      else if N.ltb b0 224 then
        match r0 with
        | b1 :: r1 => ((b0 - 192) * 64 + (b1 - 128))%N :: utf8_decode r1
        | _ => []
        end
      else if N.ltb b0 240 then
        match r0 with
        | b1 :: b2 :: r2 =>
            ((b0 - 224) * 4096 + (b1 - 128) * 64 + (b2 - 128))%N
              :: utf8_decode r2
        | _ => []
        end
      else
        match r0 with
        | b1 :: b2 :: b3 :: r3 =>
            let v := ((b0 - 240) * 262144 + (b1 - 128) * 4096
                      + (b2 - 128) * 64 + (b3 - 128) - 65536)%N in
            (55296 + v / 1024)%N :: (56320 + v mod 1024)%N :: utf8_decode r3
        | _ => []
        end
  end.

(* ================================================================= *)
(** * Test wallets and disconnection *)
(* ================================================================= *)

(** [createTestWallet] of config/xrpl.config and [disconnect] of the
    service make calls of two more kinds; they are kept in a list of
    their own, beside the state of the service. *)

Module Wallet.
Record t : Type := mk {
  address : jsstring;
  seed : jsstring;
  publicKey : jsstring;
  privateKey : jsstring
}.
End Wallet.

Inductive LifecycleEvent : Type :=
| LvFundWallet (wallet : Wallet.t)
| LvDisconnect.

(** [xrpl.Wallet.generate()] (the wallet it draws), [client.fundWallet]
    and [client.disconnect]. *)
Record WalletLib : Type := {
  Wallet_generate : Wallet.t;
  client_fundWallet : Wallet.t -> option JsError;
  client_disconnect : option JsError
}.

Record Process : Type := {
  service : ServiceState;
  lifecycle : list LifecycleEvent
}.

Section Lifecycle.

Variable X : XrplLib.
Variable W : WalletLib.
Variable env : ProcessEnv.

(** [createTestWallet()] *)
Definition createTestWallet (ps : Process)
  : (JsError + Wallet.t) * Process :=
  let network := str_or (XRPL_NETWORK env) (lit "testnet") in
  if jsstring_eqb network (lit "mainnet")
  then (inl (Error (lit "Cannot create test wallets on mainnet")), ps)
  else
    match getXRPLClient X env (service ps) with
    | (inl e, st') => (inl e, {| service := st'; lifecycle := lifecycle ps |})
    | (inr _, st') =>
        let wallet := Wallet_generate W in
        let funding := lifecycle ps ++ [LvFundWallet wallet] in
        match client_fundWallet W wallet with
        | Some error => (inl error, {| service := st'; lifecycle := funding |})
        | None =>
            let closing := funding ++ [LvDisconnect] in
            match client_disconnect W with
            | Some error =>
                (inl error, {| service := st'; lifecycle := closing |})
            | None =>
                (inr {| Wallet.address := Wallet.address wallet;
                        Wallet.seed := Wallet.seed wallet;
                        Wallet.publicKey := Wallet.publicKey wallet;
                        Wallet.privateKey := Wallet.privateKey wallet |},
                 {| service := st'; lifecycle := closing |})
            end
        end
    end.

(** [disconnect()] of the service; once [client.disconnect()] has
    resolved, [this.client.isConnected()] is false. *)
Definition disconnect (ps : Process) : (JsError + unit) * Process :=
  match client (service ps) with
  | Some true =>
      let closing := lifecycle ps ++ [LvDisconnect] in
      match client_disconnect W with
      | Some error =>
          (inl error, {| service := service ps; lifecycle := closing |})
      | None =>
          (inr tt,
           {| service := {| client := Some false;
                            trace := trace (service ps) |};
              lifecycle := closing |})
      end
  | _ => (inr tt, ps)
  end.

End Lifecycle.

(* ================================================================= *)
(** * server.js *)
(* ================================================================= *)

(** The self-contained server: its own client manager, and handlers
    that do inline what the router leaves to the service.  Its schemas,
    [validateRequest], [toRippleTime], [fromRippleTime] and [toHex] are
    the ones above, statement for statement, and so are the statements
    that build [escrowTx], [finishTx] and [cancelTx]. *)

Module ServerPrepared.
Record t : Type := mk {
  transaction : jsobj;
  instructions : Instructions.t
}.
End ServerPrepared.

Module ServerFinish.
Record t : Type := mk {
  transaction : jsobj;
  (* [None]: [undefined] *)
  requiresMultisig : option bool;
  (* [None]: the property is not there *)
  signerList : option jsval;
  instructions : Instructions.t
}.
End ServerFinish.

Module Server.

Definition XRPL_NETWORKS : list (jsstring * jsstring) :=
  [ (lit "testnet", lit "wss://s.altnet.rippletest.net:51233");
    (lit "mainnet", lit "wss://xrplcluster.com");
    (lit "devnet", lit "wss://s.devnet.rippletest.net:51233") ].

Section Handlers.

Variable X : XrplLib.
Variable env : ProcessEnv.
Variable loadTime : Z.

(** [new xrpl.Client(server, ...)]: the URL the new client will connect
    to, or what the constructor throws. *)
Variable new_Client : option jsstring -> JsError + jsstring.

Definition NETWORK : jsstring := str_or (XRPL_NETWORK env) (lit "testnet").

Definition XRPL_SERVER : option jsstring :=
  if truthy_str (XRPL_SERVER_URL env) then XRPL_SERVER_URL env
  else networks_get XRPL_NETWORKS NETWORK.

(** [getXRPLClient()]: [xrplClient] is assigned before [connect] is
    awaited. *)
Definition getXRPLClient : M unit :=
  fun st =>
    match client st with
    | Some true => ret tt st
    | _ =>
        match new_Client XRPL_SERVER with
        | inl e => throw e st
        | inr url =>
            (set_client (Some false) ;;
             call_void (EvConnect url) (client_connect X url) ;;
             set_client (Some true)) st
        end
    end.

(** The handler of [POST /api/escrow/create]. *)
Definition create (body : CreateParams.t) : M ServerPrepared.t :=
  getXRPLClient ;;
  let escrowTx := escrowCreateTx body in
  prepared <- call (EvAutofill escrowTx) (client_autofill X escrowTx) ;;
  ret {| ServerPrepared.transaction := prepared;
         ServerPrepared.instructions :=
           {| Instructions.message :=
                lit "Transaction prepared. Sign and submit via /api/escrow/submit";
              Instructions.signingRequired := true;
              Instructions.multisigRequired := None |} |}.

(** [signerList && signerList.length > 0] *)
Definition isMultisig (signerList : option (list jsval)) : option bool :=
  match signerList with
  | None => None
  | Some [] => Some false
  | Some (_ :: _) => Some true
  end.

(** The handler of [POST /api/escrow/finish]. *)
Definition finish (body : FinishParams.t) : M ServerFinish.t :=
  getXRPLClient ;;
  let finishTx := escrowFinishTx body in
  accountInfo <- call (EvRequest (ReqAccountInfo
                                    (FinishParams.finisherAddress body)))
                      (client_account_info X
                         (FinishParams.finisherAddress body)) ;;
  let signerList := signer_lists accountInfo in
  prepared <- call (EvAutofill finishTx) (client_autofill X finishTx) ;;
  ret {| ServerFinish.transaction := prepared;
         ServerFinish.requiresMultisig := isMultisig signerList;
         ServerFinish.signerList :=
           match signerList with
           | Some (first :: _) => Some first
           | _ => None
           end;
         ServerFinish.instructions :=
           {| Instructions.message :=
                match isMultisig signerList with
                | Some true =>
                    lit "Multisig required. Collect signatures and submit via /api/escrow/submit-multisig"
                | _ => lit "Sign and submit via /api/escrow/submit"
                end;
              Instructions.signingRequired := true;
              Instructions.multisigRequired := isMultisig signerList |} |}.

(** The handler of [POST /api/escrow/cancel]. *)
Definition cancel (body : CancelParams.t) : M ServerPrepared.t :=
  getXRPLClient ;;
  let cancelTx := escrowCancelTx body in
  prepared <- call (EvAutofill cancelTx) (client_autofill X cancelTx) ;;
  ret {| ServerPrepared.transaction := prepared;
         ServerPrepared.instructions :=
           {| Instructions.message := lit "Sign and submit via /api/escrow/submit";
              Instructions.signingRequired := true;
              Instructions.multisigRequired := None |} |}.

(** The handler of [POST /api/escrow/submit-multisig]. *)
Definition submit_multisig (body : MultisigParams.t)
  : M MultisigSubmitted.t :=
  getXRPLClient ;;
  match MultisigParams.signatures body with
  | None =>
      throw (Error (lit "Cannot read properties of undefined (reading 'map')"))
  | Some signatures =>
      let signers := map signer_entry signatures in
      let multisignedTx :=
        multisigned (MultisigParams.transaction body) signers in
      encoded <- call (EvEncode multisignedTx) (xrpl_encode X multisignedTx) ;;
      result <- call (EvSubmit encoded) (client_submit X encoded) ;;
      ret {| MultisigSubmitted.success :=
               jsstring_eqb (engine_result result) (lit "tesSUCCESS");
             MultisigSubmitted.txHash := tx_json_hash result;
             MultisigSubmitted.resultCode := engine_result result;
             MultisigSubmitted.resultMessage := engine_result_message result;
             MultisigSubmitted.signerCount :=
               Z.of_nat (List.length signatures);
             MultisigSubmitted.signers :=
               map (fun s => of_opt_str (Signature.signer s)) signatures;
             MultisigSubmitted.validated :=
               bool_or_false (validated result) |}
  end.

(** The four routes with a body. *)
Definition post_create : Handler CreateParams.t ServerPrepared.t :=
  validateRequest (escrowCreateSchema loadTime) (respond create).

Definition post_finish : Handler FinishParams.t ServerFinish.t :=
  validateRequest escrowFinishSchema (respond finish).

Definition post_cancel : Handler CancelParams.t ServerPrepared.t :=
  validateRequest escrowCancelSchema (respond cancel).

Definition post_submit_multisig
  : Handler MultisigParams.t MultisigSubmitted.t :=
  validateRequest multisigSubmitSchema (respond submit_multisig).

End Handlers.

End Server.

(** A constructor that accepts the URLs of the three networks. *)
Definition sample_new_Client (server : option jsstring)
  : JsError + jsstring :=
  match server with
  | Some (c :: url) => inr (c :: url)
  | _ => inl (Error (lit "server URI must start with `wss://`, `ws://`, `wss+unix://`, or `ws+unix://`."))
  end.

Definition sample_wallet : Wallet.t :=
  {| Wallet.address := sample_source;
     Wallet.seed := lit "sEdTM1uX8pu2do5XvTnutH6HsouMaM2";
     Wallet.publicKey := lit "ED5F5AC8B98974A3CA843326D9B88CEBD0560177B973EE0B149F782CFAA06DC66A";
     Wallet.privateKey := lit "EDB4C4E046826BD26190D09715FC31F4E6A728204EADD112905B08B14B7F15C4F3" |}.

(** Funding answers [funding]; disconnecting always resolves. *)
Definition sample_wallet_lib (funding : option JsError) : WalletLib :=
  {| Wallet_generate := sample_wallet;
     client_fundWallet := fun _ => funding;
     client_disconnect := None |}.


(** An escrow entry of the sample ledger, with a destination tag 0. *)
Definition sample_node (cancelAfter : option Z) : EscrowNode :=
  {| Account := JStr sample_source;
     Destination := JStr sample_destination;
     Amount := JStr (lit "1000000");
     FinishAfter := Some 1053315200%Z;
     CancelAfter := cancelAfter;
     Condition := None;
     SourceTag := None;
     DestinationTag := Some 0%Z;
     PreviousTxnID := JStr (lit "E3FE6EA3D48F0C2B") |}.

(** The sample ledger when it holds the escrow [node] and knows the
    transaction [tx]. *)
Definition sample_lib_with (node : EscrowNode) (tx : JsError + jsobj)
  : XrplLib :=
  {| xrpl_isValidAddress := xrpl_isValidAddress (sample_lib None);
     xrpl_encode := xrpl_encode (sample_lib None);
     client_connect := client_connect (sample_lib None);
     client_server_info := client_server_info (sample_lib None);
     client_account_info := client_account_info (sample_lib None);
     client_ledger_entry := fun _ _ => inr node;
     client_tx := fun _ => tx;
     client_autofill := client_autofill (sample_lib None);
     client_submit := client_submit (sample_lib None) |}.

(* ================================================================= *)
(** * Properties *)
(* ================================================================= *)

Arguments lit : simpl never.

(** ** Strings and objects *)

Lemma jsstring_eqb_eq (a b : jsstring) : jsstring_eqb a b = true <-> a = b.
Proof.
  revert b; induction a as [|x a IH]; intros [|y b]; simpl; split;
    try congruence; try reflexivity.
  - intros H. apply andb_true_iff in H as [Hx Hab].
    apply N.eqb_eq in Hx. apply IH in Hab. congruence.
  - intros H. injection H as -> ->. rewrite N.eqb_refl. now apply IH.
Qed.

Lemma jsstring_eqb_refl (a : jsstring) : jsstring_eqb a a = true.
Proof. now apply jsstring_eqb_eq. Qed.

Lemma jsstring_eqb_neq (a b : jsstring) : jsstring_eqb a b = false <-> a <> b.
Proof.
  rewrite <- jsstring_eqb_eq. destruct (jsstring_eqb a b); split; congruence.
Qed.

Lemma obj_get_set_same (o : jsobj) (k : jsstring) (v : jsval) :
  obj_get (obj_set o k v) k = Some v.
Proof.
  induction o as [|[k' v'] o IH]; simpl.
  - now rewrite jsstring_eqb_refl.
  - destruct (jsstring_eqb k' k) eqn:E; simpl.
    + now rewrite jsstring_eqb_refl.
    + now rewrite E.
Qed.

Lemma obj_get_set_other (o : jsobj) (k k' : jsstring) (v : jsval) :
  k <> k' -> obj_get (obj_set o k v) k' = obj_get o k'.
Proof.
  intros Hk. induction o as [|[k0 v0] o IH]; simpl.
  - apply jsstring_eqb_neq in Hk. now rewrite Hk.
  - destruct (jsstring_eqb k0 k) eqn:E; simpl.
    + apply jsstring_eqb_eq in E. subst k0.
      apply jsstring_eqb_neq in Hk. now rewrite Hk.
    + destruct (jsstring_eqb k0 k'); [reflexivity | exact IH].
Qed.

Lemma str_or_cases (x : option jsstring) (d : jsstring) :
  (x = None /\ str_or x d = d) \/
  (x = Some [] /\ str_or x d = d) \/
  (exists s, x = Some s /\ s <> [] /\ str_or x d = s).
Proof.
  destruct x as [[|c s]|]; simpl; auto.
  right; right. exists (c :: s). repeat split; congruence.
Qed.

(** ** Numbers *)

(** Every integer up to 2^53 in absolute value is a double. *)
Lemma to_double_exact (z : Z) :
  (Z.abs z <= 9007199254740992)%Z -> to_double z = z.
Proof.
  intros H. unfold to_double.
  destruct (Z.eq_dec (Z.abs z) 9007199254740992) as [E|E].
  - rewrite E. cbn.
    destruct z; cbn in E; try discriminate; injection E as ->; reflexivity.
  - assert (Hlog : (Z.log2 (Z.abs z) - 52 <= 0)%Z).
    { destruct (Z.eq_dec (Z.abs z) 0) as [E0|E0].
      - rewrite E0. cbn. lia.
      - assert (Z.log2 (Z.abs z) < 53)%Z; [|lia].
        apply Z.log2_lt_pow2; [lia|].
        change (2 ^ 53)%Z with 9007199254740992%Z. lia. }
    rewrite Z.max_l by lia.
    rewrite Z.shiftr_0_r, Z.shiftl_0_r, Z.sub_diag.
    change (Z.shiftl 1 (0 - 1)) with 0%Z. change (0 <? 0)%Z with false.
    rewrite andb_false_r, orb_false_r. cbv iota.
    destruct z; reflexivity.
Qed.

Example to_double_rounds :
  map to_double [9007199254740992; 9007199254740993; 9007199254740995;
                 -9007200201425791; 36028797018963971]%Z
  = [9007199254740992; 9007199254740992; 9007199254740996;
     -9007200201425792; 36028797018963968]%Z.
Proof. vm_compute. reflexivity. Qed.

Lemma toRippleTime_exact (t : Z) :
  (Z.abs (t - 946684800) <= 9007199254740992)%Z ->
  _toRippleTime t = (t - 946684800)%Z.
Proof. intros H. unfold _toRippleTime. now apply to_double_exact. Qed.

Lemma fromRippleTime_exact (r : Z) :
  (Z.abs (r + 946684800) <= 9007199254740992)%Z ->
  _fromRippleTime r = (r + 946684800)%Z.
Proof. intros H. unfold _fromRippleTime. now apply to_double_exact. Qed.

(** ** The memo codec *)

Lemma utf8_encode_nonempty (s : jsstring) : s <> [] -> utf8_encode s <> [].
Proof.
  destruct s as [|c rest]; [congruence|]. intros _.
  cbn [utf8_encode]. unfold utf8_2, utf8_3, utf8_4, replacement.
  destruct (N.ltb c 128); [discriminate|].
  destruct (N.ltb c 2048); [discriminate|].
  destruct (is_high_surrogate c).
  - destruct rest as [|d rest']; [discriminate|].
    destruct (is_low_surrogate d); discriminate.
  - destruct (is_low_surrogate c); discriminate.
Qed.

Lemma toHex_nonempty (s : jsstring) : s <> [] -> _toHex s <> [].
Proof.
  intros Hs. apply utf8_encode_nonempty in Hs. unfold _toHex.
  destruct (utf8_encode s) as [|b bs]; [congruence|]. discriminate.
Qed.

Local Open Scope N_scope.

Lemma utf8_2_bytes (c : N) :
  c < 2048 -> Forall (fun b => b < 256) (utf8_2 c).
Proof.
  intros Hc. unfold utf8_2.
  assert (c / 64 < 32) by (apply N.Div0.div_lt_upper_bound; lia).
  assert (c mod 64 < 64) by (apply N.mod_lt; lia).
  repeat constructor; lia.
Qed.

Lemma utf8_3_bytes (c : N) :
  c < 65536 -> Forall (fun b => b < 256) (utf8_3 c).
Proof.
  intros Hc. unfold utf8_3.
  assert (c / 4096 < 16) by (apply N.Div0.div_lt_upper_bound; lia).
  assert ((c / 64) mod 64 < 64) by (apply N.mod_lt; lia).
  assert (c mod 64 < 64) by (apply N.mod_lt; lia).
  repeat constructor; lia.
Qed.

Lemma utf8_4_bytes (c : N) :
  c < 1114112 -> Forall (fun b => b < 256) (utf8_4 c).
Proof.
  intros Hc. unfold utf8_4.
  assert (c / 262144 < 5) by (apply N.Div0.div_lt_upper_bound; lia).
  assert ((c / 4096) mod 64 < 64) by (apply N.mod_lt; lia).
  assert ((c / 64) mod 64 < 64) by (apply N.mod_lt; lia).
  assert (c mod 64 < 64) by (apply N.mod_lt; lia).
  repeat constructor; lia.
Qed.

(** [utf8_encode] produces bytes. *)
Lemma utf8_encode_bytes (s : jsstring) :
  code_units s -> Forall (fun b => b < 256) (utf8_encode s).
Proof.
  unfold code_units.
  remember (List.length s) as n eqn:Hn.
  assert (Hle : (List.length s <= n)%nat) by lia. clear Hn.
  revert s Hle. induction n as [|n IH]; intros s Hle Hs.
  - destruct s; [constructor | simpl in Hle; lia].
  - destruct s as [|c rest]; [constructor|].
    simpl in Hle. inversion Hs as [|? ? Hc Hrest]; subst.
    assert (IHrest : Forall (fun b => b < 256) (utf8_encode rest))
      by (apply IH; [lia | exact Hrest]).
    cbn [utf8_encode].
    destruct (N.ltb_spec c 128).
    { constructor; [lia | exact IHrest]. }
    destruct (N.ltb_spec c 2048).
    { apply Forall_app. split; [now apply utf8_2_bytes | exact IHrest]. }
    destruct (is_high_surrogate c) eqn:Hhigh.
    + destruct rest as [|d rest'].
      { unfold replacement. repeat constructor; lia. }
      destruct (is_low_surrogate d) eqn:Hlow.
      * apply Forall_app. split.
        -- apply utf8_4_bytes.
           unfold is_high_surrogate in Hhigh. unfold is_low_surrogate in Hlow.
           apply andb_true_iff in Hhigh as [H1 H2].
           apply andb_true_iff in Hlow as [H3 H4].
           apply N.leb_le in H1, H2, H3, H4. lia.
        -- inversion Hrest; subst. apply IH; [simpl in Hle; lia | assumption].
      * apply Forall_app. split; [|exact IHrest].
        unfold replacement. repeat constructor; lia.
    + destruct (is_low_surrogate c).
      * apply Forall_app. split; [|exact IHrest].
        unfold replacement. repeat constructor; lia.
      * apply Forall_app. split; [now apply utf8_3_bytes | exact IHrest].
Qed.

Lemma hex_digit_upper (n : N) :
  n < 16 ->
  is_upper_hex
    (let c := hex_digit n in if (97 <=? c) && (c <=? 122) then c - 32 else c)
  = true.
Proof.
  intros Hn. unfold hex_digit, is_upper_hex, in_range. cbv zeta.
  destruct (N.ltb_spec n 10);
    repeat (match goal with
            | |- context [N.leb ?a ?b] =>
                lazymatch b with
                | context [if _ then _ else _] => fail
                | _ => destruct (N.leb_spec a b)
                end
            end; cbn [andb orb]);
    try reflexivity; exfalso; lia.
Qed.

(** [_toHex] writes upper-case hexadecimal, two digits for each byte of
    the UTF-8 encoding. *)
Lemma toHex_alphabet (s : jsstring) :
  code_units s -> forallb is_upper_hex (_toHex s) = true.
Proof.
  intros Hs. apply utf8_encode_bytes in Hs.
  unfold _toHex, toUpperCase, hex_of_bytes.
  induction Hs as [|b bs Hb Hbs IH]; [reflexivity|].
  cbn [flat_map app map forallb]. rewrite IH.
  assert (Hhi : b / 16 < 16) by (apply N.Div0.div_lt_upper_bound; lia).
  assert (Hlo : b mod 16 < 16) by (apply N.mod_lt; lia).
  apply hex_digit_upper in Hhi, Hlo. cbv zeta in Hhi, Hlo.
  rewrite Hhi, Hlo. reflexivity.
Qed.

(** The bits of a byte's prefix and of its payload do not meet. *)
Lemma lor_high_bits (a x : N) (k : N) :
  x < 2 ^ k -> N.land a (N.ones k) = 0 -> N.lor a x = a + x.
Proof.
  intros Hx Ha.
  assert (Hland : N.land a x = 0).
  { apply N.bits_inj. intros i. rewrite N.land_spec, N.bits_0.
    destruct (N.ltb_spec i k) as [Hi|Hi].
    - assert (E : N.testbit (N.land a (N.ones k)) i = false)
        by (rewrite Ha; apply N.bits_0).
      rewrite N.land_spec, N.ones_spec_low in E by assumption.
      rewrite andb_true_r in E. now rewrite E.
    - assert (E : N.testbit x i = false).
      { destruct (N.eq_dec x 0) as [->|Hx0]; [apply N.bits_0|].
        apply N.bits_above_log2.
        apply N.lt_le_trans with k; [|assumption].
        apply N.log2_lt_pow2; [lia | assumption]. }
      rewrite E. apply andb_false_r. }
  rewrite <- N.lxor_lor by assumption.
  symmetry. now apply N.add_nocarry_lxor.
Qed.

Lemma continuation_0 (u : N) : continuation u 0 = 128 + u mod 64.
Proof.
  unfold continuation. change (6 * 0) with 0. rewrite N.shiftr_0_r.
  change 63 with (N.ones 6). rewrite N.land_ones.
  apply (@lor_high_bits 128 (u mod 2 ^ 6) 7); [|reflexivity].
  assert (u mod 2 ^ 6 < 2 ^ 6) by (apply N.mod_lt; discriminate).
  change (2 ^ 6) with 64 in *. change (2 ^ 7) with 128. lia.
Qed.

Lemma continuation_1 (u : N) : continuation u 1 = 128 + (u / 64) mod 64.
Proof.
  unfold continuation. change (6 * 1) with 6. rewrite N.shiftr_div_pow2.
  change 63 with (N.ones 6). rewrite N.land_ones.
  change (2 ^ 6) with 64.
  apply (@lor_high_bits 128 ((u / 64) mod 64) 7); [|reflexivity].
  assert ((u / 64) mod 64 < 64) by (apply N.mod_lt; discriminate).
  change (2 ^ 7) with 128. lia.
Qed.

Lemma continuation_2 (u : N) : continuation u 2 = 128 + (u / 4096) mod 64.
Proof.
  unfold continuation. change (6 * 2) with 12. rewrite N.shiftr_div_pow2.
  change 63 with (N.ones 6). rewrite N.land_ones.
  change (2 ^ 6) with 64. change (2 ^ 12) with 4096.
  apply (@lor_high_bits 128 ((u / 4096) mod 64) 7); [|reflexivity].
  assert ((u / 4096) mod 64 < 64) by (apply N.mod_lt; discriminate).
  change (2 ^ 7) with 128. lia.
Qed.

Lemma utf8_of_scalar_2 (u : N) :
  128 <= u -> u < 2048 -> utf8_of_scalar u = utf8_2 u.
Proof.
  intros Hlo Hhi. unfold utf8_of_scalar, utf8_2.
  destruct (N.ltb_spec u 128); [lia|].
  destruct (N.ltb_spec u 2048); [|lia].
  rewrite continuation_0, N.shiftr_div_pow2. change (2 ^ 6) with 64.
  f_equal. apply (@lor_high_bits 192 (u / 64) 6); [|reflexivity].
  change (2 ^ 6) with 64. apply N.Div0.div_lt_upper_bound. lia.
Qed.

Lemma utf8_of_scalar_3 (u : N) :
  2048 <= u -> u < 65536 -> utf8_of_scalar u = utf8_3 u.
Proof.
  intros Hlo Hhi. unfold utf8_of_scalar, utf8_3.
  destruct (N.ltb_spec u 128); [lia|].
  destruct (N.ltb_spec u 2048); [lia|].
  destruct (N.ltb_spec u 65536); [|lia].
  rewrite continuation_0, continuation_1, N.shiftr_div_pow2.
  change (2 ^ 12) with 4096.
  f_equal. apply (@lor_high_bits 224 (u / 4096) 5); [|reflexivity].
  change (2 ^ 5) with 32.
  assert (u / 4096 < 16) by (apply N.Div0.div_lt_upper_bound; lia). lia.
Qed.

Lemma utf8_of_scalar_4 (u : N) :
  65536 <= u -> u < 1114112 -> utf8_of_scalar u = utf8_4 u.
Proof.
  intros Hlo Hhi. unfold utf8_of_scalar, utf8_4.
  destruct (N.ltb_spec u 128); [lia|].
  destruct (N.ltb_spec u 2048); [lia|].
  destruct (N.ltb_spec u 65536); [lia|].
  rewrite continuation_0, continuation_1, continuation_2, N.shiftr_div_pow2.
  change (2 ^ 18) with 262144.
  f_equal. apply (@lor_high_bits 240 (u / 262144) 4); [|reflexivity].
  change (2 ^ 4) with 16.
  assert (u / 262144 < 5) by (apply N.Div0.div_lt_upper_bound; lia). lia.
Qed.

Lemma surrogate_bounds (c : N) :
  (is_high_surrogate c = true <-> 55296 <= c <= 56319) /\
  (is_low_surrogate c = true <-> 56320 <= c <= 57343).
Proof.
  unfold is_high_surrogate, is_low_surrogate.
  rewrite !andb_true_iff, !N.leb_le. tauto.
Qed.

(** [Buffer.from(str, 'utf8')] is the UTF-8 of the scalar values. *)
Lemma utf8_encode_scalar_values (s : jsstring) :
  code_units s ->
  utf8_encode s = flat_map utf8_of_scalar (scalar_values s).
Proof.
  unfold code_units.
  assert (Hall : forall n s, (List.length s <= n)%nat ->
            Forall (fun c => c < 65536) s ->
            utf8_encode s = flat_map utf8_of_scalar (scalar_values s)).
  { induction n as [|n IH]; intros s' Hle Hs.
    - destruct s'; [reflexivity | simpl in Hle; lia].
    - destruct s' as [|c rest]; [reflexivity|].
      simpl in Hle. inversion Hs as [|? ? Hc Hrest]; subst.
      assert (IHrest : utf8_encode rest
                       = flat_map utf8_of_scalar (scalar_values rest))
        by (apply IH; [lia | exact Hrest]).
      destruct (surrogate_bounds c) as [Hhigh Hlow].
      cbn [utf8_encode scalar_values].
      destruct (N.ltb_spec c 128) as [H128|H128].
      { destruct (is_high_surrogate c); [lia|].
        destruct (is_low_surrogate c); [lia|].
        cbn [flat_map]. rewrite <- IHrest. unfold utf8_of_scalar.
        destruct (N.ltb_spec c 128); [reflexivity | lia]. }
      destruct (N.ltb_spec c 2048) as [H2048|H2048].
      { destruct (is_high_surrogate c); [lia|].
        destruct (is_low_surrogate c); [lia|].
        cbn [flat_map]. rewrite <- IHrest.
        now rewrite utf8_of_scalar_2. }
      destruct (is_high_surrogate c).
      + destruct rest as [|d rest']; [reflexivity|].
        destruct (surrogate_bounds d) as [_ Hlowd].
        destruct (is_low_surrogate d).
        * cbn [flat_map]. inversion Hrest; subst.
          rewrite <- (IH rest') by (simpl in Hle; auto; lia).
          rewrite utf8_of_scalar_4; [reflexivity | lia | lia].
        * cbn [flat_map]. rewrite <- IHrest. reflexivity.
      + destruct (is_low_surrogate c).
        * cbn [flat_map]. rewrite <- IHrest. reflexivity.
        * cbn [flat_map]. rewrite <- IHrest.
          now rewrite utf8_of_scalar_3. }
  intros Hs. now apply (Hall (List.length s)).
Qed.

Lemma upper_hex_digit_eq (n : N) :
  n < 16 ->
  (let c := hex_digit n in if (97 <=? c) && (c <=? 122) then c - 32 else c)
  = upper_hex_digit n.
Proof.
  intros Hn. destruct n as [|p]; [reflexivity|].
  do 4 (destruct p as [p|p|]; try reflexivity); exfalso; lia.
Qed.

(** [toString('hex').toUpperCase()] writes each byte as two digits of
    "0123456789ABCDEF". *)
Lemma upper_hex_of_bytes (bs : list N) :
  Forall (fun b => b < 256) bs ->
  toUpperCase (hex_of_bytes bs) = flat_map upper_hex_of_byte bs.
Proof.
  unfold toUpperCase, hex_of_bytes.
  induction 1 as [|b bs Hb Hbs IH]; [reflexivity|].
  cbn [flat_map app map]. rewrite IH. unfold upper_hex_of_byte.
  rewrite N.shiftr_div_pow2. change 15 with (N.ones 4). rewrite N.land_ones.
  change (2 ^ 4) with 16.
  assert (Hhi : b / 16 < 16) by (apply N.Div0.div_lt_upper_bound; lia).
  assert (Hlo : b mod 16 < 16) by (apply N.mod_lt; lia).
  apply upper_hex_digit_eq in Hhi, Hlo. cbv zeta in Hhi, Hlo.
  rewrite Hhi, Hlo. reflexivity.
Qed.

(** [_toHex] is the codec of the specification. *)
Lemma toHex_uppercase_hex_of_utf8 (s : jsstring) :
  code_units s -> _toHex s = uppercase_hex_of_utf8 s.
Proof.
  intros Hs. unfold _toHex, uppercase_hex_of_utf8.
  rewrite upper_hex_of_bytes by now apply utf8_encode_bytes.
  now rewrite utf8_encode_scalar_values.
Qed.

Local Close Scope N_scope.

Lemma toHex_empty : _toHex [] = [].
Proof. reflexivity. Qed.

Lemma toHex_length (s : jsstring) :
  List.length (_toHex s) = (2 * List.length (utf8_encode s))%nat.
Proof.
  unfold _toHex, toUpperCase, hex_of_bytes. rewrite length_map.
  induction (utf8_encode s) as [|b bs IH]; simpl; [reflexivity|].
  rewrite IH. lia.
Qed.

Example toHex_escrow : _toHex (lit "escrow") = lit "657363726F77".
Proof. reflexivity. Qed.

Example toHex_two_bytes : _toHex [233%N] = lit "C3A9".
Proof. reflexivity. Qed.

Example toHex_surrogate_pair : _toHex [55357%N; 56832%N] = lit "F09F9880".
Proof. reflexivity. Qed.

Example toHex_lone_surrogate : _toHex [55357%N] = lit "EFBFBD".
Proof. reflexivity. Qed.

Example sample_addresses_match :
  xrplAddress_pattern sample_source = true /\
  xrplAddress_pattern sample_destination = true /\
  xrplAddress_pattern sample_malformed = false.
Proof. repeat split; reflexivity. Qed.

(** ** Running the service *)

Ltac run :=
  cbv [bind try_catch call call_void emit ret throw set_client];
  cbn [fst snd client trace].

Lemma initialize_connected (X : XrplLib) (env : ProcessEnv) (st : ServiceState) :
  client st = Some true -> initialize X env st = (inr tt, st).
Proof. intros H. unfold initialize. now rewrite H. Qed.

Lemma getXRPLClient_trace (X : XrplLib) (env : ProcessEnv) (st : ServiceState)
  (r : JsError + unit) (st' : ServiceState) :
  getXRPLClient X env st = (r, st') ->
  exists conn, trace st' = trace st ++ conn /\
               forallb is_connection_event conn = true /\
               (forall e, r = inl e -> data_error e = None).
Proof.
  unfold getXRPLClient.
  set (url := if truthy_str (XRPL_SERVER_URL env) then _ else _).
  assert (Hthrown : forall e0, data_error e0 = None ->
            (inl e0, st) = (r, st') ->
            exists conn, trace st' = trace st ++ conn /\
               forallb is_connection_event conn = true /\
               (forall e, r = inl e -> data_error e = None)).
  { intros e0 He0 [= <- <-]. exists []. rewrite app_nil_r.
    repeat split; auto. now intros e' [= <-]. }
  destruct (negb (truthy_str (XRPL_SERVER_URL env)) && inherited _);
    [run; now apply Hthrown|].
  destruct (truthy_str url); cbn [negb]; [|run; now apply Hthrown].
  destruct (Client_accepts (str_or url [])); cbn [negb];
    [|run; now apply Hthrown].
  run. destruct (client_connect X _) as [e|].
  - intros [= <- <-]. exists [EvConnect (str_or url [])].
    repeat split; auto. now intros e' [= <-].
  - destruct (client_server_info X) as [e|]; intros [= <- <-];
      exists [EvConnect (str_or url []); EvRequest ReqServerInfo];
      cbn [trace]; rewrite <- app_assoc; repeat split; auto;
      try discriminate. now intros e' [= <-].
Qed.

(** [initialize] only talks to the library to establish the connection,
    and what it throws is a plain [Error] of [getXRPLClient]. *)
Lemma initialize_trace (X : XrplLib) (env : ProcessEnv) (st : ServiceState)
  (r0 : JsError + unit) (st1 : ServiceState) :
  initialize X env st = (r0, st1) ->
  exists conn, trace st1 = trace st ++ conn /\
               forallb is_connection_event conn = true /\
               (client st = Some true -> conn = []) /\
               (forall e, r0 = inl e -> data_error e = None).
Proof.
  unfold initialize.
  assert (Hnot : client st <> Some true ->
     (getXRPLClient X env ;; set_client (Some true)) st = (r0, st1) ->
     exists conn, trace st1 = trace st ++ conn /\
               forallb is_connection_event conn = true /\
               (client st = Some true -> conn = []) /\
               (forall e, r0 = inl e -> data_error e = None)).
  { intros Hc. unfold bind, set_client.
    destruct (getXRPLClient X env st) as [[e|[]] st'] eqn:Hg;
      apply getXRPLClient_trace in Hg as (conn & Ht & Hall & He);
      intros [= <- <-]; exists conn; cbn [trace]; repeat split; auto;
      try contradiction; try discriminate. }
  destruct (client st) as [[|]|] eqn:Hc.
  - unfold ret. intros [= <- <-]. exists []. rewrite app_nil_r.
    repeat split; auto; discriminate.
  - apply Hnot. discriminate.
  - apply Hnot. discriminate.
Qed.

(** ** The validation middleware *)

Lemma validateRequest_rejects (B A : Type) (schema : B -> list Detail)
  (next : Handler B A) (body : B) (st : ServiceState) (d : Detail) :
  In d (schema body) ->
  validateRequest schema next body st = (validation_failed A (schema body), st).
Proof.
  unfold validateRequest, validation_failed.
  destruct (schema body) as [|d0 ds]; [contradiction | reflexivity].
Qed.

Lemma validateRequest_accepts (B A : Type) (schema : B -> list Detail)
  (next : Handler B A) (body : B) (st : ServiceState) :
  schema body = [] -> validateRequest schema next body st = next body st.
Proof. unfold validateRequest. now intros ->. Qed.

Lemma invalid_address_cases (A : Type) (X : XrplLib) (a b : option jsstring)
  (ea eb : jsstring) (k : M A) (r0 : JsError + unit) (st st1 : ServiceState)
  (init : M unit) :
  init st = (r0, st1) ->
  InvalidAddress (Error ea) -> InvalidAddress (Error eb) ->
  xrpl_isValidAddress X a = false \/ xrpl_isValidAddress X b = false ->
  stops_at_address_check
    (try_catch
       (init ;;
        if negb (xrpl_isValidAddress X a) then throw (Error ea)
        else if negb (xrpl_isValidAddress X b) then throw (Error eb)
        else k)
       (fun error => throw error)) st r0 st1.
Proof.
  intros Hi Ha Hb Hbad. unfold stops_at_address_check. run. rewrite Hi.
  destruct r0 as [e0|[]].
  - exists e0. repeat split; [discriminate | now intros ? [= ->]].
  - destruct (xrpl_isValidAddress X a); cbn [negb].
    + destruct Hbad as [Hbad|Hbad]; [discriminate|]. rewrite Hbad. cbn [negb].
      exists (Error eb). repeat split; [auto | discriminate].
    + exists (Error ea). repeat split; [auto | discriminate].
Qed.

(** ** C1: malformed addresses *)

(** C1, as the code has it.  In [prepareEscrowCreate],
    [prepareEscrowFinish] and [prepareEscrowCancel] the address checks
    come right after [initialize()].  With an address that
    [xrpl.isValidAddress] refuses, the operation throws in the very state
    [initialize] left: the "Invalid ... address" error when [initialize]
    returned, the error of [initialize] when it threw.  So no account
    query and no autofill is ever issued, and the only calls that can
    precede the rejection are those that establish the connection
    ([connect] and the [server_info] probe), none at all when the
    service is already connected. *)
Theorem address_check_follows_initialize (X : XrplLib) (env : ProcessEnv)
  (st : ServiceState) (r0 : JsError + unit) (st1 : ServiceState) :
  initialize X env st = (r0, st1) ->
  (forall p,
     xrpl_isValidAddress X (CreateParams.sourceAddress p) = false \/
     xrpl_isValidAddress X (CreateParams.destinationAddress p) = false ->
     stops_at_address_check (prepareEscrowCreate X env p) st r0 st1) /\
  (forall p,
     xrpl_isValidAddress X (FinishParams.finisherAddress p) = false \/
     xrpl_isValidAddress X (FinishParams.ownerAddress p) = false ->
     stops_at_address_check (prepareEscrowFinish X env p) st r0 st1) /\
  (forall p,
     xrpl_isValidAddress X (CancelParams.cancellerAddress p) = false \/
     xrpl_isValidAddress X (CancelParams.ownerAddress p) = false ->
     stops_at_address_check (prepareEscrowCancel X env p) st r0 st1) /\
  (exists conn, trace st1 = trace st ++ conn /\
                forallb is_connection_event conn = true /\
                (client st = Some true -> conn = [])).
Proof.
  intros Hi. repeat split.
  - intros p Hbad. unfold prepareEscrowCreate.
    apply invalid_address_cases; auto; unfold InvalidAddress; simpl; auto.
  - intros p Hbad. unfold prepareEscrowFinish.
    apply invalid_address_cases; auto; unfold InvalidAddress; simpl; auto.
  - intros p Hbad. unfold prepareEscrowCancel.
    apply invalid_address_cases; auto; unfold InvalidAddress; simpl; auto 6.
  - destruct (initialize_trace _ _ _ Hi) as (conn & H1 & H2 & H3 & _).
    exists conn. auto.
Qed.

(** The theorem at the malformed sample request, on a service that is
    already connected: rejected with no call at all. *)
Lemma address_check_follows_initialize_witness :
  exists e,
    prepareEscrowCreate (sample_lib None) sample_env sample_create_malformed
      connected = (inl e, connected) /\
    InvalidAddress e.
Proof.
  destruct (@address_check_follows_initialize (sample_lib None) sample_env
              connected (inr tt) connected eq_refl) as (Hc & _).
  destruct (Hc sample_create_malformed (or_introl eq_refl)) as (e & He & Hinv & _).
  exists e. split; [exact He | exact (Hinv eq_refl)].
Defined.

(** C1 as stated fails: on a service that is not connected yet, the
    malformed source address is rejected only after [connect] and
    [server_info] have gone to the network. *)
Lemma address_check_after_connection :
  xrpl_isValidAddress (sample_lib None)
    (CreateParams.sourceAddress sample_create_malformed) = false /\
  prepareEscrowCreate (sample_lib None) sample_env sample_create_malformed fresh
  = (inl (Error (lit "Invalid source address")), just_connected) /\
  trace just_connected <> trace fresh.
Proof. repeat split; try reflexivity. discriminate. Qed.

(** When the server cannot be reached, the same request fails with the
    error of [getXRPLClient], and the address is never looked at. *)
Example malformed_address_on_unreachable_server :
  prepareEscrowCreate unreachable_lib sample_env sample_create_malformed fresh
  = (inl (Error (lit "XRPL connection failed: connect ETIMEDOUT")),
     {| client := None;
        trace := [ EvConnect (lit "wss://s.altnet.rippletest.net:51233") ] |}).
Proof. reflexivity. Qed.

(** Behind the route, an address that does not match the pattern of the
    schema never reaches the service: no call at all is made. *)
Lemma malformed_source_rejected_by_schema (X : XrplLib) (env : ProcessEnv)
  (loadTime : Z) (body : CreateParams.t) (st : ServiceState) (s : jsstring) :
  CreateParams.sourceAddress body = Some s ->
  xrplAddress_pattern s = false ->
  post_create X env loadTime body st
  = (validation_failed Prepared.t (escrowCreateSchema loadTime body), st).
Proof.
  intros Hs Hp. unfold post_create.
  destruct s as [|c s'].
  - eapply validateRequest_rejects with
      (d := {| path := [Key "sourceAddress"]; code := string_empty |}).
    unfold escrowCreateSchema. rewrite Hs. simpl. auto.
  - eapply validateRequest_rejects with
      (d := {| path := [Key "sourceAddress"]; code := string_pattern_base |}).
    unfold escrowCreateSchema. rewrite Hs. apply in_or_app. left.
    unfold xrplAddress, string_required, pattern_rule. rewrite Hp. simpl. auto.
Qed.

(** ** C2: an empty list of signatures *)

(** C2, as the code has it.  The emptiness check is the [.min(1)] of
    [multisigSubmitSchema], in front of the route: a submit-multisig
    request whose [signatures] is the empty array is answered with
    status 400, "Validation failed" and a detail for [signatures]; the
    service is not called, so nothing is encoded or submitted. *)
Theorem empty_signatures_rejected_by_schema (X : XrplLib) (env : ProcessEnv)
  (transaction : option jsobj) (st : ServiceState) :
  exists errs,
    post_submit_multisig X env
      {| MultisigParams.transaction := transaction;
         MultisigParams.signatures := Some [] |} st
    = (validation_failed MultisigSubmitted.t errs, st) /\
    In {| path := [Key "signatures"]; code := array_min |} errs /\
    In {| field := "signatures"; rule := array_min |}
       (map (fun d => {| field := path_join (path d); rule := code d |}) errs).
Proof.
  set (body := {| MultisigParams.transaction := transaction;
                  MultisigParams.signatures := Some [] |}).
  assert (Hin : In {| path := [Key "signatures"]; code := array_min |}
                   (multisigSubmitSchema body)).
  { unfold multisigSubmitSchema. apply in_or_app. right. simpl. auto. }
  exists (multisigSubmitSchema body). split; [|split].
  - unfold post_submit_multisig. eapply validateRequest_rejects. exact Hin.
  - exact Hin.
  - apply (in_map (fun d => {| field := path_join (path d); rule := code d |}))
      in Hin. exact Hin.
Qed.

(** C2 as stated fails: [submitMultisigTransaction] itself has no check.
    Called with no signature, it encodes the descriptor with an empty
    [Signers] array and submits it. *)
Lemma empty_signatures_reach_the_ledger :
  exists r,
    submitMultisigTransaction (sample_lib None) sample_env
      {| MultisigParams.transaction := Some sample_transaction;
         MultisigParams.signatures := Some [] |} connected
    = (inr r,
       {| client := Some true;
          trace := [ EvEncode (multisigned (Some sample_transaction) []);
                     EvSubmit (lit "1200002280000000") ] |}) /\
    MultisigSubmitted.signerCount r = 0%Z /\
    obj_get (multisigned (Some sample_transaction) []) (lit "Signers")
    = Some (JArr []).
Proof. eexists. repeat split. Qed.

(** ** C3: multisig detection in [prepareEscrowFinish] *)

(** C3.  When the finisher and owner addresses are valid, the
    [account_info] query answers and autofill returns [prepared],
    [prepareEscrowFinish] returns a result, after exactly these two
    calls.  If the signer lists read from the ledger are not empty the
    result has [requiresMultisig = true], carries the first signer list
    (the signer entries with their quorum) and its instructions say
    [multisigRequired = true]; if they are empty, or not there, it has
    [requiresMultisig = false] and no [signerList]. *)
Theorem finish_reports_multisig (X : XrplLib) (env : ProcessEnv)
  (p : FinishParams.t) (st st1 : ServiceState) (info : AccountInfo)
  (prepared : jsobj) :
  initialize X env st = (inr tt, st1) ->
  xrpl_isValidAddress X (FinishParams.finisherAddress p) = true ->
  xrpl_isValidAddress X (FinishParams.ownerAddress p) = true ->
  client_account_info X (FinishParams.finisherAddress p) = inr info ->
  client_autofill X (escrowFinishTx p) = inr prepared ->
  exists r st',
    prepareEscrowFinish X env p st = (inr r, st') /\
    trace st' = trace st1 ++
      [ EvRequest (ReqAccountInfo (FinishParams.finisherAddress p));
        EvAutofill (escrowFinishTx p) ] /\
    PreparedFinish.transaction r = prepared /\
    (forall first rest, signer_lists info = Some (first :: rest) ->
       PreparedFinish.requiresMultisig r = true /\
       PreparedFinish.signerList r = Some first /\
       Instructions.multisigRequired (PreparedFinish.instructions r)
       = Some true) /\
    (signer_lists info = Some [] \/ signer_lists info = None ->
       PreparedFinish.requiresMultisig r = false /\
       PreparedFinish.signerList r = None).
Proof.
  intros Hi Hf Ho Hinfo Hauto. unfold prepareEscrowFinish. run.
  rewrite Hi, Hf, Ho. cbn [negb]. rewrite Hinfo, Hauto.
  destruct (signer_lists info) as [[|first rest]|] eqn:Hsl;
    eexists; eexists; (split; [reflexivity|]); cbn [trace];
    rewrite <- app_assoc; (split; [reflexivity|]); (split; [reflexivity|]).
  - split; [discriminate | auto].
  - split; [|intros [?|?]; discriminate].
    intros ? ? [= <- <-]. auto.
  - split; [discriminate | auto].
Qed.

(** The theorem on a ledger where the finisher has a signer list. *)
Lemma finish_reports_multisig_witness :
  exists r st',
    prepareEscrowFinish (sample_lib (Some [sample_signer_list])) sample_env
      sample_finish connected = (inr r, st') /\
    PreparedFinish.requiresMultisig r = true /\
    PreparedFinish.signerList r = Some sample_signer_list.
Proof.
  destruct (@finish_reports_multisig (sample_lib (Some [sample_signer_list]))
              sample_env sample_finish connected connected
              {| signer_lists := Some [sample_signer_list] |}
              (sample_autofill (escrowFinishTx sample_finish))
              eq_refl eq_refl eq_refl eq_refl eq_refl)
    as (r & st' & Hrun & _ & _ & Hmulti & _).
  destruct (Hmulti sample_signer_list [] eq_refl) as (H1 & H2 & _).
  exists r, st'. auto.
Defined.

(** ** C4: the multisigned descriptor *)

Lemma multisigned_Signers (transaction : option jsobj) (signers : list jsval) :
  obj_get (multisigned transaction signers) (lit "Signers")
  = Some (JArr signers).
Proof.
  unfold multisigned. rewrite obj_get_set_other.
  - apply obj_get_set_same.
  - apply jsstring_eqb_neq. reflexivity.
Qed.

Lemma multisigned_SigningPubKey (transaction : option jsobj)
  (signers : list jsval) :
  obj_get (multisigned transaction signers) (lit "SigningPubKey")
  = Some (JStr []).
Proof. unfold multisigned. apply obj_get_set_same. Qed.

Lemma entry_account_signer_entry (sig : Signature.t) :
  entry_account (signer_entry sig) = Some (of_opt_str (Signature.signer sig)).
Proof. reflexivity. Qed.

(** C4.  Once the connection is there, [submitMultisigTransaction] hands
    to [xrpl.encode] exactly one descriptor, before anything is
    submitted.  Whatever the caller's transaction holds, the [Signers] of
    that descriptor has one entry per signature, in the caller's order
    (entry [i] is built from signature [i], and its [Account] is that
    signature's signer), and its [SigningPubKey] is the empty string. *)
Theorem multisigned_descriptor_shape (X : XrplLib) (env : ProcessEnv)
  (p : MultisigParams.t) (sigs : list Signature.t) (st st1 : ServiceState) :
  initialize X env st = (inr tt, st1) ->
  MultisigParams.signatures p = Some sigs ->
  exists tx entries,
    (exists r st' after,
       submitMultisigTransaction X env p st = (r, st') /\
       trace st' = trace st1 ++ EvEncode tx :: after /\
       (after = [] \/ exists blob, after = [EvSubmit blob])) /\
    obj_get tx (lit "Signers") = Some (JArr entries) /\
    List.length entries = List.length sigs /\
    (forall i sig, nth_error sigs i = Some sig ->
       nth_error entries i = Some (signer_entry sig)) /\
    map entry_account entries
    = map (fun sig => Some (of_opt_str (Signature.signer sig))) sigs /\
    obj_get tx (lit "SigningPubKey") = Some (JStr []).
Proof.
  intros Hi Hs.
  exists (multisigned (MultisigParams.transaction p) (map signer_entry sigs)),
         (map signer_entry sigs).
  split; [|split; [|split; [|split; [|split]]]].
  - unfold submitMultisigTransaction. run. rewrite Hi, Hs. cbn [trace].
    destruct (xrpl_encode X _) as [e|encoded].
    + do 3 eexists. split; [reflexivity|]. cbn [trace].
      split; [reflexivity | left; reflexivity].
    + destruct (client_submit X encoded) as [e|result];
        do 3 eexists; (split; [reflexivity|]); cbn [trace];
        rewrite <- app_assoc; (split; [reflexivity|]); right; eexists;
        reflexivity.
  - apply multisigned_Signers.
  - apply length_map.
  - intros i sig Hn. now apply map_nth_error.
  - rewrite map_map. apply map_ext. intros sig. apply entry_account_signer_entry.
  - apply multisigned_SigningPubKey.
Qed.

(** The theorem on two signatures and a transaction that came with a
    signing key of its own. *)
Lemma multisigned_descriptor_shape_witness :
  exists tx,
    obj_get sample_transaction (lit "SigningPubKey") <> Some (JStr []) /\
    obj_get tx (lit "SigningPubKey") = Some (JStr []) /\
    obj_get tx (lit "Signers")
    = Some (JArr [ signer_entry (sample_signature sample_source);
                   signer_entry (sample_signature sample_destination) ]).
Proof.
  destruct (@multisigned_descriptor_shape (sample_lib None) sample_env
              {| MultisigParams.transaction := Some sample_transaction;
                 MultisigParams.signatures := Some
                   [ sample_signature sample_source;
                     sample_signature sample_destination ] |}
              [ sample_signature sample_source;
                sample_signature sample_destination ]
              connected connected eq_refl eq_refl)
    as (tx & entries & _ & Hsigners & Hlen & Hnth & _ & Hkey).
  exists tx. split; [discriminate|]. split; [exact Hkey|].
  rewrite Hsigners.
  pose proof (Hnth 0%nat _ eq_refl) as H0.
  pose proof (Hnth 1%nat _ eq_refl) as H1.
  destruct entries as [|e0 [|e1 [|e2 entries]]]; try discriminate Hlen.
  injection H0 as ->. injection H1 as ->. reflexivity.
Defined.

(** ** C5: engine rejections are results *)

(** C5.  When the ledger answers the submission with an engine result
    other than "tesSUCCESS", [submitTransaction] returns (it does not
    throw) a result with [success = false] that carries the engine's code
    and message.  It throws only what [initialize] threw (the connection
    could not be established) or what [client.submit] itself threw. *)
Theorem engine_rejection_is_returned (X : XrplLib) (env : ProcessEnv)
  (signedTxBlob : jsstring) (st : ServiceState) :
  (forall st1 resp,
     initialize X env st = (inr tt, st1) ->
     client_submit X signedTxBlob = inr resp ->
     engine_result resp <> lit "tesSUCCESS" ->
     submitTransaction X env signedTxBlob st
     = (inr {| Submitted.success := false;
               Submitted.txHash := tx_json_hash resp;
               Submitted.resultCode := engine_result resp;
               Submitted.resultMessage := engine_result_message resp;
               Submitted.validated := bool_or_false (validated resp) |},
        {| client := client st1;
           trace := trace st1 ++ [EvSubmit signedTxBlob] |})) /\
  (forall e st',
     submitTransaction X env signedTxBlob st = (inl e, st') ->
     initialize X env st = (inl e, st') \/
     (exists st1, initialize X env st = (inr tt, st1) /\
                  client_submit X signedTxBlob = inl e)).
Proof.
  split.
  - intros st1 resp Hi Hs Hcode. unfold submitTransaction. run.
    rewrite Hi, Hs. apply jsstring_eqb_neq in Hcode. rewrite Hcode.
    reflexivity.
  - intros e st'. unfold submitTransaction. run.
    destruct (initialize X env st) as [[e0|[]] st1].
    + intros [= -> ->]. now left.
    + destruct (client_submit X signedTxBlob) as [e1|resp].
      * intros [= -> <-]. right. now exists st1.
      * discriminate.
Qed.

(** The theorem on the sample ledger, whose engine answers
    "tecNO_PERMISSION". *)
Lemma engine_rejection_is_returned_witness :
  exists r st',
    submitTransaction (sample_lib None) sample_env (lit "1200002280000000")
      connected = (inr r, st') /\
    Submitted.success r = false /\
    Submitted.resultCode r = lit "tecNO_PERMISSION" /\
    Submitted.resultMessage r
    = lit "No permission to perform requested operation.".
Proof.
  destruct (@engine_rejection_is_returned (sample_lib None) sample_env
              (lit "1200002280000000") connected) as (Hret & _).
  assert (Hcode : engine_result sample_rejection <> lit "tesSUCCESS")
    by (apply jsstring_eqb_neq; reflexivity).
  pose proof (Hret connected sample_rejection eq_refl eq_refl Hcode) as Hrun.
  do 2 eexists. split; [exact Hrun|]. repeat split.
Defined.

(** ** C6: an escrow that is not found *)

(** C6.  When the [ledger_entry] query throws the error whose
    [data.error] is "entryNotFound", [getEscrowStatus] returns the
    "not_found" status with [success = true].  Every other error is
    thrown on to the caller: one of the query with another [data.error]
    or none, and one of [initialize]. *)
Theorem entry_not_found_is_a_status (X : XrplLib) (env : ProcessEnv)
  (ownerAddress : option jsstring) (offerSequence : Z) (st : ServiceState) :
  (forall st1 e,
     initialize X env st = (inr tt, st1) ->
     client_ledger_entry X ownerAddress offerSequence = inl e ->
     data_error e = Some (lit "entryNotFound") ->
     getEscrowStatus X env ownerAddress offerSequence st
     = (inr {| Status.success := true;
               Status.escrow := None;
               Status.status := lit "not_found";
               Status.message := Some
                 (lit "Escrow not found. It may have been finished or cancelled.") |},
        {| client := client st1;
           trace := trace st1 ++
             [EvRequest (ReqLedgerEntry ownerAddress offerSequence)] |})) /\
  (forall st1 e,
     initialize X env st = (inr tt, st1) ->
     client_ledger_entry X ownerAddress offerSequence = inl e ->
     data_error e <> Some (lit "entryNotFound") ->
     getEscrowStatus X env ownerAddress offerSequence st
     = (inl e,
        {| client := client st1;
           trace := trace st1 ++
             [EvRequest (ReqLedgerEntry ownerAddress offerSequence)] |})) /\
  (forall st1 e,
     initialize X env st = (inl e, st1) ->
     getEscrowStatus X env ownerAddress offerSequence st = (inl e, st1)).
Proof.
  split; [|split].
  - intros st1 e Hi Hq He. unfold getEscrowStatus. run.
    rewrite Hi, Hq, He. rewrite jsstring_eqb_refl. reflexivity.
  - intros st1 e Hi Hq He. unfold getEscrowStatus. run. rewrite Hi, Hq.
    destruct (data_error e) as [code|]; [|reflexivity].
    destruct (jsstring_eqb code (lit "entryNotFound")) eqn:E; [|reflexivity].
    apply jsstring_eqb_eq in E. congruence.
  - intros st1 e Hi. unfold getEscrowStatus. run. rewrite Hi.
    destruct (initialize_trace _ _ _ Hi) as (_ & _ & _ & _ & He).
    now rewrite (He e eq_refl).
Qed.

(** The theorem on the sample ledger, which holds no escrow. *)
Lemma entry_not_found_is_a_status_witness :
  exists r st',
    getEscrowStatus (sample_lib None) sample_env (Some sample_source) 7
      connected = (inr r, st') /\
    Status.success r = true /\
    Status.status r = lit "not_found".
Proof.
  destruct (@entry_not_found_is_a_status (sample_lib None) sample_env
              (Some sample_source) 7%Z connected) as (Hnf & _).
  pose proof (Hnf connected sample_entryNotFound eq_refl eq_refl eq_refl)
    as Hrun.
  do 2 eexists. split; [exact Hrun|]. split; reflexivity.
Defined.

(** ** C9: the time codec *)

(** C9, as the code has it.  The two functions compute on doubles.  On
    every Unix time [t] for which [t] and [t - 946684800] are within
    2^53 of zero, [_toRippleTime] subtracts exactly 946684800,
    [_fromRippleTime] adds exactly 946684800, and each undoes the
    other. *)
Theorem ripple_time_round_trip (t : Z) :
  exact_time t ->
  _toRippleTime t = (t - 946684800)%Z /\
  _fromRippleTime (t - 946684800) = t /\
  _fromRippleTime (_toRippleTime t) = t /\
  _toRippleTime (_fromRippleTime (t - 946684800)) = (t - 946684800)%Z.
Proof.
  unfold exact_time. intros Ht.
  assert (Hto : _toRippleTime t = (t - 946684800)%Z)
    by (apply toRippleTime_exact; lia).
  assert (Hfrom : _fromRippleTime (t - 946684800) = t).
  { rewrite fromRippleTime_exact by lia. lia. }
  repeat split.
  - exact Hto.
  - exact Hfrom.
  - rewrite Hto. exact Hfrom.
  - rewrite Hfrom. exact Hto.
Qed.

(** The theorem on a time of the year 2033, and on the two ends of the
    range. *)
Lemma ripple_time_round_trip_witness :
  _fromRippleTime (_toRippleTime 2000000000) = 2000000000%Z /\
  _fromRippleTime (_toRippleTime (-9007198308056192)) = (-9007198308056192)%Z /\
  _fromRippleTime (_toRippleTime 9007199254740992) = 9007199254740992%Z.
Proof.
  split; [|split].
  - apply (@ripple_time_round_trip 2000000000%Z). unfold exact_time. lia.
  - apply (@ripple_time_round_trip (-9007198308056192)%Z). unfold exact_time. lia.
  - apply (@ripple_time_round_trip 9007199254740992%Z). unfold exact_time. lia.
Defined.

(** C9 as stated, for every integer, fails.  -9007199254740991 is a
    number of JavaScript ([Number.MIN_SAFE_INTEGER]), but 946684800
    less is an odd integer beyond 2^53, which is not: the difference is
    rounded to the even integer below, and adding 946684800 gives
    -9007199254740992. *)
Lemma min_safe_integer_does_not_come_back :
  to_double (-9007199254740991) = (-9007199254740991)%Z /\
  _toRippleTime (-9007199254740991) = (-9007200201425792)%Z /\
  _fromRippleTime (_toRippleTime (-9007199254740991))
  = (-9007199254740992)%Z /\
  _fromRippleTime (_toRippleTime (-9007199254740991))
  <> (-9007199254740991)%Z.
Proof.
  assert (E : _fromRippleTime (_toRippleTime (-9007199254740991))
              = (-9007199254740992)%Z) by (vm_compute; reflexivity).
  split; [vm_compute; reflexivity|]. split; [vm_compute; reflexivity|].
  split; [exact E|]. rewrite E. discriminate.
Qed.

(** ** The descriptor of [prepareEscrowCreate] *)

Lemma obj_set_fresh (o : jsobj) (k : jsstring) (v : jsval) :
  obj_get o k = None -> obj_set o k v = o ++ [(k, v)].
Proof.
  induction o as [|[k' v'] o IH]; simpl; [reflexivity|].
  destruct (jsstring_eqb k' k); [discriminate|].
  intros H. now rewrite IH.
Qed.

Lemma sample_autofill_adds_only (sl : option (list jsval)) :
  autofill_adds_only (sample_lib sl).
Proof.
  intros tx tx' [= <-] k Hk. simpl in Hk.
  repeat (apply orb_false_iff in Hk as [? Hk]).
  unfold sample_autofill.
  rewrite !obj_get_set_other; auto;
    intros <-; rewrite jsstring_eqb_refl in *; discriminate.
Qed.

(** What [prepareEscrowCreate] does once the connection is there and both
    addresses are valid: one autofill call on [escrowCreateTx]. *)
Lemma prepareEscrowCreate_runs (X : XrplLib) (env : ProcessEnv)
  (p : CreateParams.t) (st st1 : ServiceState) (prepared : jsobj) :
  initialize X env st = (inr tt, st1) ->
  xrpl_isValidAddress X (CreateParams.sourceAddress p) = true ->
  xrpl_isValidAddress X (CreateParams.destinationAddress p) = true ->
  client_autofill X (escrowCreateTx p) = inr prepared ->
  exists r,
    prepareEscrowCreate X env p st
    = (inr r, {| client := client st1;
                 trace := trace st1 ++ [EvAutofill (escrowCreateTx p)] |}) /\
    Prepared.transaction r = prepared.
Proof.
  intros Hi Hs Hd Ha. unfold prepareEscrowCreate. run.
  rewrite Hi, Hs, Hd. cbn [negb]. rewrite Ha. eexists. split; reflexivity.
Qed.

Lemma is_safe_integer_spec (z : Z) :
  is_safe_integer z = true
  <-> (- 9007199254740991 <= z <= 9007199254740991)%Z.
Proof.
  unfold is_safe_integer, MAX_SAFE_INTEGER.
  rewrite andb_true_iff, !Z.leb_le. reflexivity.
Qed.

Lemma number_rules_nil (p : list PathSeg) (rules : Z -> list JoiCode) (z : Z) :
  number_rules p rules z = []
  <-> is_safe_integer z = true /\ rules z = [].
Proof.
  unfold number_rules. destruct (is_safe_integer z).
  - destruct (rules z); cbn; split; try intros [_ H]; try discriminate; auto.
  - split; [discriminate | intros [H _]; discriminate].
Qed.

Lemma min_rule_nil (limit z : Z) : min_rule limit z = [] <-> (limit <= z)%Z.
Proof.
  unfold min_rule. destruct (Z.leb_spec limit z); split;
    try discriminate; auto; lia.
Qed.

(** What a body that passes [escrowCreateSchema] is known to hold:
    [finishAfter] is there, a safe integer and not before the load
    time, and [cancelAfter], when there, is a safe integer and not
    before [finishAfter]. *)
Lemma escrowCreateSchema_times (loadTime : Z) (body : CreateParams.t) :
  escrowCreateSchema loadTime body = [] ->
  exists f,
    CreateParams.finishAfter body = Some f /\ (loadTime <= f)%Z /\
    is_safe_integer f = true /\
    (forall c, CreateParams.cancelAfter body = Some c ->
       (f <= c)%Z /\ is_safe_integer c = true).
Proof.
  unfold escrowCreateSchema. intros H.
  do 3 (apply app_eq_nil in H as [_ H]).
  apply app_eq_nil in H as [Hf H]. apply app_eq_nil in H as [Hc _].
  destruct (CreateParams.finishAfter body) as [f|]; [|discriminate].
  apply number_rules_nil in Hf as [Hsafe Hmin]. apply min_rule_nil in Hmin.
  exists f. split; [reflexivity|]. split; [assumption|].
  split; [assumption|].
  intros c Hcancel. rewrite Hcancel in Hc.
  apply number_rules_nil in Hc as [Hsafe' Hmin']. apply min_rule_nil in Hmin'.
  split; assumption.
Qed.

(** ** C7: [cancelAfter] before [finishAfter] *)

(** C7, as the code has it.  The ordering of the two times is the
    [.min(Joi.ref('finishAfter'))] of [escrowCreateSchema], in front of
    the route: a create request with both times and
    [cancelAfter < finishAfter] is answered with status 400,
    "Validation failed" and a detail for [cancelAfter] (the rule
    [number.min], or [number.unsafe] when [cancelAfter] is outside the
    safe integers, where Joi stops at the type); the service is not
    called and no descriptor is returned. *)
Theorem cancel_before_finish_rejected_by_schema (X : XrplLib)
  (env : ProcessEnv) (loadTime : Z) (body : CreateParams.t)
  (st : ServiceState) (f c : Z) :
  CreateParams.finishAfter body = Some f ->
  CreateParams.cancelAfter body = Some c ->
  (c < f)%Z ->
  exists errs,
    post_create X env loadTime body st
    = (validation_failed Prepared.t errs, st) /\
    data (validation_failed Prepared.t errs) = None /\
    In {| path := [Key "cancelAfter"];
          code := if is_safe_integer c then number_min else number_unsafe |}
       errs /\
    In {| field := "cancelAfter";
          rule := if is_safe_integer c then number_min else number_unsafe |}
       (map (fun d => {| field := path_join (path d); rule := code d |}) errs).
Proof.
  intros Hf Hc Hlt.
  assert (Hin : In {| path := [Key "cancelAfter"];
                      code := if is_safe_integer c
                              then number_min else number_unsafe |}
                   (escrowCreateSchema loadTime body)).
  { unfold escrowCreateSchema. rewrite Hf, Hc.
    do 4 (apply in_or_app; right). apply in_or_app. left.
    unfold number_rules, min_rule. apply Z.leb_gt in Hlt. rewrite Hlt.
    destruct (is_safe_integer c); simpl; auto. }
  exists (escrowCreateSchema loadTime body). repeat split.
  - unfold post_create. eapply validateRequest_rejects. exact Hin.
  - exact Hin.
  - apply (in_map (fun d => {| field := path_join (path d); rule := code d |}))
      in Hin. exact Hin.
Qed.

(** The theorem on the sample request with [cancelAfter] one second
    before [finishAfter]. *)
Lemma cancel_before_finish_rejected_by_schema_witness :
  exists errs,
    post_create (sample_lib None) sample_env 1900000000
      (sample_create (Some 2000000000%Z) (Some 1999999999%Z) None) fresh
    = (validation_failed Prepared.t errs, fresh) /\
    In {| path := [Key "cancelAfter"]; code := number_min |} errs.
Proof.
  destruct (@cancel_before_finish_rejected_by_schema (sample_lib None)
              sample_env 1900000000%Z
              (sample_create (Some 2000000000%Z) (Some 1999999999%Z) None)
              fresh 2000000000%Z 1999999999%Z eq_refl eq_refl eq_refl)
    as (errs & Hrun & _ & Hin & _).
  exists errs. split; assumption.
Defined.

(** C7 as stated fails: [prepareEscrowCreate] itself does not compare
    the two times.  With [cancelAfter] one second before [finishAfter]
    it returns a prepared descriptor that holds both. *)
Lemma cancel_before_finish_is_prepared :
  exists r st',
    prepareEscrowCreate (sample_lib None) sample_env
      (sample_create (Some 2000000000%Z) (Some 1999999999%Z) None) connected
    = (inr r, st') /\
    Prepared.success r = true /\
    obj_get (Prepared.transaction r) (lit "FinishAfter")
    = Some (JNum 1053315200) /\
    obj_get (Prepared.transaction r) (lit "CancelAfter")
    = Some (JNum 1053315199).
Proof. do 2 eexists. repeat split. Qed.

(** A well-formed request goes through the schema to the service. *)
Example create_route_accepts_sample :
  exists r,
    post_create (sample_lib None) sample_env 1900000000
      (sample_create (Some 2000000000%Z) (Some 2000003600%Z) None) fresh
    = ({| http_status := 200; success := true; data := Some r;
          error := None; details := None |},
       {| client := Some true;
          trace := trace just_connected ++
            [ EvAutofill (escrowCreateTx
                (sample_create (Some 2000000000%Z) (Some 2000003600%Z) None)) ] |}) /\
    obj_get (Prepared.transaction r) (lit "CancelAfter")
    = Some (JNum 1053318800).
Proof.
  unfold post_create. rewrite validateRequest_accepts by reflexivity.
  eexists. split; reflexivity.
Qed.

(** ** C8: the plain create request *)

(** C8.  A create request of the specification has its [finishAfter]
    in the future at validation time (the request invariant), and
    [escrowCreateSchema] lets only safe integers through.  For such a
    request, with valid addresses, an amount in drops and no
    [cancelAfter], [condition] or [memo], the service asks autofill for
    exactly the descriptor [{TransactionType: 'EscrowCreate', Account,
    Destination, Amount, FinishAfter: finishAfter - 946684800}] and
    returns its answer.  When autofill adds only its own fields, the
    prepared descriptor has these five fields and no [CancelAfter],
    [Condition] or [Memos]. *)
Theorem plain_create_descriptor (X : XrplLib) (env : ProcessEnv)
  (st st1 : ServiceState) (source destination drops : jsstring) (now t : Z)
  (prepared : jsobj) :
  let p :=
    {| CreateParams.sourceAddress := Some source;
       CreateParams.destinationAddress := Some destination;
       CreateParams.amount := Some (Drops drops);
       CreateParams.finishAfter := Some t;
       CreateParams.cancelAfter := None;
       CreateParams.condition := None;
       CreateParams.memo := None |} in
  let escrowTx :=
    [ (lit "TransactionType", JStr (lit "EscrowCreate"));
      (lit "Account", JStr source);
      (lit "Destination", JStr destination);
      (lit "Amount", JStr drops);
      (lit "FinishAfter", JNum (t - 946684800)) ] in
  initialize X env st = (inr tt, st1) ->
  xrpl_isValidAddress X (Some source) = true ->
  xrpl_isValidAddress X (Some destination) = true ->
  (0 < now)%Z -> (now <= t)%Z -> is_safe_integer t = true ->
  client_autofill X escrowTx = inr prepared ->
  autofill_adds_only X ->
  exists r,
    prepareEscrowCreate X env p st
    = (inr r, {| client := client st1;
                 trace := trace st1 ++ [EvAutofill escrowTx] |}) /\
    Prepared.transaction r = prepared /\
    obj_get prepared (lit "TransactionType") = Some (JStr (lit "EscrowCreate")) /\
    obj_get prepared (lit "Account") = Some (JStr source) /\
    obj_get prepared (lit "Destination") = Some (JStr destination) /\
    obj_get prepared (lit "Amount") = Some (JStr drops) /\
    obj_get prepared (lit "FinishAfter") = Some (JNum (t - 946684800)) /\
    obj_get prepared (lit "CancelAfter") = None /\
    obj_get prepared (lit "Condition") = None /\
    obj_get prepared (lit "Memos") = None.
Proof.
  intros p escrowTx Hi Hs Hd Hnow Hfuture Hsafe Ha Hadds.
  apply is_safe_integer_spec in Hsafe.
  assert (Ht : t <> 0%Z) by lia.
  assert (Hbuilt : escrowCreateTx p = escrowTx).
  { unfold escrowCreateTx, p. cbn [CreateParams.sourceAddress
      CreateParams.destinationAddress CreateParams.amount
      CreateParams.finishAfter CreateParams.cancelAfter
      CreateParams.condition CreateParams.memo truthy_num].
    apply Z.eqb_neq in Ht. rewrite Ht. cbn [negb].
    rewrite toRippleTime_exact by lia.
    rewrite obj_set_fresh by reflexivity. reflexivity. }
  destruct (@prepareEscrowCreate_runs X env p st st1 prepared Hi Hs Hd)
    as (r & Hrun & Htx).
  { now rewrite Hbuilt. }
  rewrite Hbuilt in Hrun. exists r. split; [exact Hrun|]. split; [exact Htx|].
  repeat split; rewrite (Hadds _ _ Ha) by reflexivity; reflexivity.
Qed.

(** The theorem on the scenario of the specification: one million
    drops, to be finished at 2000000000, an hour after the request. *)
Lemma plain_create_descriptor_witness :
  exists r st',
    prepareEscrowCreate (sample_lib None) sample_env
      (sample_create (Some 2000000000%Z) None None) connected = (inr r, st') /\
    obj_get (Prepared.transaction r) (lit "FinishAfter")
    = Some (JNum 1053315200) /\
    obj_get (Prepared.transaction r) (lit "Condition") = None /\
    obj_get (Prepared.transaction r) (lit "Memos") = None.
Proof.
  assert (Hnow : (0 < 1999996400)%Z) by reflexivity.
  assert (Hfuture : (1999996400 <= 2000000000)%Z) by discriminate.
  destruct (@plain_create_descriptor (sample_lib None) sample_env
              connected connected sample_source sample_destination
              (lit "1000000") 1999996400%Z 2000000000%Z
              (sample_autofill (escrowCreateTx
                 (sample_create (Some 2000000000%Z) None None)))
              eq_refl eq_refl eq_refl Hnow Hfuture eq_refl
              eq_refl (@sample_autofill_adds_only None))
    as (r & Hrun & Htx & _ & _ & _ & _ & Hfinish & _ & Hcond & Hmemos).
  exists r. eexists. split; [exact Hrun|].
  rewrite Htx. repeat split; assumption.
Defined.

(** ** C10: the memo entry *)

(** C10.  For a create request with a memo object, once the connection
    is there, the addresses are valid and autofill (adding only its own
    fields) answers, the prepared descriptor has [Memos] with a single
    [Memo] entry.  Its [MemoType] is the upper-case hexadecimal of the
    UTF-8 bytes of the supplied type, and of "escrow" (657363726F77)
    when the type is left out or is the empty string, so it is never
    empty; its [MemoData] is the upper-case hexadecimal of the UTF-8
    bytes of the supplied data, and empty when the data is left out or
    empty.  Both are written with the digits 0-9 and A-F only.  The
    encoding is [uppercase_hex_of_utf8], the codec as the specification
    words it; the strings of a request are strings of JavaScript, of
    code units below 2^16. *)
Theorem memo_entry_encoding (X : XrplLib) (env : ProcessEnv)
  (p : CreateParams.t) (m : Memo.t) (st st1 : ServiceState)
  (prepared : jsobj) :
  initialize X env st = (inr tt, st1) ->
  xrpl_isValidAddress X (CreateParams.sourceAddress p) = true ->
  xrpl_isValidAddress X (CreateParams.destinationAddress p) = true ->
  CreateParams.memo p = Some m ->
  (forall s, Memo.type m = Some s -> code_units s) ->
  (forall s, Memo.data m = Some s -> code_units s) ->
  client_autofill X (escrowCreateTx p) = inr prepared ->
  autofill_adds_only X ->
  exists r memoType memoData,
    prepareEscrowCreate X env p st
    = (inr r, {| client := client st1;
                 trace := trace st1 ++ [EvAutofill (escrowCreateTx p)] |}) /\
    Prepared.transaction r = prepared /\
    obj_get prepared (lit "Memos")
    = Some (JArr [ JObj [ (lit "Memo",
                     JObj [ (lit "MemoType", JStr memoType);
                            (lit "MemoData", JStr memoData) ]) ] ]) /\
    (forall s, Memo.type m = Some s -> s <> [] ->
       memoType = uppercase_hex_of_utf8 s) /\
    (Memo.type m = None \/ Memo.type m = Some [] ->
       memoType = uppercase_hex_of_utf8 (lit "escrow") /\
       memoType = lit "657363726F77") /\
    memoType <> [] /\
    (forall s, Memo.data m = Some s -> memoData = uppercase_hex_of_utf8 s) /\
    (Memo.data m = None \/ Memo.data m = Some [] -> memoData = []) /\
    forallb is_upper_hex memoType = true /\
    forallb is_upper_hex memoData = true.
Proof.
  intros Hi Hs Hd Hm Htype Hdata Ha Hadds.
  destruct (@prepareEscrowCreate_runs X env p st st1 prepared Hi Hs Hd Ha)
    as (r & Hrun & Htx).
  assert (Htype' : code_units (str_or (Memo.type m) (lit "escrow"))).
  { destruct (Memo.type m) as [[|c s]|]; cbn [str_or];
      [| now apply Htype |]; repeat constructor. }
  assert (Hdata' : code_units (str_or (Memo.data m) [])).
  { destruct (Memo.data m) as [[|c s]|]; cbn [str_or];
      [| now apply Hdata |]; constructor. }
  exists r, (_toHex (str_or (Memo.type m) (lit "escrow"))),
            (_toHex (str_or (Memo.data m) [])).
  split; [exact Hrun|]. split; [exact Htx|].
  split; [|split; [|split; [|split; [|split; [|split; [|split]]]]]].
  - rewrite (Hadds _ _ Ha) by reflexivity.
    unfold escrowCreateTx. cbv zeta. rewrite Hm. apply obj_get_set_same.
  - intros s Ht Hne. rewrite toHex_uppercase_hex_of_utf8 by assumption.
    rewrite Ht. destruct s; [congruence | reflexivity].
  - intros [Ht|Ht]; rewrite Ht; split; reflexivity.
  - apply toHex_nonempty.
    destruct (str_or_cases (Memo.type m) (lit "escrow"))
      as [[_ ->]|[[_ ->]|(s & _ & Hne & ->)]]; try discriminate. exact Hne.
  - intros s Hsome. rewrite toHex_uppercase_hex_of_utf8 by assumption.
    rewrite Hsome. destruct s; reflexivity.
  - intros [Hnone|Hnone]; rewrite Hnone; reflexivity.
  - now apply toHex_alphabet.
  - now apply toHex_alphabet.
Qed.

(** The theorem on a memo whose type is the empty string. *)
Lemma memo_entry_encoding_witness :
  exists r st',
    prepareEscrowCreate (sample_lib None) sample_env
      (sample_create (Some 2000000000%Z) None
         (Some {| Memo.type := Some []; Memo.data := Some (lit "job-42") |}))
      connected = (inr r, st') /\
    obj_get (Prepared.transaction r) (lit "Memos")
    = Some (JArr [ JObj [ (lit "Memo",
                     JObj [ (lit "MemoType", JStr (lit "657363726F77"));
                            (lit "MemoData", JStr (lit "6A6F622D3432")) ]) ] ]).
Proof.
  assert (Htype : forall s,
            Memo.type {| Memo.type := Some [];
                         Memo.data := Some (lit "job-42") |} = Some s ->
            code_units s).
  { intros s [= <-]. constructor. }
  assert (Hdata : forall s,
            Memo.data {| Memo.type := Some [];
                         Memo.data := Some (lit "job-42") |} = Some s ->
            code_units s).
  { intros s [= <-]. repeat constructor. }
  destruct (@memo_entry_encoding (sample_lib None) sample_env
              (sample_create (Some 2000000000%Z) None
                 (Some {| Memo.type := Some [];
                          Memo.data := Some (lit "job-42") |}))
              {| Memo.type := Some []; Memo.data := Some (lit "job-42") |}
              connected connected
              (sample_autofill (escrowCreateTx
                 (sample_create (Some 2000000000%Z) None
                    (Some {| Memo.type := Some [];
                             Memo.data := Some (lit "job-42") |}))))
              eq_refl eq_refl eq_refl eq_refl Htype Hdata eq_refl
              (@sample_autofill_adds_only None))
    as (r & memoType & memoData & Hrun & Htx & Hmemos & _ & Htype' & _
        & Hdata' & _).
  exists r. eexists. split; [exact Hrun|].
  rewrite Htx, Hmemos.
  rewrite (proj2 (Htype' (or_intror eq_refl))), (Hdata' _ eq_refl).
  reflexivity.
Defined.

(* ================================================================= *)
(** * Further properties of the code *)
(* ================================================================= *)

(** ** The connection *)

Lemma getXRPLClient_client (X : XrplLib) (env : ProcessEnv) (st : ServiceState)
  (r : JsError + unit) (st' : ServiceState) :
  getXRPLClient X env st = (r, st') -> client st' = client st.
Proof.
  unfold getXRPLClient.
  set (url := if truthy_str (XRPL_SERVER_URL env) then _ else _).
  destruct (negb (truthy_str (XRPL_SERVER_URL env)) && inherited _);
    [run; now intros [= <- <-]|].
  destruct (truthy_str url); cbn [negb]; [|run; now intros [= <- <-]].
  destruct (Client_accepts (str_or url [])); cbn [negb];
    [|run; now intros [= <- <-]].
  run. destruct (client_connect X _) as [e|].
  - now intros [= <- <-].
  - destruct (client_server_info X) as [e|]; now intros [= <- <-].
Qed.

(** [initialize]: once it has returned the service holds a connected
    client, and calling it again makes no call at all; when it throws,
    [this.client] is what it was, so the next operation tries again. *)
Theorem initialize_connects_once (X : XrplLib) (env : ProcessEnv)
  (st : ServiceState) (r : JsError + unit) (st1 : ServiceState) :
  initialize X env st = (r, st1) ->
  (r = inr tt ->
     client st1 = Some true /\ initialize X env st1 = (inr tt, st1)) /\
  (forall e, r = inl e ->
     client st1 = client st /\ client st1 <> Some true).
Proof.
  unfold initialize at 1.
  assert (Hnot : client st <> Some true ->
    (getXRPLClient X env ;; set_client (Some true)) st = (r, st1) ->
    (r = inr tt ->
       client st1 = Some true /\ initialize X env st1 = (inr tt, st1)) /\
    (forall e, r = inl e ->
       client st1 = client st /\ client st1 <> Some true)).
  { intros Hc. unfold bind, set_client.
    destruct (getXRPLClient X env st) as [[e|[]] st'] eqn:Hg;
      apply getXRPLClient_client in Hg; intros [= <- <-]; split;
      try discriminate.
    - intros e' _. split; [exact Hg | now rewrite Hg].
    - intros _. split; [reflexivity|]. now apply initialize_connected. }
  destruct (client st) as [[|]|] eqn:Hc.
  - unfold ret. intros [= <- <-]. split; [|discriminate].
    intros _. split; [exact Hc | now apply initialize_connected].
  - apply Hnot. discriminate.
  - apply Hnot. discriminate.
Qed.

(** The theorem on the first call of a fresh service. *)
Lemma initialize_connects_once_witness :
  initialize (sample_lib None) sample_env just_connected
  = (inr tt, just_connected).
Proof.
  destruct (@initialize_connects_once (sample_lib None) sample_env fresh
              (inr tt) just_connected eq_refl) as (Hok & _).
  exact (proj2 (Hok eq_refl)).
Defined.

Lemma networks_get_listed (name url : jsstring) :
  In (name, url) NETWORKS -> networks_get NETWORKS name = Some url.
Proof.
  unfold NETWORKS. simpl.
  intros [[= <- <-]|[[= <- <-]|[[= <- <-]|[]]]]; reflexivity.
Qed.

Lemma networks_get_unlisted (name : jsstring) :
  ~ In name (map fst NETWORKS) -> networks_get NETWORKS name = None.
Proof.
  unfold NETWORKS. cbn [map fst networks_get]. intros Hn.
  destruct (jsstring_eqb (lit "testnet") name) eqn:E1;
    [apply jsstring_eqb_eq in E1; exfalso; apply Hn; simpl; auto|].
  destruct (jsstring_eqb (lit "mainnet") name) eqn:E2;
    [apply jsstring_eqb_eq in E2; exfalso; apply Hn; simpl; auto|].
  destruct (jsstring_eqb (lit "devnet") name) eqn:E3;
    [apply jsstring_eqb_eq in E3; exfalso; apply Hn; simpl; auto|].
  reflexivity.
Qed.

Lemma listed_urls_not_empty (name url : jsstring) :
  In (name, url) NETWORKS -> url <> [].
Proof.
  unfold NETWORKS. simpl.
  intros [[= <- <-]|[[= <- <-]|[[= <- <-]|[]]]]; discriminate.
Qed.

Lemma listed_urls_accepted (name url : jsstring) :
  In (name, url) NETWORKS -> Client_accepts url = true.
Proof.
  unfold NETWORKS. simpl.
  intros [[= <- <-]|[[= <- <-]|[[= <- <-]|[]]]]; reflexivity.
Qed.

Lemma listed_names_not_inherited (name url : jsstring) :
  In (name, url) NETWORKS -> inherited name = false.
Proof.
  intros Hin. unfold inherited. now rewrite (networks_get_listed Hin).
Qed.

(** The three ways [getXRPLClient] ends on a network of [NETWORKS]. *)
Lemma getXRPLClient_outcomes (X : XrplLib) (env : ProcessEnv)
  (st : ServiceState) (url : jsstring) :
  truthy_str (XRPL_SERVER_URL env) = false ->
  In (network_name env, url) NETWORKS ->
  getXRPLClient X env st
  = match client_connect X url with
    | Some e =>
        (inl (Error (lit "XRPL connection failed: " ++ message e)),
         {| client := client st; trace := trace st ++ [EvConnect url] |})
    | None =>
        match client_server_info X with
        | Some e =>
            (inl (Error (lit "XRPL connection failed: " ++ message e)),
             {| client := client st;
                trace := (trace st ++ [EvConnect url])
                           ++ [EvRequest ReqServerInfo] |})
        | None =>
            (inr tt,
             {| client := client st;
                trace := (trace st ++ [EvConnect url])
                           ++ [EvRequest ReqServerInfo] |})
        end
    end.
Proof.
  intros Hno Hin. unfold getXRPLClient.
  change (str_or (XRPL_NETWORK env) (lit "testnet")) with (network_name env).
  rewrite Hno, (listed_names_not_inherited Hin), (networks_get_listed Hin).
  pose proof (listed_urls_not_empty Hin) as Hne.
  pose proof (listed_urls_accepted Hin) as Hacc.
  destruct url as [|c u]; [congruence|].
  cbn [truthy_str negb andb str_or]. rewrite Hacc. cbn [negb]. run.
  destruct (client_connect X (c :: u)); [reflexivity|].
  destruct (client_server_info X); reflexivity.
Qed.

(** [getXRPLClient], with no [XRPL_SERVER_URL]: a network that is not
    named, or named by the empty string, is the testnet; a listed name
    is connected at its listed URL, before anything else; any other
    name (that is not inherited from [Object.prototype]) throws
    "Invalid network: <name>" and no call is made. *)
Theorem network_resolution (X : XrplLib) (env : ProcessEnv)
  (st : ServiceState) :
  truthy_str (XRPL_SERVER_URL env) = false ->
  (XRPL_NETWORK env = None \/ XRPL_NETWORK env = Some [] ->
     exists r st' rest,
       getXRPLClient X env st = (r, st') /\
       trace st' = trace st ++
         EvConnect (lit "wss://s.altnet.rippletest.net:51233") :: rest) /\
  (forall name url,
     XRPL_NETWORK env = Some name -> In (name, url) NETWORKS ->
     exists r st' rest,
       getXRPLClient X env st = (r, st') /\
       trace st' = trace st ++ EvConnect url :: rest) /\
  (forall name,
     XRPL_NETWORK env = Some name -> name <> [] ->
     ~ In name (map fst NETWORKS) ->
     ~ In name object_prototype_names ->
     getXRPLClient X env st
     = (inl (Error (lit "Invalid network: " ++ name)), st)).
Proof.
  intros Hno.
  assert (Hconnect : forall url, In (network_name env, url) NETWORKS ->
            exists r st' rest,
              getXRPLClient X env st = (r, st') /\
              trace st' = trace st ++ EvConnect url :: rest).
  { intros url Hin. rewrite (@getXRPLClient_outcomes X env st url Hno Hin).
    destruct (client_connect X url); [|destruct (client_server_info X)];
      do 3 eexists; (split; [reflexivity|]); cbn [trace];
      rewrite <- ?app_assoc; reflexivity. }
  split; [|split].
  - intros Hnet. apply Hconnect. unfold network_name.
    destruct Hnet as [-> | ->]; left; reflexivity.
  - intros name url Hname Hin.
    assert (Hnn : network_name env = name).
    { unfold network_name. rewrite Hname.
      pose proof (@listed_urls_not_empty _ _ Hin).
      unfold NETWORKS in Hin. simpl in Hin.
      destruct Hin as [[= <- <-]|[[= <- <-]|[[= <- <-]|[]]]]; reflexivity. }
    apply Hconnect. now rewrite Hnn.
  - intros name Hname Hne Hnot Hproto.
    assert (Hnn : network_name env = name).
    { unfold network_name. rewrite Hname. destruct name; [congruence|reflexivity]. }
    assert (Hinh : inherited name = false).
    { unfold inherited. rewrite (@networks_get_unlisted _ Hnot).
      destruct (existsb _ _) eqn:E; [|reflexivity].
      apply existsb_exists in E as (k & Hk & E).
      apply jsstring_eqb_eq in E. subst k. contradiction. }
    unfold getXRPLClient.
    change (str_or (XRPL_NETWORK env) (lit "testnet")) with (network_name env).
    rewrite Hno, Hnn, Hinh, (@networks_get_unlisted _ Hnot). reflexivity.
Qed.

(** The theorem on a network called "staging". *)
Lemma network_resolution_witness :
  getXRPLClient (sample_lib None)
    {| XRPL_NETWORK := Some (lit "staging"); XRPL_SERVER_URL := None |} fresh
  = (inl (Error (lit "Invalid network: staging")), fresh).
Proof.
  destruct (@network_resolution (sample_lib None)
              {| XRPL_NETWORK := Some (lit "staging");
                 XRPL_SERVER_URL := None |} fresh eq_refl)
    as (_ & _ & Hunknown).
  apply (Hunknown (lit "staging") eq_refl).
  - discriminate.
  - vm_compute. intuition discriminate.
  - vm_compute. intuition discriminate.
Defined.

(** [getXRPLClient] on a listed network, with no [XRPL_SERVER_URL]: a
    failure of [connect], or of the [server_info] probe after it, is
    thrown as a new error "XRPL connection failed: <message>", which
    keeps the message and drops the [data] of the original; after a
    failed [connect] the probe is not sent. *)
Theorem connection_failure_is_wrapped (X : XrplLib) (env : ProcessEnv)
  (st : ServiceState) (url : jsstring) :
  truthy_str (XRPL_SERVER_URL env) = false ->
  In (network_name env, url) NETWORKS ->
  (forall e, client_connect X url = Some e ->
     exists e',
       getXRPLClient X env st
       = (inl e', {| client := client st;
                     trace := trace st ++ [EvConnect url] |}) /\
       message e' = lit "XRPL connection failed: " ++ message e /\
       data_error e' = None) /\
  (forall e, client_connect X url = None -> client_server_info X = Some e ->
     exists e',
       getXRPLClient X env st
       = (inl e', {| client := client st;
                     trace := trace st ++
                       [EvConnect url; EvRequest ReqServerInfo] |}) /\
       message e' = lit "XRPL connection failed: " ++ message e /\
       data_error e' = None).
Proof.
  intros Hno Hin.
  split.
  - intros e He. rewrite (@getXRPLClient_outcomes X env st url Hno Hin), He.
    eexists. repeat split.
  - intros e Hc He. rewrite (@getXRPLClient_outcomes X env st url Hno Hin), Hc, He.
    eexists. rewrite <- app_assoc. repeat split.
Qed.

(** The theorem on the server that cannot be reached. *)
Lemma connection_failure_is_wrapped_witness :
  exists e',
    getXRPLClient unreachable_lib sample_env fresh
    = (inl e', {| client := None;
                  trace := [ EvConnect
                    (lit "wss://s.altnet.rippletest.net:51233") ] |}) /\
    message e' = lit "XRPL connection failed: connect ETIMEDOUT".
Proof.
  destruct (@connection_failure_is_wrapped unreachable_lib sample_env fresh
              (lit "wss://s.altnet.rippletest.net:51233") eq_refl
              (or_introl eq_refl)) as (Hfail & _).
  destruct (Hfail (Error (lit "connect ETIMEDOUT")) eq_refl)
    as (e' & Hrun & Hmsg & _).
  exists e'. split; [exact Hrun | exact Hmsg].
Defined.

(** ** What the operations ask of the ledger *)

Lemma initialize_adds (X : XrplLib) (env : ProcessEnv) (st : ServiceState) :
  exists conn,
    trace (snd (initialize X env st)) = trace st ++ conn /\
    forallb is_connection_event conn = true.
Proof.
  destruct (initialize X env st) as [r st1] eqn:Hi.
  destruct (initialize_trace _ _ _ Hi) as (conn & H1 & H2 & _).
  exists conn. auto.
Qed.

Lemma forallb_weaken (A : Type) (f g : A -> bool) (l : list A) :
  (forall x, f x = true -> g x = true) ->
  forallb f l = true -> forallb g l = true.
Proof.
  intros Hfg. induction l as [|x l IH]; [reflexivity|]. cbn [forallb].
  rewrite !andb_true_iff. intros [Hx Hl]. split; auto.
Qed.

Ltac after_initialize X env st conn Hc Hall :=
  destruct (initialize_adds X env st) as (conn & Hc & Hall);
  run; destruct (initialize X env st) as [[?e|[]] ?st1];
  cbn [snd] in Hc; cbn [snd trace].

Ltac added_events conn more Hc Hall :=
  exists (conn ++ more);
  split; [rewrite Hc, ?app_nil_r, <- ?app_assoc; reflexivity|];
  rewrite forallb_app, ?filter_app, ?length_app;
  split; [rewrite andb_true_iff; split; [|reflexivity];
          eapply forallb_weaken; [|exact Hall]; intros ev Hev;
          cbv beta; rewrite Hev; reflexivity
         |].

Lemma connection_events_filtered (conn : list Event) (f : Event -> bool) :
  forallb is_connection_event conn = true ->
  (forall ev, is_connection_event ev = true -> f ev = false) ->
  filter f conn = [].
Proof.
  intros Hall Hf. induction conn as [|ev conn IH]; [reflexivity|].
  cbn [forallb] in Hall. apply andb_true_iff in Hall as [Hev Hall].
  cbn [filter]. rewrite (Hf ev Hev). now apply IH.
Qed.

Lemma no_autofill_while_connecting (ev : Event) :
  is_connection_event ev = true -> is_autofill ev = false.
Proof. destruct ev as [| [] | | |]; simpl; congruence. Qed.



Lemma connecting_makes_no_autofill (conn : list Event) :
  forallb is_connection_event conn = true -> filter is_autofill conn = [].
Proof.
  intros Hall.
  apply (@connection_events_filtered conn is_autofill Hall
           no_autofill_while_connecting).
Qed.

Ltac settle_added conn more Hc Hall :=
  cbn [snd trace]; added_events conn more Hc Hall;
  rewrite (@connecting_makes_no_autofill conn Hall); simpl; lia.

(** The three prepare operations never encode or submit anything, in
    any outcome.  Beyond establishing the connection,
    [prepareEscrowCreate] and [prepareEscrowCancel] make at most one
    call, an autofill, and never query the account; only
    [prepareEscrowFinish] reads the account, and it too asks for at
    most one autofill. *)
Theorem prepare_operations_only_autofill (X : XrplLib) (env : ProcessEnv)
  (st : ServiceState) :
  (forall p, exists added,
     trace (snd (prepareEscrowCreate X env p st)) = trace st ++ added /\
     forallb (fun ev => is_connection_event ev || is_autofill ev) added = true /\
     (List.length (filter is_autofill added) <= 1)%nat) /\
  (forall p, exists added,
     trace (snd (prepareEscrowFinish X env p st)) = trace st ++ added /\
     forallb (fun ev => is_connection_event ev || is_account_query ev
                        || is_autofill ev) added = true /\
     (List.length (filter is_autofill added) <= 1)%nat) /\
  (forall p, exists added,
     trace (snd (prepareEscrowCancel X env p st)) = trace st ++ added /\
     forallb (fun ev => is_connection_event ev || is_autofill ev) added = true /\
     (List.length (filter is_autofill added) <= 1)%nat).
Proof.
  split; [|split]; intros p.
  - unfold prepareEscrowCreate. after_initialize X env st conn Hc Hall.
    + settle_added conn (@nil Event) Hc Hall.
    + destruct (negb (xrpl_isValidAddress X (CreateParams.sourceAddress p)));
        [settle_added conn (@nil Event) Hc Hall|].
      destruct (negb (xrpl_isValidAddress X
                        (CreateParams.destinationAddress p)));
        [settle_added conn (@nil Event) Hc Hall|].
      destruct (client_autofill X (escrowCreateTx p));
        settle_added conn [EvAutofill (escrowCreateTx p)] Hc Hall.
  - unfold prepareEscrowFinish. after_initialize X env st conn Hc Hall.
    + settle_added conn (@nil Event) Hc Hall.
    + destruct (negb (xrpl_isValidAddress X (FinishParams.finisherAddress p)));
        [settle_added conn (@nil Event) Hc Hall|].
      destruct (negb (xrpl_isValidAddress X (FinishParams.ownerAddress p)));
        [settle_added conn (@nil Event) Hc Hall|].
      destruct (client_account_info X (FinishParams.finisherAddress p))
        as [e|info];
        [settle_added conn
           [EvRequest (ReqAccountInfo (FinishParams.finisherAddress p))]
           Hc Hall|].
      destruct (client_autofill X (escrowFinishTx p)) as [e|prepared];
        [|destruct (signer_lists info) as [[|first rest]|]];
        settle_added conn
          [EvRequest (ReqAccountInfo (FinishParams.finisherAddress p));
           EvAutofill (escrowFinishTx p)] Hc Hall.
  - unfold prepareEscrowCancel. after_initialize X env st conn Hc Hall.
    + settle_added conn (@nil Event) Hc Hall.
    + destruct (negb (xrpl_isValidAddress X (CancelParams.cancellerAddress p)));
        [settle_added conn (@nil Event) Hc Hall|].
      destruct (negb (xrpl_isValidAddress X (CancelParams.ownerAddress p)));
        [settle_added conn (@nil Event) Hc Hall|].
      destruct (client_autofill X (escrowCancelTx p));
        settle_added conn [EvAutofill (escrowCancelTx p)] Hc Hall.
Qed.

Lemma no_read_while_connecting (ev : Event) :
  is_connection_event ev = true -> is_ledger_read ev = false.
Proof. destruct ev as [| [] | | |]; simpl; congruence. Qed.

Ltac settle_read conn more Hc Hall :=
  cbn [snd trace]; added_events conn more Hc Hall;
  rewrite (@connection_events_filtered conn is_ledger_read Hall
             no_read_while_connecting); simpl; lia.

(** [getEscrowStatus] and [getTransactionDetails] only read: in any
    outcome, beyond establishing the connection they send at most one
    query ([ledger_entry] or [tx]) and never autofill, encode or submit. *)
Theorem lookups_only_read (X : XrplLib) (env : ProcessEnv)
  (st : ServiceState) :
  (forall ownerAddress offerSequence, exists added,
     trace (snd (getEscrowStatus X env ownerAddress offerSequence st))
     = trace st ++ added /\
     forallb (fun ev => is_connection_event ev || is_ledger_read ev) added
     = true /\
     (List.length (filter is_ledger_read added) <= 1)%nat) /\
  (forall txHash, exists added,
     trace (snd (getTransactionDetails X env txHash st)) = trace st ++ added /\
     forallb (fun ev => is_connection_event ev || is_ledger_read ev) added
     = true /\
     (List.length (filter is_ledger_read added) <= 1)%nat).
Proof.
  split.
  - intros ownerAddress offerSequence. unfold getEscrowStatus.
    after_initialize X env st conn Hc Hall.
    + destruct (data_error e) as [code|];
        [destruct (jsstring_eqb code (lit "entryNotFound"))|];
        settle_read conn (@nil Event) Hc Hall.
    + destruct (client_ledger_entry X ownerAddress offerSequence) as [e|node];
        [destruct (data_error e) as [code|];
           [destruct (jsstring_eqb code (lit "entryNotFound"))|]|];
        settle_read conn
          [EvRequest (ReqLedgerEntry ownerAddress offerSequence)] Hc Hall.
  - intros txHash. unfold getTransactionDetails.
    after_initialize X env st conn Hc Hall.
    + settle_read conn (@nil Event) Hc Hall.
    + destruct (client_tx X txHash);
        settle_read conn [EvRequest (ReqTx txHash)] Hc Hall.
Qed.

(** ** Objects *)

Lemma existsb_eqb_In (k : jsstring) (l : list jsstring) :
  existsb (jsstring_eqb k) l = true <-> In k l.
Proof.
  rewrite existsb_exists. split.
  - intros (x & Hin & He). apply jsstring_eqb_eq in He. now subst.
  - intros Hin. exists k. split; [assumption | apply jsstring_eqb_refl].
Qed.

Lemma distinct_NoDup (l : list jsstring) : distinct l = true <-> NoDup l.
Proof.
  induction l as [|k l IH]; simpl.
  - split; [constructor | reflexivity].
  - rewrite andb_true_iff, negb_true_iff, IH. split.
    + intros [Hk Hl]. constructor; [|assumption].
      rewrite <- existsb_eqb_In. congruence.
    + intros H. inversion H as [|? ? Hk Hl]; subst. split; [|assumption].
      destruct (existsb (jsstring_eqb k) l) eqn:E; [|reflexivity].
      apply existsb_eqb_In in E. contradiction.
Qed.

Lemma obj_get_None_iff (o : jsobj) (k : jsstring) :
  obj_get o k = None <-> ~ In k (keys o).
Proof.
  induction o as [|[k' v'] o IH]; simpl.
  - tauto.
  - destruct (jsstring_eqb k' k) eqn:E.
    + apply jsstring_eqb_eq in E. split; [discriminate | tauto].
    + apply jsstring_eqb_neq in E. rewrite IH. tauto.
Qed.

Lemma obj_get_In (o : jsobj) (k : jsstring) (v : jsval) :
  obj_get o k = Some v -> In (k, v) o.
Proof.
  induction o as [|[k' v'] o IH]; simpl; [discriminate|].
  destruct (jsstring_eqb k' k) eqn:E.
  - apply jsstring_eqb_eq in E. intros [= <-]. left. congruence.
  - auto.
Qed.

(** Assigning a property keeps the names of the others, in place, and
    adds the name at the end when it is new. *)
Lemma keys_obj_set (o : jsobj) (k : jsstring) (v : jsval) :
  keys (obj_set o k v) = if existsb (jsstring_eqb k) (keys o)
                         then keys o else keys o ++ [k].
Proof.
  unfold keys. induction o as [|[k' v'] o IH]; [reflexivity|].
  cbn [obj_set map fst existsb].
  destruct (jsstring_eqb k' k) eqn:E.
  - pose proof E as E'. apply jsstring_eqb_eq in E'. subst k'.
    rewrite E. reflexivity.
  - assert (E' : jsstring_eqb k k' = false).
    { apply jsstring_eqb_neq. apply jsstring_eqb_neq in E. congruence. }
    rewrite E'. cbn [map fst orb]. rewrite IH.
    destruct (existsb (jsstring_eqb k) (map fst o)); reflexivity.
Qed.

Lemma obj_set_NoDup (o : jsobj) (k : jsstring) (v : jsval) :
  NoDup (keys o) -> NoDup (keys (obj_set o k v)).
Proof.
  intros Hnd. rewrite keys_obj_set.
  destruct (existsb (jsstring_eqb k) (keys o)) eqn:E; [assumption|].
  apply NoDup_app; [assumption | repeat constructor; simpl; tauto |].
  intros x Hx [<-|[]]. apply existsb_eqb_In in Hx. congruence.
Qed.

Lemma obj_spread_onto (t acc : jsobj) :
  NoDup (keys (acc ++ t)) ->
  fold_left (fun a kv => obj_set a (fst kv) (snd kv)) t acc = acc ++ t.
Proof.
  revert acc. induction t as [|[k v] t IH]; intros acc Hnd; simpl.
  - now rewrite app_nil_r.
  - assert (Hfresh : obj_get acc k = None).
    { apply obj_get_None_iff. unfold keys in *. rewrite map_app in Hnd.
      simpl in Hnd. apply NoDup_remove_2 in Hnd. intros Hin. apply Hnd.
      apply in_or_app. now left. }
    rewrite (@obj_set_fresh acc k v Hfresh). rewrite IH.
    + now rewrite <- app_assoc.
    + now rewrite <- app_assoc.
Qed.

(** The copy [{...o}] of an object is the object. *)
Lemma obj_spread_id (t : jsobj) : NoDup (keys t) -> obj_spread t = t.
Proof. intros Hnd. unfold obj_spread. now rewrite obj_spread_onto. Qed.

Lemma incl_by_eqb (l m : list jsstring) :
  forallb (fun k => existsb (jsstring_eqb k) m) l = true -> incl l m.
Proof.
  rewrite forallb_forall. intros H k Hk. apply existsb_eqb_In. now apply H.
Qed.

(** ** The descriptors *)

Lemma escrowCreateTx_fields (p : CreateParams.t) :
  let tx := escrowCreateTx p in
  obj_get tx (lit "TransactionType") = Some (JStr (lit "EscrowCreate")) /\
  obj_get tx (lit "Account")
  = Some (of_opt_str (CreateParams.sourceAddress p)) /\
  obj_get tx (lit "Destination")
  = Some (of_opt_str (CreateParams.destinationAddress p)) /\
  obj_get tx (lit "Amount") = Some (amount_value (CreateParams.amount p)) /\
  obj_get tx (lit "FinishAfter")
  = match CreateParams.finishAfter p with
    | Some t => if Z.eqb t 0 then None else Some (JNum (_toRippleTime t))
    | None => None
    end /\
  obj_get tx (lit "CancelAfter")
  = match CreateParams.cancelAfter p with
    | Some t => if Z.eqb t 0 then None else Some (JNum (_toRippleTime t))
    | None => None
    end /\
  obj_get tx (lit "Condition")
  = match CreateParams.condition p with
    | Some (c :: s) => Some (JStr (c :: s))
    | _ => None
    end /\
  obj_get tx (lit "Memos") = option_map memos_value (CreateParams.memo p) /\
  incl (keys tx) create_fields /\
  NoDup (keys tx).
Proof.
  destruct p as [src dst amount finishAfter cancelAfter condition memo].
  unfold escrowCreateTx. generalize _toRippleTime. intros shifted.
  cbn [CreateParams.sourceAddress CreateParams.destinationAddress
       CreateParams.amount CreateParams.finishAfter CreateParams.cancelAfter
       CreateParams.condition CreateParams.memo truthy_num truthy_str].
  destruct finishAfter as [f|]; cbn [truthy_num];
    [destruct (Z.eqb f 0)|];
    (destruct cancelAfter as [c|]; cbn [truthy_num];
     [destruct (Z.eqb c 0)|]);
    destruct condition as [[|c0 cs]|]; destruct memo as [m|];
    cbn [negb option_map truthy_str]; cbv zeta;
    (repeat split;
     [vm_compute; reflexivity .. | apply incl_by_eqb; vm_compute; reflexivity
                     | apply distinct_NoDup; vm_compute; reflexivity]).
Qed.

(** The descriptor [prepareEscrowCreate] builds, for any request.  The
    four mandatory properties are always there.  [FinishAfter] and
    [CancelAfter] are there exactly when the request has the time and it
    is not 0, shifted by [_toRippleTime]; [Condition] exactly when the
    request has a condition that is not the empty string; [Memos]
    exactly when the request has a memo object.  There is no other
    property, and none occurs twice.  The shift is by 946684800 exactly
    for every time that is left within 2^53 of zero, and rounded to a
    double beyond. *)
Theorem create_descriptor_fields (p : CreateParams.t) :
  let tx := escrowCreateTx p in
  obj_get tx (lit "TransactionType") = Some (JStr (lit "EscrowCreate")) /\
  obj_get tx (lit "Account")
  = Some (of_opt_str (CreateParams.sourceAddress p)) /\
  obj_get tx (lit "Destination")
  = Some (of_opt_str (CreateParams.destinationAddress p)) /\
  obj_get tx (lit "Amount") = Some (amount_value (CreateParams.amount p)) /\
  obj_get tx (lit "FinishAfter")
  = match CreateParams.finishAfter p with
    | Some t => if Z.eqb t 0 then None else Some (JNum (_toRippleTime t))
    | None => None
    end /\
  obj_get tx (lit "CancelAfter")
  = match CreateParams.cancelAfter p with
    | Some t => if Z.eqb t 0 then None else Some (JNum (_toRippleTime t))
    | None => None
    end /\
  obj_get tx (lit "Condition")
  = match CreateParams.condition p with
    | Some (c :: s) => Some (JStr (c :: s))
    | _ => None
    end /\
  obj_get tx (lit "Memos") = option_map memos_value (CreateParams.memo p) /\
  incl (keys tx) create_fields /\
  NoDup (keys tx) /\
  (forall t, (Z.abs (t - 946684800) <= 9007199254740992)%Z ->
     _toRippleTime t = (t - 946684800)%Z).
Proof.
  pose proof (escrowCreateTx_fields p) as H. cbv zeta in *.
  destruct H as (H1 & H2 & H3 & H4 & H5 & H6 & H7 & H8 & H9 & H10).
  do 10 (split; [assumption|]). exact toRippleTime_exact.
Qed.

(** The descriptor [prepareEscrowFinish] builds, for any request: the
    four mandatory properties, and [Fulfillment] exactly when the
    request has a fulfillment that is not the empty string. *)
Theorem finish_descriptor_fields (p : FinishParams.t) :
  let tx := escrowFinishTx p in
  obj_get tx (lit "TransactionType") = Some (JStr (lit "EscrowFinish")) /\
  obj_get tx (lit "Account")
  = Some (of_opt_str (FinishParams.finisherAddress p)) /\
  obj_get tx (lit "Owner") = Some (of_opt_str (FinishParams.ownerAddress p)) /\
  obj_get tx (lit "OfferSequence")
  = Some (of_opt_num (FinishParams.offerSequence p)) /\
  obj_get tx (lit "Fulfillment")
  = match FinishParams.fulfillment p with
    | Some (c :: s) => Some (JStr (c :: s))
    | _ => None
    end /\
  incl (keys tx)
    [ lit "TransactionType"; lit "Account"; lit "Owner";
      lit "OfferSequence"; lit "Fulfillment" ] /\
  NoDup (keys tx).
Proof.
  destruct p as [finisher owner seq fulfillment]. unfold escrowFinishTx.
  cbn [FinishParams.finisherAddress FinishParams.ownerAddress
       FinishParams.offerSequence FinishParams.fulfillment].
  destruct fulfillment as [[|c s]|]; cbn [truthy_str]; cbv zeta;
    (repeat split;
     [vm_compute; reflexivity ..
     | apply incl_by_eqb; vm_compute; reflexivity
     | apply distinct_NoDup; vm_compute; reflexivity]).
Qed.

(** [prepareEscrowCancel], once the connection is there and both
    addresses are valid: it asks for one autofill and nothing else.
    What autofill throws is thrown on as it is.  What it returns is the
    prepared transaction: when autofill adds only its own fields, an
    [EscrowCancel] of the canceller with the owner and the sequence of
    the request, and no [Destination], [Amount] or [Fulfillment]. *)
Theorem cancel_prepares_descriptor (X : XrplLib) (env : ProcessEnv)
  (p : CancelParams.t) (st st1 : ServiceState) :
  initialize X env st = (inr tt, st1) ->
  xrpl_isValidAddress X (CancelParams.cancellerAddress p) = true ->
  xrpl_isValidAddress X (CancelParams.ownerAddress p) = true ->
  let asked := {| client := client st1;
                  trace := trace st1 ++ [EvAutofill (escrowCancelTx p)] |} in
  (forall e, client_autofill X (escrowCancelTx p) = inl e ->
     prepareEscrowCancel X env p st = (inl e, asked)) /\
  (forall prepared,
     client_autofill X (escrowCancelTx p) = inr prepared ->
     autofill_adds_only X ->
     exists r,
       prepareEscrowCancel X env p st = (inr r, asked) /\
       Prepared.transaction r = prepared /\
       Instructions.signingRequired (Prepared.instructions r) = true /\
       obj_get prepared (lit "TransactionType")
       = Some (JStr (lit "EscrowCancel")) /\
       obj_get prepared (lit "Account")
       = Some (of_opt_str (CancelParams.cancellerAddress p)) /\
       obj_get prepared (lit "Owner")
       = Some (of_opt_str (CancelParams.ownerAddress p)) /\
       obj_get prepared (lit "OfferSequence")
       = Some (of_opt_num (CancelParams.offerSequence p)) /\
       obj_get prepared (lit "Destination") = None /\
       obj_get prepared (lit "Amount") = None /\
       obj_get prepared (lit "Fulfillment") = None).
Proof.
  intros Hi Hc Ho asked. split.
  - intros e He. unfold prepareEscrowCancel. run.
    rewrite Hi, Hc, Ho. cbn [negb]. now rewrite He.
  - intros prepared Ha Hadds. unfold prepareEscrowCancel. run.
    rewrite Hi, Hc, Ho. cbn [negb]. rewrite Ha.
    eexists. split; [reflexivity|]. cbn [Prepared.transaction
      Prepared.instructions Instructions.signingRequired].
    repeat split; rewrite (Hadds _ _ Ha) by reflexivity; reflexivity.
Qed.

(** The theorem on the sample ledger. *)
Lemma cancel_prepares_descriptor_witness :
  exists r st',
    prepareEscrowCancel (sample_lib None) sample_env
      {| CancelParams.cancellerAddress := Some sample_source;
         CancelParams.ownerAddress := Some sample_source;
         CancelParams.offerSequence := Some 7%Z |} connected = (inr r, st') /\
    obj_get (Prepared.transaction r) (lit "TransactionType")
    = Some (JStr (lit "EscrowCancel")).
Proof.
  destruct (@cancel_prepares_descriptor (sample_lib None) sample_env
              {| CancelParams.cancellerAddress := Some sample_source;
                 CancelParams.ownerAddress := Some sample_source;
                 CancelParams.offerSequence := Some 7%Z |}
              connected connected eq_refl eq_refl eq_refl) as (_ & Hok).
  destruct (Hok _ eq_refl (@sample_autofill_adds_only None))
    as (r & Hrun & Htx & _ & Htype & _).
  exists r. eexists. split; [exact Hrun|]. now rewrite Htx.
Defined.

(** ** Multisig assembly *)

Lemma multisigned_keys_NoDup (transaction : option jsobj)
  (signers : list jsval) :
  (forall t, transaction = Some t -> NoDup (keys t)) ->
  NoDup (keys (multisigned transaction signers)).
Proof.
  intros Hnd. unfold multisigned. do 2 apply obj_set_NoDup.
  destruct transaction as [t|]; [|constructor].
  rewrite obj_spread_id; auto.
Qed.

(** [submitMultisigTransaction] changes nothing else in the prepared
    transaction: every property other than [Signers] and
    [SigningPubKey] is in the multisigned descriptor with the value it
    had, properties it did not have are not added, and no property
    occurs twice (a [Signers] or [SigningPubKey] that was there is
    replaced, not repeated). *)
Theorem multisigned_keeps_other_fields (t : jsobj) (signers : list jsval) :
  NoDup (keys t) ->
  (forall k, k <> lit "Signers" -> k <> lit "SigningPubKey" ->
     obj_get (multisigned (Some t) signers) k = obj_get t k) /\
  NoDup (keys (multisigned (Some t) signers)) /\
  incl (keys t) (keys (multisigned (Some t) signers)).
Proof.
  intros Hnd. split; [|split].
  - intros k Hs Hk. unfold multisigned.
    rewrite !obj_get_set_other by congruence. now rewrite obj_spread_id.
  - apply multisigned_keys_NoDup. now intros ? [= <-].
  - unfold multisigned. rewrite obj_spread_id by assumption.
    intros k Hk. rewrite !keys_obj_set.
    repeat match goal with
           | |- context [if ?b then _ else _] => destruct b
           end; auto using in_or_app.
Qed.

(** The theorem on the sample transaction, which has a [Sequence]. *)
Lemma multisigned_keeps_other_fields_witness :
  obj_get (multisigned (Some sample_transaction) []) (lit "Sequence")
  = Some (JNum 7).
Proof.
  assert (Hnd : NoDup (keys sample_transaction))
    by (apply distinct_NoDup; vm_compute; reflexivity).
  destruct (@multisigned_keeps_other_fields sample_transaction [] Hnd)
    as (Hkeep & _).
  rewrite Hkeep; [reflexivity | |];
    apply jsstring_eqb_neq; vm_compute; reflexivity.
Defined.

(** ** Submission *)

(** [submitTransaction], once the connection is there and the ledger
    answers: the blob goes to [client.submit] unchanged, once; the
    result is [success = true] exactly when the engine result is
    "tesSUCCESS", and [validated] is the ledger's flag, [false] when the
    answer has none. *)
Theorem signed_blob_submission (X : XrplLib) (env : ProcessEnv)
  (signedTxBlob : jsstring) (st st1 : ServiceState) (resp : SubmitResponse) :
  initialize X env st = (inr tt, st1) ->
  client_submit X signedTxBlob = inr resp ->
  exists r,
    submitTransaction X env signedTxBlob st
    = (inr r, {| client := client st1;
                 trace := trace st1 ++ [EvSubmit signedTxBlob] |}) /\
    (Submitted.success r = true <-> engine_result resp = lit "tesSUCCESS") /\
    Submitted.txHash r = tx_json_hash resp /\
    Submitted.resultCode r = engine_result resp /\
    Submitted.resultMessage r = engine_result_message resp /\
    (forall b, validated resp = Some b -> Submitted.validated r = b) /\
    (validated resp = None -> Submitted.validated r = false).
Proof.
  intros Hi Hs. unfold submitTransaction. run. rewrite Hi, Hs.
  eexists. split; [reflexivity|]. cbn.
  split; [apply jsstring_eqb_eq|]. repeat split.
  - now intros b ->.
  - now intros ->.
Qed.

(** The theorem on the sample ledger, which rejects. *)
Lemma signed_blob_submission_witness :
  exists r st',
    submitTransaction (sample_lib None) sample_env (lit "1200002280000000")
      connected = (inr r, st') /\
    Submitted.success r <> true /\
    Submitted.validated r = false.
Proof.
  destruct (@signed_blob_submission (sample_lib None) sample_env
              (lit "1200002280000000") connected connected sample_rejection
              eq_refl eq_refl)
    as (r & Hrun & Hsucc & _ & _ & _ & _ & Hval).
  exists r. eexists. split; [exact Hrun|]. split.
  - intros H. apply Hsucc in H. vm_compute in H. discriminate H.
  - exact (Hval eq_refl).
Defined.

(** [submitMultisigTransaction], once the connection is there.  When
    [xrpl.encode] throws, its error is thrown on and nothing is
    submitted.  When it returns a blob, that blob is what is submitted,
    and with the ledger's answer the result counts the signatures,
    lists their signers in the caller's order, and has [success = true]
    exactly when the engine result is "tesSUCCESS". *)
Theorem multisig_submission_result (X : XrplLib) (env : ProcessEnv)
  (p : MultisigParams.t) (sigs : list Signature.t) (st st1 : ServiceState) :
  initialize X env st = (inr tt, st1) ->
  MultisigParams.signatures p = Some sigs ->
  let tx := multisigned (MultisigParams.transaction p)
              (map signer_entry sigs) in
  (forall e, xrpl_encode X tx = inl e ->
     submitMultisigTransaction X env p st
     = (inl e, {| client := client st1;
                  trace := trace st1 ++ [EvEncode tx] |})) /\
  (forall blob e, xrpl_encode X tx = inr blob ->
     client_submit X blob = inl e ->
     submitMultisigTransaction X env p st
     = (inl e, {| client := client st1;
                  trace := trace st1 ++ [EvEncode tx; EvSubmit blob] |})) /\
  (forall blob resp, xrpl_encode X tx = inr blob ->
     client_submit X blob = inr resp ->
     exists r,
       submitMultisigTransaction X env p st
       = (inr r, {| client := client st1;
                    trace := trace st1 ++ [EvEncode tx; EvSubmit blob] |}) /\
       (MultisigSubmitted.success r = true
        <-> engine_result resp = lit "tesSUCCESS") /\
       MultisigSubmitted.resultCode r = engine_result resp /\
       MultisigSubmitted.signerCount r = Z.of_nat (List.length sigs) /\
       MultisigSubmitted.signers r
       = map (fun s => of_opt_str (Signature.signer s)) sigs).
Proof.
  intros Hi Hs tx. split; [|split].
  - intros e He. unfold submitMultisigTransaction. run. rewrite Hi, Hs.
    fold tx. rewrite He. reflexivity.
  - intros blob e Hb He. unfold submitMultisigTransaction. run.
    rewrite Hi, Hs. fold tx. rewrite Hb. cbn [trace client]. rewrite He.
    rewrite <- app_assoc. reflexivity.
  - intros blob resp Hb Hr. unfold submitMultisigTransaction. run.
    rewrite Hi, Hs. fold tx. rewrite Hb. cbn [trace client]. rewrite Hr.
    eexists. rewrite <- app_assoc. split; [reflexivity|]. cbn.
    split; [apply jsstring_eqb_eq|]. repeat split.
Qed.

(** The theorem on two signatures. *)
Lemma multisig_submission_result_witness :
  exists r st',
    submitMultisigTransaction (sample_lib None) sample_env
      {| MultisigParams.transaction := Some sample_transaction;
         MultisigParams.signatures := Some
           [ sample_signature sample_source;
             sample_signature sample_destination ] |} connected
    = (inr r, st') /\
    MultisigSubmitted.signerCount r = 2%Z /\
    MultisigSubmitted.signers r
    = [ JStr sample_source; JStr sample_destination ].
Proof.
  destruct (@multisig_submission_result (sample_lib None) sample_env
              {| MultisigParams.transaction := Some sample_transaction;
                 MultisigParams.signatures := Some
                   [ sample_signature sample_source;
                     sample_signature sample_destination ] |}
              [ sample_signature sample_source;
                sample_signature sample_destination ]
              connected connected eq_refl eq_refl) as (_ & _ & Hok).
  destruct (Hok (lit "1200002280000000") sample_rejection eq_refl eq_refl)
    as (r & Hrun & _ & _ & Hcount & Hsigners).
  exists r. eexists. split; [exact Hrun|]. split; assumption.
Defined.

(** ** Lookups *)

Lemma getEscrowStatus_found (X : XrplLib) (env : ProcessEnv)
  (ownerAddress : option jsstring) (offerSequence : Z)
  (st st1 : ServiceState) (node : EscrowNode) :
  initialize X env st = (inr tt, st1) ->
  client_ledger_entry X ownerAddress offerSequence = inr node ->
  exists d,
    getEscrowStatus X env ownerAddress offerSequence st
    = (inr {| Status.success := true;
              Status.escrow := Some d;
              Status.status := lit "active";
              Status.message := None |},
       {| client := client st1;
          trace := trace st1 ++
            [EvRequest (ReqLedgerEntry ownerAddress offerSequence)] |}) /\
    EscrowDetails.owner d = Account node /\
    EscrowDetails.destination d = Destination node /\
    EscrowDetails.amount d = Amount node /\
    EscrowDetails.previousTxnID d = PreviousTxnID node /\
    EscrowDetails.finishAfter d
    = option_map _fromRippleTime (FinishAfter node) /\
    EscrowDetails.cancelAfter d
    = (if truthy_num (CancelAfter node)
       then option_map _fromRippleTime (CancelAfter node) else None) /\
    EscrowDetails.condition d
    = (if truthy_str (Condition node) then Condition node else None) /\
    EscrowDetails.sourceTag d
    = (if truthy_num (SourceTag node) then SourceTag node else None) /\
    EscrowDetails.destinationTag d
    = (if truthy_num (DestinationTag node) then DestinationTag node
       else None).
Proof.
  intros Hi Hq. unfold getEscrowStatus. run. rewrite Hi, Hq.
  eexists. split; [reflexivity|]. repeat split.
Qed.

(** [getEscrowStatus] gives back the times of the request that created
    the escrow, when they are times the codec translates without
    rounding: for an entry whose [FinishAfter] and [CancelAfter] are
    what [_toRippleTime] made of such a [finishAfter] and [cancelAfter],
    the status is "active" with exactly these two times, except that a
    [cancelAfter] of 946684800 (the ledger's time 0) comes back as
    [null], like a missing one. *)
Theorem status_returns_request_times (X : XrplLib) (env : ProcessEnv)
  (ownerAddress : option jsstring) (offerSequence : Z)
  (st st1 : ServiceState) (node : EscrowNode) (finishAfter : Z) :
  initialize X env st = (inr tt, st1) ->
  client_ledger_entry X ownerAddress offerSequence = inr node ->
  exact_time finishAfter ->
  FinishAfter node = Some (_toRippleTime finishAfter) ->
  exists r d st',
    getEscrowStatus X env ownerAddress offerSequence st = (inr r, st') /\
    Status.status r = lit "active" /\
    Status.escrow r = Some d /\
    EscrowDetails.finishAfter d = Some finishAfter /\
    (forall cancelAfter,
       exact_time cancelAfter ->
       CancelAfter node = Some (_toRippleTime cancelAfter) ->
       cancelAfter <> 946684800%Z ->
       EscrowDetails.cancelAfter d = Some cancelAfter) /\
    (CancelAfter node = None \/
     CancelAfter node = Some (_toRippleTime 946684800) ->
     EscrowDetails.cancelAfter d = None).
Proof.
  intros Hi Hq Hexact Hf.
  assert (Hback : forall t, exact_time t ->
            _toRippleTime t = (t - 946684800)%Z /\
            _fromRippleTime (_toRippleTime t) = t).
  { unfold exact_time. intros t Ht.
    rewrite toRippleTime_exact by lia. split; [reflexivity|].
    rewrite fromRippleTime_exact by lia. lia. }
  destruct (getEscrowStatus_found X env ownerAddress offerSequence st Hi Hq)
    as (d & Hrun & _ & _ & _ & _ & Hfin & Hcan & _).
  do 3 eexists. split; [exact Hrun|]. cbn [Status.status Status.escrow].
  split; [reflexivity|]. split; [reflexivity|]. split; [|split].
  - rewrite Hfin, Hf. cbn [option_map]. f_equal. now apply Hback.
  - intros c Hexact' Hc Hne. rewrite Hcan, Hc. cbn [truthy_num].
    destruct (Hback c Hexact') as [Hto Hround].
    assert (E : Z.eqb (_toRippleTime c) 0 = false)
      by (apply Z.eqb_neq; rewrite Hto; lia).
    rewrite E. cbn [negb option_map]. f_equal. exact Hround.
  - intros [Hc|Hc]; rewrite Hcan, Hc; reflexivity.
Qed.

(** The theorem on the sample escrow, to be finished at 2000000000. *)
Lemma status_returns_request_times_witness :
  exists r d st',
    getEscrowStatus (sample_lib_with (sample_node (Some 1053318800%Z)) (inr []))
      sample_env (Some sample_source) 7 connected = (inr r, st') /\
    Status.escrow r = Some d /\
    EscrowDetails.finishAfter d = Some 2000000000%Z /\
    EscrowDetails.cancelAfter d = Some 2000003600%Z.
Proof.
  destruct (@status_returns_request_times
              (sample_lib_with (sample_node (Some 1053318800%Z)) (inr []))
              sample_env (Some sample_source) 7%Z connected connected
              (sample_node (Some 1053318800%Z)) 2000000000%Z
              eq_refl eq_refl)
    as (r & d & st' & Hrun & _ & Hesc & Hfin & Hcan & _);
    [unfold exact_time; lia | reflexivity |].
  exists r, d, st'. repeat split; try assumption.
  apply Hcan; [unfold exact_time; lia | reflexivity | discriminate].
Defined.

(** [getEscrowStatus] reports a falsy value of the entry as [null]: a
    [Condition] that is the empty string, and a [SourceTag] or
    [DestinationTag] that is 0, come back as [null], exactly like a
    missing one; any other value comes back as it is. *)
Theorem status_nulls_falsy_fields (X : XrplLib) (env : ProcessEnv)
  (ownerAddress : option jsstring) (offerSequence : Z)
  (st st1 : ServiceState) (node : EscrowNode) :
  initialize X env st = (inr tt, st1) ->
  client_ledger_entry X ownerAddress offerSequence = inr node ->
  exists r d st',
    getEscrowStatus X env ownerAddress offerSequence st = (inr r, st') /\
    Status.escrow r = Some d /\
    (SourceTag node = Some 0%Z \/ SourceTag node = None ->
       EscrowDetails.sourceTag d = None) /\
    (forall tag, SourceTag node = Some tag -> tag <> 0%Z ->
       EscrowDetails.sourceTag d = Some tag) /\
    (DestinationTag node = Some 0%Z \/ DestinationTag node = None ->
       EscrowDetails.destinationTag d = None) /\
    (forall tag, DestinationTag node = Some tag -> tag <> 0%Z ->
       EscrowDetails.destinationTag d = Some tag) /\
    (Condition node = Some [] \/ Condition node = None ->
       EscrowDetails.condition d = None) /\
    (forall c, Condition node = Some c -> c <> [] ->
       EscrowDetails.condition d = Some c).
Proof.
  intros Hi Hq.
  destruct (getEscrowStatus_found X env ownerAddress offerSequence st Hi Hq)
    as (d & Hrun & _ & _ & _ & _ & _ & _ & Hcond & Hsrc & Hdst).
  do 3 eexists. split; [exact Hrun|]. split; [reflexivity|].
  rewrite Hcond, Hsrc, Hdst. repeat split.
  - intros [-> | ->]; reflexivity.
  - intros tag -> Hne. cbn. apply Z.eqb_neq in Hne. now rewrite Hne.
  - intros [-> | ->]; reflexivity.
  - intros tag -> Hne. cbn. apply Z.eqb_neq in Hne. now rewrite Hne.
  - intros [-> | ->]; reflexivity.
  - intros c -> Hne. destruct c; [congruence | reflexivity].
Qed.

(** The theorem on the sample escrow, whose destination tag is 0. *)
Lemma status_nulls_falsy_fields_witness :
  exists r d st',
    getEscrowStatus (sample_lib_with (sample_node None) (inr []))
      sample_env (Some sample_source) 7 connected = (inr r, st') /\
    Status.escrow r = Some d /\
    DestinationTag (sample_node None) = Some 0%Z /\
    EscrowDetails.destinationTag d = None.
Proof.
  destruct (@status_nulls_falsy_fields
              (sample_lib_with (sample_node None) (inr []))
              sample_env (Some sample_source) 7%Z connected connected
              (sample_node None) eq_refl eq_refl)
    as (r & d & st' & Hrun & Hesc & _ & _ & Hdst & _).
  exists r, d, st'. repeat split; try assumption.
  apply Hdst. now left.
Defined.

(** [getTransactionDetails] translates nothing: the record of the ledger
    is returned as it is, with its own [validated], and every error of
    the query is thrown on, also the one whose [data.error] is
    "entryNotFound", which [getEscrowStatus] turns into a status. *)
Theorem transaction_lookup_translates_nothing (X : XrplLib)
  (env : ProcessEnv) (txHash : jsstring) (st st1 : ServiceState) :
  initialize X env st = (inr tt, st1) ->
  (forall response, client_tx X txHash = inr response ->
     getTransactionDetails X env txHash st
     = (inr {| TxDetails.success := true;
               TxDetails.transaction := response;
               TxDetails.validated := obj_get response (lit "validated") |},
        {| client := client st1;
           trace := trace st1 ++ [EvRequest (ReqTx txHash)] |})) /\
  (forall e, client_tx X txHash = inl e ->
     getTransactionDetails X env txHash st
     = (inl e, {| client := client st1;
                  trace := trace st1 ++ [EvRequest (ReqTx txHash)] |})) /\
  (forall e ownerAddress offerSequence,
     client_tx X txHash = inl e ->
     client_ledger_entry X ownerAddress offerSequence = inl e ->
     data_error e = Some (lit "entryNotFound") ->
     fst (getTransactionDetails X env txHash st) = inl e /\
     exists r, fst (getEscrowStatus X env ownerAddress offerSequence st)
               = inr r).
Proof.
  intros Hi. split; [|split].
  - intros response Hq. unfold getTransactionDetails. run.
    now rewrite Hi, Hq.
  - intros e Hq. unfold getTransactionDetails. run. now rewrite Hi, Hq.
  - intros e ownerAddress offerSequence Hq Hl He. split.
    + unfold getTransactionDetails. run. now rewrite Hi, Hq.
    + unfold getEscrowStatus. run. rewrite Hi, Hl, He.
      rewrite jsstring_eqb_refl. eexists. reflexivity.
Qed.

(** The theorem on a ledger that does not know the transaction. *)
Lemma transaction_lookup_translates_nothing_witness :
  fst (getTransactionDetails
         (sample_lib_with (sample_node None) (inl sample_entryNotFound))
         sample_env (lit "E3FE6EA3D48F0C2B") connected)
  = inl sample_entryNotFound.
Proof.
  destruct (@transaction_lookup_translates_nothing
              (sample_lib_with (sample_node None) (inl sample_entryNotFound))
              sample_env (lit "E3FE6EA3D48F0C2B") connected connected eq_refl)
    as (_ & Hthrow & _).
  rewrite (Hthrow sample_entryNotFound eq_refl). reflexivity.
Defined.

(** ** The schemas *)

(** What [xrplAddress] accepts: a string of 26 to 35 characters that
    starts with "r" and goes on in the base58 alphabet, so without "0",
    "O", "I" and "l". *)
Theorem address_pattern_shape (s : jsstring) :
  xrplAddress_pattern s = true ->
  (26 <= List.length s <= 35)%nat /\
  (exists rest, s = 114%N :: rest /\
     forall c, In c rest ->
       c <> 48%N /\ c <> 79%N /\ c <> 73%N /\ c <> 108%N /\
       (49 <= c <= 122)%N).
Proof.
  destruct s as [|c rest]; [discriminate|]. unfold xrplAddress_pattern.
  rewrite !andb_true_iff. intros [[[Hr Hall] Hlo] Hhi].
  apply N.eqb_eq in Hr. apply Nat.leb_le in Hlo, Hhi. subst c.
  split; [simpl; lia|]. exists rest. split; [reflexivity|].
  intros c Hc. rewrite forallb_forall in Hall. specialize (Hall c Hc).
  unfold base58_char, in_range in Hall.
  rewrite !orb_true_iff, !andb_true_iff, !N.leb_le in Hall. lia.
Qed.

(** The theorem on the sample address. *)
Lemma address_pattern_shape_witness :
  (26 <= List.length sample_source <= 35)%nat.
Proof.
  exact (proj1 (@address_pattern_shape sample_source eq_refl)).
Defined.

Lemma app_nil_iff (A : Type) (l m : list A) :
  l ++ m = [] <-> l = [] /\ m = [].
Proof.
  split; [apply app_eq_nil | intros [-> ->]; reflexivity].
Qed.

Lemma string_required_nil (p : list PathSeg) (rule : jsstring -> list JoiCode)
  (v : option jsstring) :
  string_required p rule v = [] <->
  exists s, v = Some s /\ s <> [] /\ rule s = [].
Proof.
  unfold string_required. destruct v as [[|c s]|].
  - split; [discriminate|]. intros (s & [= <-] & Hne & _).
    exfalso. now apply Hne.
  - split.
    + intros H. exists (c :: s). repeat split; [discriminate|].
      destruct (rule (c :: s)); [reflexivity | discriminate].
    + intros (s' & [= <-] & _ & ->). reflexivity.
  - split; [discriminate|]. intros (s & [=] & _).
Qed.

Lemma string_optional_nil (p : list PathSeg) (rule : jsstring -> list JoiCode)
  (v : option jsstring) :
  string_optional p rule v = [] <->
  v <> Some [] /\ (forall s, v = Some s -> rule s = []).
Proof.
  unfold string_optional. destruct v as [[|c s]|].
  - split; [discriminate|]. intros [H _]. exfalso. now apply H.
  - split.
    + intros H. split; [discriminate|]. intros s' [= <-].
      destruct (rule (c :: s)); [reflexivity | discriminate].
    + intros [_ H]. now rewrite (H _ eq_refl).
  - split; [|reflexivity]. intros _. split; discriminate.
Qed.

Lemma xrplAddress_nil (p : list PathSeg) (v : option jsstring) :
  xrplAddress p v = [] <-> matches_address v.
Proof.
  unfold xrplAddress, matches_address. rewrite string_required_nil.
  unfold pattern_rule. split.
  - intros (s & Hv & _ & Hr). exists s. split; [assumption|].
    destruct (xrplAddress_pattern s); [reflexivity | discriminate].
  - intros (s & Hv & Hp). exists s. rewrite Hp. repeat split; auto.
    intros ->. discriminate.
Qed.

Lemma positive_required_nil (p : list PathSeg) (v : option Z) :
  positive_required p v = []
  <-> exists n, v = Some n /\ (0 < n)%Z /\ safe_integer n.
Proof.
  unfold positive_required, safe_integer. destruct v as [n|].
  - rewrite number_rules_nil, is_safe_integer_spec. unfold positive_rule.
    split.
    + intros [Hsafe Hpos]. exists n. split; [reflexivity|].
      destruct (Z.ltb_spec 0 n); [auto | discriminate].
    + intros (n' & [= <-] & Hn & Hsafe). split; [assumption|].
      apply Z.ltb_lt in Hn. now rewrite Hn.
  - split; [discriminate|]. intros (n & [=] & _).
Qed.

Lemma no_rule_optional (p : list PathSeg) (v : option jsstring) :
  string_optional p no_rule v = [] <-> absent_or_filled v.
Proof.
  rewrite string_optional_nil. unfold absent_or_filled, no_rule. tauto.
Qed.

(** What [escrowFinishSchema] and [escrowCancelSchema] let through:
    exactly the bodies whose two addresses match the address pattern,
    whose [offerSequence] is there, positive and a safe integer and,
    for a finish, whose [fulfillment] is not the empty string. *)
Theorem finish_and_cancel_schemas_accept :
  (forall body,
     escrowFinishSchema body = [] <->
     matches_address (FinishParams.finisherAddress body) /\
     matches_address (FinishParams.ownerAddress body) /\
     (exists n, FinishParams.offerSequence body = Some n /\ (0 < n)%Z /\
                safe_integer n) /\
     absent_or_filled (FinishParams.fulfillment body)) /\
  (forall body,
     escrowCancelSchema body = [] <->
     matches_address (CancelParams.cancellerAddress body) /\
     matches_address (CancelParams.ownerAddress body) /\
     (exists n, CancelParams.offerSequence body = Some n /\ (0 < n)%Z /\
                safe_integer n)).
Proof.
  split; intros body.
  - unfold escrowFinishSchema.
    rewrite !app_nil_iff, !xrplAddress_nil, positive_required_nil,
      no_rule_optional. tauto.
  - unfold escrowCancelSchema.
    rewrite !app_nil_iff, !xrplAddress_nil, positive_required_nil. tauto.
Qed.

Lemma signature_items_nil (i : nat) (sigs : list Signature.t) :
  signature_items i sigs = [] <->
  Forall (fun sig =>
            matches_address (Signature.signer sig) /\
            (exists s, Signature.signature sig = Some s /\ s <> []) /\
            absent_or_filled (Signature.publicKey sig)) sigs.
Proof.
  revert i. induction sigs as [|sig sigs IH]; intros i; simpl.
  - split; [constructor | reflexivity].
  - rewrite app_nil_iff, IH. unfold signature_item.
    rewrite !app_nil_iff, xrplAddress_nil, string_required_nil,
      no_rule_optional.
    split.
    + intros [(Ha & (s & Hs & Hne & _) & Hk) Hrest].
      constructor; [|assumption]. repeat split; eauto.
    + intros H. inversion H as [|? ? (Ha & (s & Hs & Hne) & Hk) Hrest]; subst.
      repeat split; auto. exists s. repeat split; auto.
Qed.

(** What [multisigSubmitSchema] lets through: exactly the bodies with a
    transaction and at least one signature, where every signature has a
    signer that matches the address pattern, a [signature] that is not
    empty, and a [publicKey] that is not the empty string. *)
Theorem multisig_schema_accepts (body : MultisigParams.t) :
  multisigSubmitSchema body = [] <->
  MultisigParams.transaction body <> None /\
  exists sigs,
    MultisigParams.signatures body = Some sigs /\ sigs <> [] /\
    Forall (fun sig =>
              matches_address (Signature.signer sig) /\
              (exists s, Signature.signature sig = Some s /\ s <> []) /\
              absent_or_filled (Signature.publicKey sig)) sigs.
Proof.
  unfold multisigSubmitSchema. rewrite app_nil_iff. split.
  - intros [Ht Hs]. split.
    + destruct (MultisigParams.transaction body); [discriminate|discriminate].
    + destruct (MultisigParams.signatures body) as [sigs|]; [|discriminate].
      apply app_nil_iff in Hs as [Hitems Hmin]. exists sigs.
      split; [reflexivity|]. split.
      * destruct sigs; [discriminate | discriminate].
      * now apply (signature_items_nil 0).
  - intros [Ht (sigs & Hs & Hne & Hall)]. rewrite Hs. split.
    + destruct (MultisigParams.transaction body); [reflexivity|congruence].
    + apply app_nil_iff. split; [now apply signature_items_nil|].
      destruct sigs; [congruence | reflexivity].
Qed.

Lemma amount_rule_nil (p : list PathSeg) (a : option AmountParam) :
  amount_rule p a = [] <-> accepted_amount a.
Proof.
  unfold amount_rule, accepted_amount.
  destruct a as [[s|c v i]|].
  - rewrite string_required_nil. unfold pattern_rule. split.
    + intros (s' & [= <-] & _ & Hr). left. exists s. split; [reflexivity|].
      destruct (digits_pattern s); [reflexivity | discriminate].
    + intros [(s' & [= <-] & Hd)|(c & v & i & [=] & _)].
      exists s. rewrite Hd. repeat split. intros ->. discriminate.
  - split.
    + destruct (_ ++ _) as [|d [|d' l]] eqn:E; [|discriminate..].
      intros _. right.
      rewrite !app_nil_iff, !string_required_nil, xrplAddress_nil in E.
      destruct E as ((c' & -> & _ & Hc) & (v' & -> & Hv & _) & (i' & -> & Hi)).
      exists c', v', i'. repeat split; auto.
      unfold length_rule in Hc.
      destruct (Nat.eqb_spec (List.length c') 3); [assumption|discriminate].
    + intros [(s & [=] & _)|(c' & v' & i' & [= -> -> ->] & Hc & Hv & Hi)].
      assert (E : string_required (p ++ [Key "currency"]) (length_rule 3)
                    (Some c') ++
                  string_required (p ++ [Key "value"]) no_rule (Some v') ++
                  xrplAddress (p ++ [Key "issuer"]) (Some i') = []).
      { rewrite !app_nil_iff, !string_required_nil, xrplAddress_nil.
        repeat split.
        - exists c'. repeat split; [intros ->; discriminate|].
          unfold length_rule. now rewrite Hc.
        - exists v'. repeat split; auto.
        - now exists i'. }
      now rewrite E.
  - split; [discriminate|].
    intros [(s & [=] & _)|(c & v & i & [=] & _)].
Qed.

(** What [escrowCreateSchema] lets through: exactly the bodies whose two
    addresses match the address pattern, whose amount is a string of
    digits or a full issued currency, whose [finishAfter] is there, a
    safe integer and not before the time the module was loaded, whose
    [cancelAfter], if any, is a safe integer and not before
    [finishAfter], whose [condition] is not the empty string and whose
    memo, if any, has a type of 1 to 100 and a data of 1 to 1000 code
    units, or none. *)
Theorem create_schema_accepts (loadTime : Z) (body : CreateParams.t) :
  escrowCreateSchema loadTime body = [] <->
  matches_address (CreateParams.sourceAddress body) /\
  matches_address (CreateParams.destinationAddress body) /\
  accepted_amount (CreateParams.amount body) /\
  (exists f, CreateParams.finishAfter body = Some f /\ (loadTime <= f)%Z /\
     safe_integer f /\
     forall c, CreateParams.cancelAfter body = Some c ->
               (f <= c)%Z /\ safe_integer c) /\
  absent_or_filled (CreateParams.condition body) /\
  (forall m, CreateParams.memo body = Some m ->
     absent_or_filled (Memo.type m) /\
     (forall s, Memo.type m = Some s -> (List.length s <= 100)%nat) /\
     absent_or_filled (Memo.data m) /\
     (forall s, Memo.data m = Some s -> (List.length s <= 1000)%nat)).
Proof.
  unfold escrowCreateSchema.
  rewrite !app_nil_iff, !xrplAddress_nil, amount_rule_nil, no_rule_optional.
  assert (Htimes :
    (match CreateParams.finishAfter body with
     | Some f => number_rules [Key "finishAfter"] (min_rule loadTime) f
     | None => [ {| path := [Key "finishAfter"]; code := any_required |} ]
     end = [] /\
     match CreateParams.cancelAfter body with
     | Some c =>
         number_rules [Key "cancelAfter"]
           (fun c => match CreateParams.finishAfter body with
                     | Some f => min_rule f c
                     | None => [any_ref]
                     end) c
     | None => []
     end = []) <->
    (exists f, CreateParams.finishAfter body = Some f /\ (loadTime <= f)%Z /\
       safe_integer f /\
       forall c, CreateParams.cancelAfter body = Some c ->
                 (f <= c)%Z /\ safe_integer c)).
  { unfold safe_integer.
    destruct (CreateParams.finishAfter body) as [f|].
    - rewrite number_rules_nil, min_rule_nil, is_safe_integer_spec.
      destruct (CreateParams.cancelAfter body) as [c|].
      + rewrite number_rules_nil, min_rule_nil, is_safe_integer_spec. split.
        * intros [[Hsafe Hmin] [Hsafe' Hmin']]. exists f.
          split; [reflexivity|]. split; [assumption|]. split; [assumption|].
          intros c' [= <-]. split; assumption.
        * intros (f' & [= <-] & Hmin & Hsafe & Hc).
          destruct (Hc c eq_refl) as [Hmin' Hsafe']. auto.
      + split.
        * intros [[Hsafe Hmin] _]. exists f.
          split; [reflexivity|]. split; [assumption|]. split; [assumption|].
          intros c' [=].
        * intros (f' & [= <-] & Hmin & Hsafe & _). auto.
    - split; [intros [[=] _]|]. intros (f & [=] & _). }
  assert (Hmemo :
    match CreateParams.memo body with
    | Some m =>
        string_optional [Key "memo"; Key "type"] (max_rule 100) (Memo.type m)
        ++ string_optional [Key "memo"; Key "data"] (max_rule 1000)
             (Memo.data m)
    | None => []
    end = [] <->
    (forall m, CreateParams.memo body = Some m ->
       absent_or_filled (Memo.type m) /\
       (forall s, Memo.type m = Some s -> (List.length s <= 100)%nat) /\
       absent_or_filled (Memo.data m) /\
       (forall s, Memo.data m = Some s -> (List.length s <= 1000)%nat))).
  { assert (Hmax : forall n s, max_rule n s = [] <-> (List.length s <= n)%nat).
    { intros n s. unfold max_rule.
      destruct (Nat.leb_spec (List.length s) n); split; auto;
        [discriminate | lia]. }
    destruct (CreateParams.memo body) as [m|].
    - rewrite app_nil_iff, !string_optional_nil. unfold absent_or_filled.
      split.
      + intros [[H1 H2] [H3 H4]] m' [= <-]. repeat split; auto;
          intros s Hs; apply Hmax; auto.
      + intros H. destruct (H m eq_refl) as (H1 & H2 & H3 & H4).
        repeat split; auto; intros s Hs; apply Hmax; auto.
    - split; [|reflexivity]. intros _ m [=]. }
  tauto.
Qed.

(** A create request that passed the schema of a process started after
    1970 gets both of its times onto the descriptor: [FinishAfter] is
    there, [CancelAfter] is there when the request has a [cancelAfter],
    and on the ledger's clock too [CancelAfter] is not before
    [FinishAfter]. *)
Theorem validated_times_reach_the_descriptor (loadTime : Z)
  (body : CreateParams.t) :
  (0 < loadTime)%Z ->
  escrowCreateSchema loadTime body = [] ->
  exists f,
    CreateParams.finishAfter body = Some f /\
    obj_get (escrowCreateTx body) (lit "FinishAfter")
    = Some (JNum (f - 946684800)) /\
    (CreateParams.cancelAfter body = None ->
       obj_get (escrowCreateTx body) (lit "CancelAfter") = None) /\
    (forall c, CreateParams.cancelAfter body = Some c ->
       obj_get (escrowCreateTx body) (lit "CancelAfter")
       = Some (JNum (c - 946684800)) /\
       (f - 946684800 <= c - 946684800)%Z).
Proof.
  intros Hload Hok.
  destruct (escrowCreateSchema_times _ _ Hok)
    as (f & Hf & Hle & Hsafe & Hcancel).
  apply is_safe_integer_spec in Hsafe.
  destruct (escrowCreateTx_fields body)
    as (_ & _ & _ & _ & Hfin & Hcan & _).
  exists f. split; [exact Hf|]. split; [|split].
  - rewrite Hfin, Hf. rewrite toRippleTime_exact by lia.
    destruct (Z.eqb_spec f 0); [lia | reflexivity].
  - intros Hnone. now rewrite Hcan, Hnone.
  - intros c Hc. destruct (Hcancel c Hc) as [Hfc Hsafe'].
    apply is_safe_integer_spec in Hsafe'. split; [|lia].
    rewrite Hcan, Hc. rewrite toRippleTime_exact by lia.
    destruct (Z.eqb_spec c 0); [lia | reflexivity].
Qed.

(** The theorem on a request to be cancelled an hour after it can be
    finished. *)
Lemma validated_times_reach_the_descriptor_witness :
  obj_get (escrowCreateTx
             (sample_create (Some 2000000000%Z) (Some 2000003600%Z) None))
    (lit "CancelAfter") = Some (JNum 1053318800).
Proof.
  assert (Hload : (0 < 1900000000)%Z) by reflexivity.
  destruct (@validated_times_reach_the_descriptor 1900000000%Z
              (sample_create (Some 2000000000%Z) (Some 2000003600%Z) None)
              Hload eq_refl) as (f & _ & _ & _ & Hcancel).
  exact (proj1 (Hcancel 2000003600%Z eq_refl)).
Defined.

(** ** The middleware and the routes *)

(** Every route is [validateRequest(schema)] in front of a handler that
    awaits the service, and answers in one of three ways.  A body the
    schema refuses: status 400, "Validation failed", one detail for each
    error of the schema in the same order, no data, and the service is
    not run (the state is untouched).  A body it accepts: what the
    service returns, under [data] with status 200; or, when the service
    throws, status 400 with the message of the error and no details. *)
Theorem route_answers (B A : Type) (schema : B -> list Detail)
  (service : B -> M A) (body : B) (st : ServiceState) :
  let answer := validateRequest schema (respond service) body st in
  (schema body <> [] /\
   snd answer = st /\
   http_status (fst answer) = 400%Z /\
   success (fst answer) = false /\
   data (fst answer) = None /\
   error (fst answer) = Some (lit "Validation failed") /\
   exists ds, details (fst answer) = Some ds /\
              map field ds = map (fun d => path_join (path d)) (schema body) /\
              map rule ds = map code (schema body)) \/
  (schema body = [] /\
   snd answer = snd (service body st) /\
   exists r, fst (service body st) = inr r /\
             http_status (fst answer) = 200%Z /\
             success (fst answer) = true /\
             data (fst answer) = Some r /\
             error (fst answer) = None /\
             details (fst answer) = None) \/
  (schema body = [] /\
   snd answer = snd (service body st) /\
   exists e, fst (service body st) = inl e /\
             http_status (fst answer) = 400%Z /\
             success (fst answer) = false /\
             data (fst answer) = None /\
             error (fst answer) = Some (message e) /\
             details (fst answer) = None).
Proof.
  cbv zeta. unfold validateRequest.
  destruct (schema body) as [|d ds] eqn:Hs.
  - right. unfold respond.
    destruct (service body st) as [[e|r] st']; [right | left];
      (split; [reflexivity|]); (split; [reflexivity|]); eexists;
      repeat split.
  - left. split; [discriminate|]. repeat split. eexists.
    split; [reflexivity|]. rewrite !map_map. split; reflexivity.
Qed.

Lemma signature_items_at (start i : nat) (sigs : list Signature.t)
  (sig : Signature.t) (d : Detail) :
  nth_error sigs i = Some sig ->
  In d (signature_item (start + i) sig) ->
  In d (signature_items start sigs).
Proof.
  revert start i. induction sigs as [|s sigs IH]; intros start i Hn Hd.
  - destruct i; discriminate.
  - destruct i as [|i]; simpl in Hn.
    + injection Hn as ->. rewrite Nat.add_0_r in Hd. simpl.
      apply in_or_app. now left.
    + simpl. apply in_or_app. right. apply (IH (S start) i Hn).
      now rewrite <- Nat.add_succ_comm in Hd.
Qed.

(** A signature the schema refuses is reported at its own place: when
    the signer of signature [i] does not match the address pattern, the
    details of [multisigSubmitSchema] have one with the path
    [signatures.i.signer]. *)
Theorem bad_signer_is_reported_at_its_index (body : MultisigParams.t)
  (sigs : list Signature.t) (i : nat) (sig : Signature.t) :
  MultisigParams.signatures body = Some sigs ->
  nth_error sigs i = Some sig ->
  ~ matches_address (Signature.signer sig) ->
  exists d,
    In d (multisigSubmitSchema body) /\
    path d = [Key "signatures"; Index i; Key "signer"] /\
    path_join (path d)
    = ("signatures." ++ NilEmpty.string_of_uint (Nat.to_uint i)
       ++ ".signer")%string.
Proof.
  intros Hs Hn Hbad.
  pose proof (xrplAddress_nil [Key "signatures"; Index i; Key "signer"]
                (Signature.signer sig)) as Hiff.
  destruct (xrplAddress [Key "signatures"; Index i; Key "signer"]
              (Signature.signer sig)) as [|d ds] eqn:Hx.
  { exfalso. apply Hbad. now apply Hiff. }
  assert (Hp : path d = [Key "signatures"; Index i; Key "signer"]).
  { unfold xrplAddress, string_required in Hx.
    destruct (Signature.signer sig) as [[|c s]|].
    - now injection Hx as <- _.
    - destruct (pattern_rule xrplAddress_pattern (c :: s));
        [discriminate|]. simpl in Hx. now injection Hx as <- _.
    - now injection Hx as <- _. }
  exists d. split; [|split; [exact Hp|]].
  - unfold multisigSubmitSchema. rewrite Hs. apply in_or_app. right.
    apply in_or_app. left. apply (@signature_items_at 0 i sigs sig d Hn).
    unfold signature_item. apply in_or_app. left. cbn [Nat.add].
    rewrite Hx. now left.
  - rewrite Hp. reflexivity.
Qed.


(** The theorem on a second signature whose signer is malformed. *)
Lemma bad_signer_is_reported_at_its_index_witness :
  exists d,
    In d (multisigSubmitSchema
            {| MultisigParams.transaction := Some sample_transaction;
               MultisigParams.signatures := Some
                 [ sample_signature sample_source;
                   sample_signature sample_malformed ] |}) /\
    path_join (path d) = "signatures.1.signer"%string.
Proof.
  assert (Hbad : ~ matches_address
                     (Signature.signer (sample_signature sample_malformed))).
  { intros (s & Hs & Hp). injection Hs as <-. vm_compute in Hp.
    discriminate Hp. }
  destruct (@bad_signer_is_reported_at_its_index
              {| MultisigParams.transaction := Some sample_transaction;
                 MultisigParams.signatures := Some
                   [ sample_signature sample_source;
                     sample_signature sample_malformed ] |}
              [ sample_signature sample_source;
                sample_signature sample_malformed ]
              1%nat (sample_signature sample_malformed)
              eq_refl eq_refl Hbad) as (d & Hin & _ & Hjoin).
  exists d. split; [exact Hin | exact Hjoin].
Defined.

(** ** server.js *)

Lemma server_connected (X : XrplLib) (env : ProcessEnv)
  (new_Client : option jsstring -> JsError + jsstring) (st : ServiceState) :
  client st = Some true ->
  Server.getXRPLClient X env new_Client st = (inr tt, st).
Proof. intros H. unfold Server.getXRPLClient. now rewrite H. Qed.

(** The finish handler of server.js, once the client is there and the
    ledger answers.  It asks [xrpl.isValidAddress] nothing.  Its
    [requiresMultisig] and [instructions.multisigRequired] are [true]
    with the first signer list attached when the account has signer
    lists, [false] when the list of them is empty, and [undefined]
    (where the service says [false]) when the answer has none. *)
Theorem server_finish_flags (X : XrplLib) (env : ProcessEnv)
  (new_Client : option jsstring -> JsError + jsstring)
  (body : FinishParams.t) (st st1 : ServiceState) (info : AccountInfo)
  (prepared : jsobj) :
  Server.getXRPLClient X env new_Client st = (inr tt, st1) ->
  client_account_info X (FinishParams.finisherAddress body) = inr info ->
  client_autofill X (escrowFinishTx body) = inr prepared ->
  exists r st',
    Server.finish X env new_Client body st = (inr r, st') /\
    ServerFinish.transaction r = prepared /\
    ServerFinish.requiresMultisig r
    = Instructions.multisigRequired (ServerFinish.instructions r) /\
    (forall first rest, signer_lists info = Some (first :: rest) ->
       ServerFinish.requiresMultisig r = Some true /\
       ServerFinish.signerList r = Some first) /\
    (signer_lists info = Some [] ->
       ServerFinish.requiresMultisig r = Some false /\
       ServerFinish.signerList r = None) /\
    (signer_lists info = None ->
       ServerFinish.requiresMultisig r = None /\
       ServerFinish.signerList r = None).
Proof.
  intros Hc Hinfo Hauto. unfold Server.finish. run.
  rewrite Hc, Hinfo. cbn [trace client]. rewrite Hauto.
  do 2 eexists. split; [reflexivity|]. cbn.
  split; [reflexivity|]. split; [reflexivity|]. repeat split.
  - now rewrite H.
  - now rewrite H.
  - now rewrite H.
  - now rewrite H.
  - now rewrite H.
  - now rewrite H.
Qed.

(** The theorem on an account whose answer carries no signer lists. *)
Lemma server_finish_flags_witness :
  exists r st',
    Server.finish (sample_lib None) sample_env sample_new_Client
      sample_finish fresh = (inr r, st') /\
    ServerFinish.requiresMultisig r = None.
Proof.
  destruct (@server_finish_flags (sample_lib None) sample_env
              sample_new_Client sample_finish fresh
              {| client := Some true;
                 trace := [ EvConnect
                   (lit "wss://s.altnet.rippletest.net:51233") ] |}
              {| signer_lists := None |}
              (sample_autofill (escrowFinishTx sample_finish))
              eq_refl eq_refl eq_refl)
    as (r & st' & Hrun & _ & _ & _ & _ & Hnone).
  exists r, st'. split; [exact Hrun | exact (proj1 (Hnone eq_refl))].
Defined.

(** The create handler of server.js against [prepareEscrowCreate], on a
    connected client with autofill answering.  The handler has no
    address check: it prepares the transaction whatever
    [xrpl.isValidAddress] says.  The service prepares the same
    transaction, from the same descriptor, when both addresses are
    valid, and throws "Invalid ... address" without asking for autofill
    when one is not. *)
Theorem server_create_has_no_address_check (X : XrplLib) (env : ProcessEnv)
  (new_Client : option jsstring -> JsError + jsstring)
  (body : CreateParams.t) (st : ServiceState) (prepared : jsobj) :
  client st = Some true ->
  client_autofill X (escrowCreateTx body) = inr prepared ->
  let asked := {| client := client st;
                  trace := trace st ++ [EvAutofill (escrowCreateTx body)] |} in
  (exists r,
     Server.create X env new_Client body st = (inr r, asked) /\
     ServerPrepared.transaction r = prepared) /\
  (xrpl_isValidAddress X (CreateParams.sourceAddress body) = true ->
   xrpl_isValidAddress X (CreateParams.destinationAddress body) = true ->
   exists r,
     prepareEscrowCreate X env body st = (inr r, asked) /\
     Prepared.transaction r = prepared) /\
  (xrpl_isValidAddress X (CreateParams.sourceAddress body) = false \/
   xrpl_isValidAddress X (CreateParams.destinationAddress body) = false ->
   exists e,
     prepareEscrowCreate X env body st = (inl e, st) /\ InvalidAddress e).
Proof.
  intros Hc Hauto asked. split; [|split].
  - unfold Server.create. run.
    rewrite (server_connected X env new_Client st Hc). rewrite Hauto.
    eexists. split; reflexivity.
  - intros Hs Hd.
    apply (prepareEscrowCreate_runs X env body st
             (initialize_connected X env st Hc) Hs Hd Hauto).
  - intros Hbad.
    destruct (@invalid_address_cases Prepared.t X
                (CreateParams.sourceAddress body)
                (CreateParams.destinationAddress body)
                (lit "Invalid source address")
                (lit "Invalid destination address")
                (let escrowTx := escrowCreateTx body in
                 prepared <- call (EvAutofill escrowTx)
                                  (client_autofill X escrowTx) ;;
                 ret {| Prepared.success := true;
                        Prepared.transaction := prepared;
                        Prepared.instructions :=
                          {| Instructions.message :=
                               lit "Transaction prepared. Sign this transaction with your private key and submit via /api/escrow/submit";
                             Instructions.signingRequired := true;
                             Instructions.multisigRequired := None |} |})
                (inr tt) st st (initialize X env)
                (initialize_connected X env st Hc))
      as (e & Hrun & Hinv & _); try (unfold InvalidAddress; simpl; auto).
    exists e. split; [exact Hrun | exact (Hinv eq_refl)].
Qed.

(** The theorem on the request whose source address is malformed. *)
Lemma server_create_has_no_address_check_witness :
  (exists r st',
     Server.create (sample_lib None) sample_env sample_new_Client
       sample_create_malformed connected = (inr r, st')) /\
  (exists e,
     prepareEscrowCreate (sample_lib None) sample_env
       sample_create_malformed connected = (inl e, connected)).
Proof.
  destruct (@server_create_has_no_address_check (sample_lib None) sample_env
              sample_new_Client sample_create_malformed connected
              (sample_autofill (escrowCreateTx sample_create_malformed))
              eq_refl eq_refl) as ((r & Hserver & _) & _ & Hservice).
  split.
  - exists r. eexists. exact Hserver.
  - destruct (Hservice (or_introl eq_refl)) as (e & Hrun & _).
    exists e. exact Hrun.
Defined.

(** [getXRPLClient] of server.js, when there is no connected client.
    What the constructor throws is thrown on, nothing is called and
    [xrplClient] stays what it was.  Otherwise [xrplClient] is the new
    client at once: when [connect] throws, its error is thrown on as it
    is (not wrapped, as config/xrpl.config does) and the unconnected
    client stays in [xrplClient]; when it resolves the client is
    returned, with no [server_info] probe. *)
Theorem server_client_manager (X : XrplLib) (env : ProcessEnv)
  (new_Client : option jsstring -> JsError + jsstring) (st : ServiceState) :
  client st <> Some true ->
  (forall e, new_Client (Server.XRPL_SERVER env) = inl e ->
     Server.getXRPLClient X env new_Client st = (inl e, st)) /\
  (forall url e,
     new_Client (Server.XRPL_SERVER env) = inr url ->
     client_connect X url = Some e ->
     Server.getXRPLClient X env new_Client st
     = (inl e, {| client := Some false;
                  trace := trace st ++ [EvConnect url] |})) /\
  (forall url,
     new_Client (Server.XRPL_SERVER env) = inr url ->
     client_connect X url = None ->
     Server.getXRPLClient X env new_Client st
     = (inr tt, {| client := Some true;
                   trace := trace st ++ [EvConnect url] |})).
Proof.
  intros Hc.
  assert (Hrun : Server.getXRPLClient X env new_Client st
                 = match new_Client (Server.XRPL_SERVER env) with
                   | inl e => throw e st
                   | inr url =>
                       (set_client (Some false) ;;
                        call_void (EvConnect url) (client_connect X url) ;;
                        set_client (Some true)) st
                   end).
  { unfold Server.getXRPLClient.
    destruct (client st) as [[|]|]; [congruence | reflexivity | reflexivity]. }
  rewrite Hrun. split; [|split].
  - now intros e ->.
  - intros url e -> He. run. now rewrite He.
  - intros url -> He. run. now rewrite He.
Qed.

(** The theorem on the server that cannot be reached. *)
Lemma server_client_manager_witness :
  Server.getXRPLClient unreachable_lib sample_env sample_new_Client fresh
  = (inl (Error (lit "connect ETIMEDOUT")),
     {| client := Some false;
        trace := [ EvConnect (lit "wss://s.altnet.rippletest.net:51233") ] |}).
Proof.
  assert (Hc : client fresh <> Some true) by discriminate.
  destruct (@server_client_manager unreachable_lib sample_env
              sample_new_Client fresh Hc) as (_ & Hfail & _).
  exact (Hfail (lit "wss://s.altnet.rippletest.net:51233")
           (Error (lit "connect ETIMEDOUT")) eq_refl eq_refl).
Defined.

Lemma try_catch_rethrow (A : Type) (m : M A) (st : ServiceState) :
  try_catch m (fun error => throw error) st = m st.
Proof.
  unfold try_catch, throw. destruct (m st) as [[e|a] st']; reflexivity.
Qed.

(** On a connected client, the submit-multisig route of server.js and
    the one of the router with the service give the same answer and
    leave the same calls behind, for every body. *)
Theorem server_multisig_route_agrees (X : XrplLib) (env : ProcessEnv)
  (new_Client : option jsstring -> JsError + jsstring)
  (body : MultisigParams.t) (st : ServiceState) :
  client st = Some true ->
  Server.post_submit_multisig X env new_Client body st
  = post_submit_multisig X env body st.
Proof.
  intros Hc. unfold Server.post_submit_multisig, post_submit_multisig.
  unfold validateRequest. destruct (multisigSubmitSchema body); [|reflexivity].
  unfold respond.
  assert (Hsame : Server.submit_multisig X env new_Client body st
                  = submitMultisigTransaction X env body st).
  { unfold submitMultisigTransaction. rewrite try_catch_rethrow.
    unfold Server.submit_multisig, bind.
    rewrite (server_connected X env new_Client st Hc).
    rewrite (initialize_connected X env st Hc). reflexivity. }
  now rewrite Hsame.
Qed.

(** The theorem on the sample body with one signature. *)
Lemma server_multisig_route_agrees_witness :
  Server.post_submit_multisig (sample_lib None) sample_env sample_new_Client
    {| MultisigParams.transaction := Some sample_transaction;
       MultisigParams.signatures := Some [sample_signature sample_source] |}
    connected
  = post_submit_multisig (sample_lib None) sample_env
      {| MultisigParams.transaction := Some sample_transaction;
         MultisigParams.signatures := Some [sample_signature sample_source] |}
      connected.
Proof.
  exact (@server_multisig_route_agrees (sample_lib None) sample_env
           sample_new_Client
           {| MultisigParams.transaction := Some sample_transaction;
              MultisigParams.signatures :=
                Some [sample_signature sample_source] |}
           connected eq_refl).
Defined.

(** ** Test wallets and disconnection *)

(** [createTestWallet].  On the network named "mainnet" it throws
    "Cannot create test wallets on mainnet" before anything else: no
    connection is made and no wallet is funded.  On another network,
    once [getXRPLClient] has returned, it funds the generated wallet,
    once; when funding throws, the error is thrown on and the client is
    not disconnected; when it resolves, the client is disconnected and
    the four fields of that same wallet are returned. *)
Theorem test_wallet_creation (X : XrplLib) (W : WalletLib) (env : ProcessEnv)
  (ps : Process) :
  (XRPL_NETWORK env = Some (lit "mainnet") ->
   createTestWallet X W env ps
   = (inl (Error (lit "Cannot create test wallets on mainnet")), ps)) /\
  (forall st',
     str_or (XRPL_NETWORK env) (lit "testnet") <> lit "mainnet" ->
     getXRPLClient X env (service ps) = (inr tt, st') ->
     (forall e, client_fundWallet W (Wallet_generate W) = Some e ->
        createTestWallet X W env ps
        = (inl e, {| service := st';
                     lifecycle := lifecycle ps
                       ++ [LvFundWallet (Wallet_generate W)] |})) /\
     (client_fundWallet W (Wallet_generate W) = None ->
      client_disconnect W = None ->
      createTestWallet X W env ps
      = (inr (Wallet_generate W),
         {| service := st';
            lifecycle := lifecycle ps
              ++ [LvFundWallet (Wallet_generate W); LvDisconnect] |}))).
Proof.
  split.
  - intros Hn. unfold createTestWallet. rewrite Hn. reflexivity.
  - intros st' Hn Hc. apply jsstring_eqb_neq in Hn.
    unfold createTestWallet. rewrite Hn, Hc. cbv zeta. split.
    + now intros e ->.
    + intros -> ->. rewrite <- app_assoc. destruct (Wallet_generate W).
      reflexivity.
Qed.

(** The theorem on the mainnet, and on a faucet that is down. *)
Lemma test_wallet_creation_witness :
  createTestWallet (sample_lib None) (sample_wallet_lib None)
    {| XRPL_NETWORK := Some (lit "mainnet"); XRPL_SERVER_URL := None |}
    {| service := fresh; lifecycle := [] |}
  = (inl (Error (lit "Cannot create test wallets on mainnet")),
     {| service := fresh; lifecycle := [] |}) /\
  createTestWallet (sample_lib None)
    (sample_wallet_lib (Some (Error (lit "Faucet unavailable")))) sample_env
    {| service := fresh; lifecycle := [] |}
  = (inl (Error (lit "Faucet unavailable")),
     {| service := {| client := None; trace := trace just_connected |};
        lifecycle := [LvFundWallet sample_wallet] |}).
Proof.
  split.
  - destruct (@test_wallet_creation (sample_lib None) (sample_wallet_lib None)
                {| XRPL_NETWORK := Some (lit "mainnet");
                   XRPL_SERVER_URL := None |}
                {| service := fresh; lifecycle := [] |}) as (Hmain & _).
    exact (Hmain eq_refl).
  - assert (Hn : str_or (XRPL_NETWORK sample_env) (lit "testnet")
                 <> lit "mainnet")
      by (apply jsstring_eqb_neq; vm_compute; reflexivity).
    destruct (@test_wallet_creation (sample_lib None)
                (sample_wallet_lib (Some (Error (lit "Faucet unavailable"))))
                sample_env {| service := fresh; lifecycle := [] |})
      as (_ & Hother).
    destruct (Hother {| client := None; trace := trace just_connected |}
                Hn eq_refl) as (Hfail & _).
    exact (Hfail (Error (lit "Faucet unavailable")) eq_refl).
Defined.

(** [disconnect] of the service does nothing unless the client is
    connected.  After it has disconnected a connected client, on which
    [initialize] made no call, the client is still there but not
    connected, and the next [initialize] connects again: on a listed
    network (with no [XRPL_SERVER_URL]) its first call is a [connect]
    to the listed URL. *)
Theorem disconnect_then_reconnect (X : XrplLib) (W : WalletLib)
  (env : ProcessEnv) (ps : Process) (url : jsstring) :
  truthy_str (XRPL_SERVER_URL env) = false ->
  In (network_name env, url) NETWORKS ->
  (client (service ps) <> Some true -> disconnect W ps = (inr tt, ps)) /\
  (client (service ps) = Some true -> client_disconnect W = None ->
   initialize X env (service ps) = (inr tt, service ps) /\
   exists ps',
     disconnect W ps = (inr tt, ps') /\
     lifecycle ps' = lifecycle ps ++ [LvDisconnect] /\
     client (service ps') = Some false /\
     exists r st' rest,
       initialize X env (service ps') = (r, st') /\
       trace st' = trace (service ps) ++ EvConnect url :: rest).
Proof.
  intros Hno Hin. split.
  - intros Hc. unfold disconnect.
    destruct (client (service ps)) as [[|]|]; [congruence | | ]; reflexivity.
  - intros Hc Hd. split; [now apply initialize_connected|].
    unfold disconnect. rewrite Hc, Hd. eexists.
    split; [reflexivity|]. cbn [lifecycle service client].
    split; [reflexivity|]. split; [reflexivity|].
    unfold initialize. cbn [client]. unfold bind, set_client.
    rewrite (@getXRPLClient_outcomes X env _ url Hno Hin). cbn [trace client].
    destruct (client_connect X url); [|destruct (client_server_info X)];
      do 3 eexists; (split; [reflexivity|]); cbn [trace];
      rewrite <- ?app_assoc; reflexivity.
Qed.

(** The theorem on the connected sample service. *)
Lemma disconnect_then_reconnect_witness :
  exists ps',
    disconnect (sample_wallet_lib None)
      {| service := connected; lifecycle := [] |} = (inr tt, ps') /\
    exists r st' rest,
      initialize (sample_lib None) sample_env (service ps') = (r, st') /\
      trace st'
      = EvConnect (lit "wss://s.altnet.rippletest.net:51233") :: rest.
Proof.
  destruct (@disconnect_then_reconnect (sample_lib None)
              (sample_wallet_lib None) sample_env
              {| service := connected; lifecycle := [] |}
              (lit "wss://s.altnet.rippletest.net:51233")
              eq_refl (or_introl eq_refl)) as (_ & Hre).
  destruct (Hre eq_refl eq_refl)
    as (_ & ps' & Hd & _ & _ & r & st' & rest & Hi & Ht).
  exists ps'. split; [exact Hd|]. exists r, st', rest.
  split; [exact Hi | exact Ht].
Defined.

(** ** The memo codec, further *)

Local Open Scope N_scope.

Lemma utf8_encode_ascii (s : jsstring) :
  ascii_string s -> utf8_encode s = s.
Proof.
  intros Hs. induction Hs as [|c rest Hc Hrest IH]; [reflexivity|].
  cbn [utf8_encode]. apply N.ltb_lt in Hc. rewrite Hc. now rewrite IH.
Qed.

(** One to three bytes for each code unit. *)
Lemma utf8_encode_length (s : jsstring) :
  (List.length s <= List.length (utf8_encode s) <= 3 * List.length s)%nat.
Proof.
  assert (Hall : forall n s, (List.length s <= n)%nat ->
            (List.length s <= List.length (utf8_encode s)
             <= 3 * List.length s)%nat); [|now apply (Hall (List.length s))].
  clear s. induction n as [|n IH]; intros s Hle.
  - destruct s; [simpl; lia | simpl in Hle; lia].
  - destruct s as [|c rest]; [simpl; lia|]. simpl in Hle.
    assert (IHrest := IH rest ltac:(lia)).
    cbn [utf8_encode].
    destruct (N.ltb c 128); [cbn [List.length]; lia|].
    destruct (N.ltb c 2048);
      [rewrite length_app; cbn [List.length utf8_2]; lia|].
    destruct (is_high_surrogate c).
    + destruct rest as [|d rest']; [cbn [List.length replacement]; lia|].
      simpl in Hle. assert (IHrest' := IH rest' ltac:(lia)).
      destruct (is_low_surrogate d); rewrite length_app;
        cbn [List.length utf8_4 replacement] in *; lia.
    + destruct (is_low_surrogate c); rewrite length_app;
        cbn [List.length utf8_3 replacement]; lia.
Qed.

(** What [_toHex] writes, for any string of code units: upper-case
    hexadecimal digits only, two for each byte of the UTF-8 encoding,
    so between two and six for each code unit of the string, and
    exactly two for each character of an ASCII string. *)
Theorem toHex_shape (s : jsstring) :
  code_units s ->
  forallb is_upper_hex (_toHex s) = true /\
  List.length (_toHex s) = (2 * List.length (utf8_encode s))%nat /\
  (2 * List.length s <= List.length (_toHex s) <= 6 * List.length s)%nat /\
  (ascii_string s -> List.length (_toHex s) = (2 * List.length s)%nat).
Proof.
  intros Hs. pose proof (toHex_length s) as Hlen.
  pose proof (utf8_encode_length s) as Hbytes.
  split; [now apply toHex_alphabet|]. split; [exact Hlen|].
  split; [lia|]. intros Ha. rewrite Hlen. now rewrite utf8_encode_ascii.
Qed.

(** The theorem on "escrow". *)
Lemma toHex_shape_witness :
  List.length (_toHex (lit "escrow")) = 12%nat.
Proof.
  assert (Hs : code_units (lit "escrow"))
    by (repeat constructor).
  assert (Ha : ascii_string (lit "escrow"))
    by (repeat constructor).
  destruct (@toHex_shape (lit "escrow") Hs) as (_ & _ & _ & Hascii).
  exact (Hascii Ha).
Defined.

Lemma hex_value_of_digit (n : N) :
  n < 16 ->
  hex_value
    (let c := hex_digit n in if (97 <=? c) && (c <=? 122) then c - 32 else c)
  = n.
Proof.
  intros Hn. unfold hex_digit, hex_value. cbv zeta.
  destruct (N.ltb_spec n 10);
    repeat (match goal with
            | |- context [N.leb ?a ?b] =>
                lazymatch b with
                | context [if _ then _ else _] => fail
                | _ =>
                    lazymatch a with
                    | context [if _ then _ else _] => fail
                    | _ => destruct (N.leb_spec a b)
                    end
                end
            end; cbn [andb orb]);
    lia.
Qed.

Lemma hex_decode_toHex (bs : list N) :
  Forall (fun b => b < 256) bs ->
  hex_decode (toUpperCase (hex_of_bytes bs)) = bs.
Proof.
  intros Hbs. unfold toUpperCase, hex_of_bytes.
  induction Hbs as [|b bs Hb Hbs IH]; [reflexivity|].
  cbn [flat_map app map hex_decode]. rewrite IH.
  assert (Hhi : b / 16 < 16) by (apply N.Div0.div_lt_upper_bound; lia).
  assert (Hlo : b mod 16 < 16) by (apply N.mod_lt; lia).
  apply hex_value_of_digit in Hhi, Hlo. cbv zeta in Hhi, Hlo.
  rewrite Hhi, Hlo. f_equal. symmetry. apply N.div_mod. lia.
Qed.

Lemma well_formed_code_units (s : jsstring) :
  well_formed s = true -> code_units s.
Proof.
  assert (Hall : forall n s, (List.length s <= n)%nat ->
            well_formed s = true -> code_units s);
    [|now apply (Hall (List.length s))].
  clear s. unfold code_units.
  induction n as [|n IH]; intros s Hle Hwf.
  - destruct s; [constructor | simpl in Hle; lia].
  - destruct s as [|c rest]; [constructor|]. simpl in Hle.
    cbn [well_formed] in Hwf.
    destruct (is_high_surrogate c) eqn:Hh.
    + destruct rest as [|d rest']; [discriminate|].
      apply andb_true_iff in Hwf as [Hl Hwf]. simpl in Hle.
      unfold is_high_surrogate in Hh. unfold is_low_surrogate in Hl.
      apply andb_true_iff in Hh as [_ Hh]. apply andb_true_iff in Hl as [_ Hl].
      apply N.leb_le in Hh, Hl.
      constructor; [lia|]. constructor; [lia|]. apply IH; [lia | exact Hwf].
    + apply andb_true_iff in Hwf as [Hc Hwf].
      apply andb_true_iff in Hc as [_ Hc]. apply N.ltb_lt in Hc.
      constructor; [exact Hc|]. apply IH; [lia | exact Hwf].
Qed.

Lemma two_bytes_back (c : N) :
  128 <= c -> c < 2048 ->
  (192 + c / 64 <? 128) = false /\ (192 + c / 64 <? 224) = true /\
  (192 + c / 64 - 192) * 64 + (128 + c mod 64 - 128) = c.
Proof.
  intros Hlo Hhi.
  assert (c / 64 < 32) by (apply N.Div0.div_lt_upper_bound; lia).
  pose proof (N.div_mod c 64 ltac:(lia)).
  pose proof (N.mod_lt c 64 ltac:(lia)).
  rewrite N.ltb_ge, N.ltb_lt.
  set (q := c / 64) in *. set (r := c mod 64) in *. clearbody q r. lia.
Qed.

Lemma three_bytes_back (c : N) :
  2048 <= c -> c < 65536 ->
  (224 + c / 4096 <? 128) = false /\ (224 + c / 4096 <? 224) = false /\
  (224 + c / 4096 <? 240) = true /\
  (224 + c / 4096 - 224) * 4096 + (128 + (c / 64) mod 64 - 128) * 64
  + (128 + c mod 64 - 128) = c.
Proof.
  intros Hlo Hhi.
  assert (Hq : c / 4096 = c / 64 / 64) by (now rewrite N.Div0.div_div).
  rewrite Hq.
  pose proof (N.div_mod c 64 ltac:(lia)).
  pose proof (N.mod_lt c 64 ltac:(lia)).
  pose proof (N.div_mod (c / 64) 64 ltac:(lia)).
  pose proof (N.mod_lt (c / 64) 64 ltac:(lia)).
  rewrite !N.ltb_ge, N.ltb_lt.
  set (r0 := c mod 64) in *. set (r1 := (c / 64) mod 64) in *.
  set (q2 := c / 64 / 64) in *. set (q1 := c / 64) in *.
  clearbody r0 r1 q2 q1. lia.
Qed.

Lemma four_bytes_back (c : N) :
  65536 <= c -> c < 1114112 ->
  (240 + c / 262144 <? 128) = false /\ (240 + c / 262144 <? 224) = false /\
  (240 + c / 262144 <? 240) = false /\
  (240 + c / 262144 - 240) * 262144
  + (128 + (c / 4096) mod 64 - 128) * 4096
  + (128 + (c / 64) mod 64 - 128) * 64 + (128 + c mod 64 - 128) = c.
Proof.
  intros Hlo Hhi.
  assert (Hq2 : c / 4096 = c / 64 / 64) by (now rewrite N.Div0.div_div).
  assert (Hq3 : c / 262144 = c / 64 / 64 / 64)
    by (now rewrite !N.Div0.div_div).
  rewrite Hq2, Hq3.
  pose proof (N.div_mod c 64 ltac:(lia)).
  pose proof (N.mod_lt c 64 ltac:(lia)).
  pose proof (N.div_mod (c / 64) 64 ltac:(lia)).
  pose proof (N.mod_lt (c / 64) 64 ltac:(lia)).
  pose proof (N.div_mod (c / 64 / 64) 64 ltac:(lia)).
  pose proof (N.mod_lt (c / 64 / 64) 64 ltac:(lia)).
  rewrite !N.ltb_ge.
  set (r0 := c mod 64) in *. set (r1 := (c / 64) mod 64) in *.
  set (r2 := (c / 64 / 64) mod 64) in *.
  set (q3 := c / 64 / 64 / 64) in *. set (q2 := c / 64 / 64) in *.
  set (q1 := c / 64) in *.
  clearbody r0 r1 r2 q3 q2 q1. lia.
Qed.

Lemma surrogates_back (c d : N) :
  is_high_surrogate c = true -> is_low_surrogate d = true ->
  let cp := 65536 + (c - 55296) * 1024 + (d - 56320) in
  65536 <= cp /\ cp < 1114112 /\
  55296 + (cp - 65536) / 1024 = c /\ 56320 + (cp - 65536) mod 1024 = d.
Proof.
  unfold is_high_surrogate, is_low_surrogate.
  rewrite !andb_true_iff, !N.leb_le. intros [Hc1 Hc2] [Hd1 Hd2]. cbv zeta.
  replace (65536 + (c - 55296) * 1024 + (d - 56320) - 65536)
    with ((d - 56320) + (c - 55296) * 1024) by lia.
  rewrite N.div_add by lia. rewrite N.Div0.mod_add.
  rewrite N.div_small, N.mod_small by lia. lia.
Qed.

Lemma utf8_decode_encode (s : jsstring) :
  well_formed s = true -> utf8_decode (utf8_encode s) = s.
Proof.
  assert (Hall : forall n s, (List.length s <= n)%nat ->
            well_formed s = true -> utf8_decode (utf8_encode s) = s);
    [|now apply (Hall (List.length s))].
  clear s. induction n as [|n IH]; intros s Hle Hwf.
  - destruct s; [reflexivity | simpl in Hle; lia].
  - destruct s as [|c rest]; [reflexivity|]. simpl in Hle.
    cbn [well_formed] in Hwf. cbn [utf8_encode].
    destruct (N.ltb_spec c 128) as [Hc1|Hc1].
    { assert (Hh : is_high_surrogate c = false).
      { unfold is_high_surrogate. apply andb_false_iff. left.
        apply N.leb_gt. lia. }
      rewrite Hh in Hwf. apply andb_true_iff in Hwf as [_ Hwf].
      cbn [utf8_decode]. apply N.ltb_lt in Hc1. rewrite Hc1.
      f_equal. apply IH; [lia | exact Hwf]. }
    destruct (N.ltb_spec c 2048) as [Hc2|Hc2].
    { assert (Hh : is_high_surrogate c = false).
      { unfold is_high_surrogate. apply andb_false_iff. left.
        apply N.leb_gt. lia. }
      rewrite Hh in Hwf. apply andb_true_iff in Hwf as [_ Hwf].
      destruct (two_bytes_back Hc1 Hc2) as (E1 & E2 & E3).
      unfold utf8_2. cbn [app utf8_decode]. rewrite E1, E2, E3.
      f_equal. apply IH; [lia | exact Hwf]. }
    destruct (is_high_surrogate c) eqn:Hh.
    + destruct rest as [|d rest']; [discriminate|].
      apply andb_true_iff in Hwf as [Hl Hwf]. rewrite Hl. simpl in Hle.
      pose proof (surrogates_back c d Hh Hl) as HB. cbv zeta in HB.
      destruct HB as (B1 & B2 & B3 & B4).
      destruct (four_bytes_back B1 B2) as (E1 & E2 & E3 & E4).
      unfold utf8_4. cbn [app utf8_decode]. rewrite E1, E2, E3. cbv zeta.
      rewrite E4, B3, B4. do 2 f_equal. apply IH; [lia | exact Hwf].
    + apply andb_true_iff in Hwf as [Hc Hwf].
      apply andb_true_iff in Hc as [Hl Hc3]. apply negb_true_iff in Hl.
      apply N.ltb_lt in Hc3. rewrite Hl.
      destruct (three_bytes_back Hc2 Hc3) as (E1 & E2 & E3 & E4).
      unfold utf8_3. cbn [app utf8_decode]. rewrite E1, E2, E3, E4.
      f_equal. apply IH; [lia | exact Hwf].
Qed.

Local Close Scope N_scope.

(** [_toHex] loses nothing of a string without lone surrogates: the
    string can be read back from its encoding, so two such strings with
    the same encoding are the same string.  A lone surrogate is lost:
    it is encoded as U+FFFD is. *)
Theorem toHex_is_reversible (s : jsstring) :
  well_formed s = true ->
  utf8_decode (hex_decode (_toHex s)) = s /\
  (forall s', well_formed s' = true -> _toHex s' = _toHex s -> s' = s) /\
  (forall c, is_high_surrogate c || is_low_surrogate c = true ->
     _toHex [c] = _toHex [65533%N]).
Proof.
  intros Hwf.
  assert (Hback : forall x, well_formed x = true ->
                    utf8_decode (hex_decode (_toHex x)) = x).
  { intros x Hx. unfold _toHex. rewrite hex_decode_toHex.
    - now apply utf8_decode_encode.
    - apply utf8_encode_bytes. now apply well_formed_code_units. }
  split; [now apply Hback|]. split.
  - intros s' Hwf' Heq. rewrite <- (Hback s' Hwf'), Heq. now apply Hback.
  - intros c Hc. unfold _toHex. f_equal. f_equal. cbn [utf8_encode].
    unfold is_high_surrogate, is_low_surrogate in *.
    destruct (N.ltb_spec c 128); [exfalso|].
    { rewrite orb_true_iff, !andb_true_iff, !N.leb_le in Hc. lia. }
    destruct (N.ltb_spec c 2048); [exfalso|].
    { rewrite orb_true_iff, !andb_true_iff, !N.leb_le in Hc. lia. }
    destruct ((55296 <=? c)%N && (c <=? 56319)%N); [reflexivity|].
    cbn [orb] in Hc. rewrite Hc. reflexivity.
Qed.

(** The theorem on "escrow". *)
Lemma toHex_is_reversible_witness :
  utf8_decode (hex_decode (lit "657363726F77")) = lit "escrow".
Proof.
  exact (proj1 (@toHex_is_reversible (lit "escrow") eq_refl)).
Defined.
